(** * mod_sslhaf: passive SSL/TLS client fingerprinting

    A shallow embedding of [src/mod_sslhaf.c] (the newer revision of the
    module): the hex helpers [c2x] and [bytes2hex], the two ClientHello
    decoders [decode_packet_v2] and [decode_packet_v3_handshake], the
    record reassembler [decode_bucket] with its caller [sslhaf_in_filter],
    and the GREASE filter / decimal conversion of [sslhaf_post_request]
    with [str_to_dec].

    Conventions of the embedding.
    - An [unsigned char] is a [Byte.byte]; [u8] gives its value in [0, 255].
    - [int], [unsigned] and [apr_size_t] values are [Z]; where the C
      arithmetic can wrap (the SSLv2 length [inputbuf[0] - 3] stored in an
      [apr_size_t]) the reduction modulo [2^64] is written out.
    - A C string is a [string]; a [char *] that may be [NULL] is an
      [option string].
    - [cfg->buf] is [None] for [NULL] and [Some bs] for a block returned by
      [malloc], [bs] being the bytes copied into it so far.  When a decoder
      runs, the block is full, so an index at or beyond [length bs] lies
      outside the allocation.
    - Undefined behaviour of the C program (a read or write outside an
      object, a [NULL] dereference) is an explicit [Fault].
    - [malloc], [calloc] and [apr_pcalloc] are taken to succeed; in
      [bytes2hex], which tests what [apr_palloc] returns, the outcome of
      the allocation is an argument.  The
      blocks the decoders allocate for their text are sized by the code for
      the most the loops can write, so that text is a [string] without a
      capacity; the fixed 100-byte and 10-byte blocks of
      [sslhaf_post_request] and [str_to_dec] keep their capacity.
    - A loop whose counter is not a plain count-down runs on fuel, with
      [Fault LoopFuel] for running out; the lemmas named [_fuel] show that
      this never happens. *)

From Stdlib Require Import ZArith List String Ascii Bool Lia DecimalString.
From Stdlib.Strings Require Import Byte.
From Stdlib Require DecimalFacts DecimalPos.
Import ListNotations.
Open Scope Z_scope.

(** ** Bytes and machine integers *)

Definition u8 (b : byte) : Z := Z.of_N (Byte.to_N b).

Definition byte_of_Z (z : Z) : byte :=
  match Byte.of_N (Z.to_N (z mod 256)) with
  | Some b => b
  | None => x00
  end.

(** Byte strings written as lists of numbers. *)
Definition bytes_of (l : list Z) : list byte := map byte_of_Z l.

(** [apr_size_t] on the LP64 targets the module is built for. *)
Definition SIZE_T_MOD : Z := 2 ^ 64.
Definition to_size_t (z : Z) : Z := z mod SIZE_T_MOD.

Definition INT_MAX : Z := 2147483647.

(** ** Outcomes *)

Inductive fault : Type :=
| NullDereference
| OutOfBoundsRead
| OutOfBoundsWrite
| IntegerOverflow
| LoopFuel.

Inductive result (A : Type) : Type :=
| Ok (a : A)
| Fault (f : fault).
Arguments Ok {A} a.
Arguments Fault {A} f.

Definition bind {A B : Type} (m : result A) (k : A -> result B) : result B :=
  match m with
  | Ok a => k a
  | Fault f => Fault f
  end.

Notation "x <- m ;; k" := (bind m (fun x => k))
  (at level 61, m at next level, right associativity).
Notation "' pat <- m ;; k" := (bind m (fun x => match x with pat => k end))
  (at level 61, pat pattern, m at next level, right associativity).

(** ** Constants *)

Inductive conn_state : Type :=
| STATE_START
| STATE_BUFFER
| STATE_READING
| STATE_GOAWAY.

Definition conn_state_eqb (a b : conn_state) : bool :=
  match a, b with
  | STATE_START, STATE_START
  | STATE_BUFFER, STATE_BUFFER
  | STATE_READING, STATE_READING
  | STATE_GOAWAY, STATE_GOAWAY => true
  | _, _ => false
  end.

Definition BUF_LIMIT : Z := 16384.
Definition PROTOCOL_CHANGE_CIPHER_SPEC : Z := 20.
Definition PROTOCOL_HANDSHAKE : Z := 22.
Definition PROTOCOL_APPLICATION : Z := 23.

(** ** The per-connection structure [sslhaf_cfg_t] *)

Record sslhaf_cfg_t : Type := mk_cfg {
  state : conn_state;
  buf_protocol : Z;
  buf : option (list byte);
  buf_len : Z;
  buf_to_go : Z;
  hello_version : Z;
  protocol_high : Z;
  protocol_low : Z;
  slen : Z;
  suites : option Z;
  thandshake : option string;
  tprotocol : option string;
  tsuites : option string;
  request_counter : Z;
  ipaddress_hash : option string;
  compression_len : Z;
  compression_methods : option string;
  extensions_len : Z;
  extensions : option string;
  client_hello : option string;
  ec_point : option string;
  curves : option string;
  curve_len : Z
}.

(** Field assignments [cfg->f = v]. *)
Definition set_state (v : conn_state) (c : sslhaf_cfg_t) : sslhaf_cfg_t :=
  mk_cfg v (buf_protocol c) (buf c) (buf_len c) (buf_to_go c)
    (hello_version c) (protocol_high c) (protocol_low c) (slen c) (suites c)
    (thandshake c) (tprotocol c) (tsuites c) (request_counter c)
    (ipaddress_hash c) (compression_len c) (compression_methods c)
    (extensions_len c) (extensions c) (client_hello c) (ec_point c)
    (curves c) (curve_len c).
Definition set_buf_protocol (v : Z) (c : sslhaf_cfg_t) : sslhaf_cfg_t :=
  mk_cfg (state c) v (buf c) (buf_len c) (buf_to_go c) (hello_version c)
    (protocol_high c) (protocol_low c) (slen c) (suites c) (thandshake c)
    (tprotocol c) (tsuites c) (request_counter c) (ipaddress_hash c)
    (compression_len c) (compression_methods c) (extensions_len c)
    (extensions c) (client_hello c) (ec_point c) (curves c) (curve_len c).
Definition set_buf (v : option (list byte)) (c : sslhaf_cfg_t) : sslhaf_cfg_t :=
  mk_cfg (state c) (buf_protocol c) v (buf_len c) (buf_to_go c)
    (hello_version c) (protocol_high c) (protocol_low c) (slen c) (suites c)
    (thandshake c) (tprotocol c) (tsuites c) (request_counter c)
    (ipaddress_hash c) (compression_len c) (compression_methods c)
    (extensions_len c) (extensions c) (client_hello c) (ec_point c)
    (curves c) (curve_len c).
Definition set_buf_len (v : Z) (c : sslhaf_cfg_t) : sslhaf_cfg_t :=
  mk_cfg (state c) (buf_protocol c) (buf c) v (buf_to_go c) (hello_version c)
    (protocol_high c) (protocol_low c) (slen c) (suites c) (thandshake c)
    (tprotocol c) (tsuites c) (request_counter c) (ipaddress_hash c)
    (compression_len c) (compression_methods c) (extensions_len c)
    (extensions c) (client_hello c) (ec_point c) (curves c) (curve_len c).
Definition set_buf_to_go (v : Z) (c : sslhaf_cfg_t) : sslhaf_cfg_t :=
  mk_cfg (state c) (buf_protocol c) (buf c) (buf_len c) v (hello_version c)
    (protocol_high c) (protocol_low c) (slen c) (suites c) (thandshake c)
    (tprotocol c) (tsuites c) (request_counter c) (ipaddress_hash c)
    (compression_len c) (compression_methods c) (extensions_len c)
    (extensions c) (client_hello c) (ec_point c) (curves c) (curve_len c).
Definition set_hello_version (v : Z) (c : sslhaf_cfg_t) : sslhaf_cfg_t :=
  mk_cfg (state c) (buf_protocol c) (buf c) (buf_len c) (buf_to_go c) v
    (protocol_high c) (protocol_low c) (slen c) (suites c) (thandshake c)
    (tprotocol c) (tsuites c) (request_counter c) (ipaddress_hash c)
    (compression_len c) (compression_methods c) (extensions_len c)
    (extensions c) (client_hello c) (ec_point c) (curves c) (curve_len c).
Definition set_protocol_high (v : Z) (c : sslhaf_cfg_t) : sslhaf_cfg_t :=
  mk_cfg (state c) (buf_protocol c) (buf c) (buf_len c) (buf_to_go c)
    (hello_version c) v (protocol_low c) (slen c) (suites c) (thandshake c)
    (tprotocol c) (tsuites c) (request_counter c) (ipaddress_hash c)
    (compression_len c) (compression_methods c) (extensions_len c)
    (extensions c) (client_hello c) (ec_point c) (curves c) (curve_len c).
Definition set_protocol_low (v : Z) (c : sslhaf_cfg_t) : sslhaf_cfg_t :=
  mk_cfg (state c) (buf_protocol c) (buf c) (buf_len c) (buf_to_go c)
    (hello_version c) (protocol_high c) v (slen c) (suites c) (thandshake c)
    (tprotocol c) (tsuites c) (request_counter c) (ipaddress_hash c)
    (compression_len c) (compression_methods c) (extensions_len c)
    (extensions c) (client_hello c) (ec_point c) (curves c) (curve_len c).
Definition set_slen (v : Z) (c : sslhaf_cfg_t) : sslhaf_cfg_t :=
  mk_cfg (state c) (buf_protocol c) (buf c) (buf_len c) (buf_to_go c)
    (hello_version c) (protocol_high c) (protocol_low c) v (suites c)
    (thandshake c) (tprotocol c) (tsuites c) (request_counter c)
    (ipaddress_hash c) (compression_len c) (compression_methods c)
    (extensions_len c) (extensions c) (client_hello c) (ec_point c)
    (curves c) (curve_len c).
Definition set_suites (v : option Z) (c : sslhaf_cfg_t) : sslhaf_cfg_t :=
  mk_cfg (state c) (buf_protocol c) (buf c) (buf_len c) (buf_to_go c)
    (hello_version c) (protocol_high c) (protocol_low c) (slen c) v
    (thandshake c) (tprotocol c) (tsuites c) (request_counter c)
    (ipaddress_hash c) (compression_len c) (compression_methods c)
    (extensions_len c) (extensions c) (client_hello c) (ec_point c)
    (curves c) (curve_len c).
Definition set_thandshake (v : option string) (c : sslhaf_cfg_t) : sslhaf_cfg_t :=
  mk_cfg (state c) (buf_protocol c) (buf c) (buf_len c) (buf_to_go c)
    (hello_version c) (protocol_high c) (protocol_low c) (slen c) (suites c)
    v (tprotocol c) (tsuites c) (request_counter c) (ipaddress_hash c)
    (compression_len c) (compression_methods c) (extensions_len c)
    (extensions c) (client_hello c) (ec_point c) (curves c) (curve_len c).
Definition set_tprotocol (v : option string) (c : sslhaf_cfg_t) : sslhaf_cfg_t :=
  mk_cfg (state c) (buf_protocol c) (buf c) (buf_len c) (buf_to_go c)
    (hello_version c) (protocol_high c) (protocol_low c) (slen c) (suites c)
    (thandshake c) v (tsuites c) (request_counter c) (ipaddress_hash c)
    (compression_len c) (compression_methods c) (extensions_len c)
    (extensions c) (client_hello c) (ec_point c) (curves c) (curve_len c).
Definition set_tsuites (v : option string) (c : sslhaf_cfg_t) : sslhaf_cfg_t :=
  mk_cfg (state c) (buf_protocol c) (buf c) (buf_len c) (buf_to_go c)
    (hello_version c) (protocol_high c) (protocol_low c) (slen c) (suites c)
    (thandshake c) (tprotocol c) v (request_counter c) (ipaddress_hash c)
    (compression_len c) (compression_methods c) (extensions_len c)
    (extensions c) (client_hello c) (ec_point c) (curves c) (curve_len c).
Definition set_request_counter (v : Z) (c : sslhaf_cfg_t) : sslhaf_cfg_t :=
  mk_cfg (state c) (buf_protocol c) (buf c) (buf_len c) (buf_to_go c)
    (hello_version c) (protocol_high c) (protocol_low c) (slen c) (suites c)
    (thandshake c) (tprotocol c) (tsuites c) v (ipaddress_hash c)
    (compression_len c) (compression_methods c) (extensions_len c)
    (extensions c) (client_hello c) (ec_point c) (curves c) (curve_len c).
Definition set_ipaddress_hash (v : option string) (c : sslhaf_cfg_t) : sslhaf_cfg_t :=
  mk_cfg (state c) (buf_protocol c) (buf c) (buf_len c) (buf_to_go c)
    (hello_version c) (protocol_high c) (protocol_low c) (slen c) (suites c)
    (thandshake c) (tprotocol c) (tsuites c) (request_counter c) v
    (compression_len c) (compression_methods c) (extensions_len c)
    (extensions c) (client_hello c) (ec_point c) (curves c) (curve_len c).
Definition set_compression_len (v : Z) (c : sslhaf_cfg_t) : sslhaf_cfg_t :=
  mk_cfg (state c) (buf_protocol c) (buf c) (buf_len c) (buf_to_go c)
    (hello_version c) (protocol_high c) (protocol_low c) (slen c) (suites c)
    (thandshake c) (tprotocol c) (tsuites c) (request_counter c)
    (ipaddress_hash c) v (compression_methods c) (extensions_len c)
    (extensions c) (client_hello c) (ec_point c) (curves c) (curve_len c).
Definition set_compression_methods (v : option string) (c : sslhaf_cfg_t) : sslhaf_cfg_t :=
  mk_cfg (state c) (buf_protocol c) (buf c) (buf_len c) (buf_to_go c)
    (hello_version c) (protocol_high c) (protocol_low c) (slen c) (suites c)
    (thandshake c) (tprotocol c) (tsuites c) (request_counter c)
    (ipaddress_hash c) (compression_len c) v (extensions_len c)
    (extensions c) (client_hello c) (ec_point c) (curves c) (curve_len c).
Definition set_extensions_len (v : Z) (c : sslhaf_cfg_t) : sslhaf_cfg_t :=
  mk_cfg (state c) (buf_protocol c) (buf c) (buf_len c) (buf_to_go c)
    (hello_version c) (protocol_high c) (protocol_low c) (slen c) (suites c)
    (thandshake c) (tprotocol c) (tsuites c) (request_counter c)
    (ipaddress_hash c) (compression_len c) (compression_methods c) v
    (extensions c) (client_hello c) (ec_point c) (curves c) (curve_len c).
Definition set_extensions (v : option string) (c : sslhaf_cfg_t) : sslhaf_cfg_t :=
  mk_cfg (state c) (buf_protocol c) (buf c) (buf_len c) (buf_to_go c)
    (hello_version c) (protocol_high c) (protocol_low c) (slen c) (suites c)
    (thandshake c) (tprotocol c) (tsuites c) (request_counter c)
    (ipaddress_hash c) (compression_len c) (compression_methods c)
    (extensions_len c) v (client_hello c) (ec_point c) (curves c)
    (curve_len c).
Definition set_client_hello (v : option string) (c : sslhaf_cfg_t) : sslhaf_cfg_t :=
  mk_cfg (state c) (buf_protocol c) (buf c) (buf_len c) (buf_to_go c)
    (hello_version c) (protocol_high c) (protocol_low c) (slen c) (suites c)
    (thandshake c) (tprotocol c) (tsuites c) (request_counter c)
    (ipaddress_hash c) (compression_len c) (compression_methods c)
    (extensions_len c) (extensions c) v (ec_point c) (curves c) (curve_len c).
Definition set_ec_point (v : option string) (c : sslhaf_cfg_t) : sslhaf_cfg_t :=
  mk_cfg (state c) (buf_protocol c) (buf c) (buf_len c) (buf_to_go c)
    (hello_version c) (protocol_high c) (protocol_low c) (slen c) (suites c)
    (thandshake c) (tprotocol c) (tsuites c) (request_counter c)
    (ipaddress_hash c) (compression_len c) (compression_methods c)
    (extensions_len c) (extensions c) (client_hello c) v (curves c)
    (curve_len c).
Definition set_curves (v : option string) (c : sslhaf_cfg_t) : sslhaf_cfg_t :=
  mk_cfg (state c) (buf_protocol c) (buf c) (buf_len c) (buf_to_go c)
    (hello_version c) (protocol_high c) (protocol_low c) (slen c) (suites c)
    (thandshake c) (tprotocol c) (tsuites c) (request_counter c)
    (ipaddress_hash c) (compression_len c) (compression_methods c)
    (extensions_len c) (extensions c) (client_hello c) (ec_point c) v
    (curve_len c).
Definition set_curve_len (v : Z) (c : sslhaf_cfg_t) : sslhaf_cfg_t :=
  mk_cfg (state c) (buf_protocol c) (buf c) (buf_len c) (buf_to_go c)
    (hello_version c) (protocol_high c) (protocol_low c) (slen c) (suites c)
    (thandshake c) (tprotocol c) (tsuites c) (request_counter c)
    (ipaddress_hash c) (compression_len c) (compression_methods c)
    (extensions_len c) (extensions c) (client_hello c) (ec_point c)
    (curves c) v.

(** The structure as [apr_pcalloc] returns it in [sslhaf_pre_conn]: all
    zero, hence [STATE_START] and every pointer [NULL]. *)
Definition cfg_init : sslhaf_cfg_t :=
  mk_cfg STATE_START 0 None 0 0 0 0 0 0 None None None None 0 None 0 None 0
    None None None None 0.

(** ** Text helpers *)

Definition c2x_table : string := "0123456789abcdef".

Definition hex_digit (n : Z) : ascii :=
  match String.get (Z.to_nat n) c2x_table with
  | Some c => c
  | None => "0"%char
  end.

(** [c2x(what, where)]: the two characters written at [where]. *)
Definition c2x (what : Z) : string :=
  let what := Z.land what 255 in
  String (hex_digit (Z.shiftr what 4))
    (String (hex_digit (Z.land what 15)) EmptyString).

(** [apr_psprintf(pool, "%d", n)] (and ["%i"]). *)
Definition fmt_d (n : Z) : string := NilZero.string_of_int (Z.to_int n).

(** [*(buf + i)] for a block holding exactly the bytes [bs]. *)
Definition read (bs : list byte) (i : Z) : result Z :=
  if i <? 0 then Fault OutOfBoundsRead
  else match nth_error bs (Z.to_nat i) with
       | Some b => Ok (u8 b)
       | None => Fault OutOfBoundsRead
       end.

(** [cfg->buf[i]]. *)
Definition read_buf (cfg : sslhaf_cfg_t) (i : Z) : result Z :=
  match buf cfg with
  | None => Fault NullDereference
  | Some bs => read bs i
  end.

(** The byte-wise hex loop [while (n--)]: the hex dump of [n] bytes
    starting at [cfg->buf + p], appended to [q]. *)
Fixpoint hex_copy (n : nat) (cfg : sslhaf_cfg_t) (p : Z) (q : string)
  : result string :=
  match n with
  | O => Ok q
  | S n' =>
      b <- read_buf cfg p ;;
      hex_copy n' cfg (p + 1) (q ++ c2x b)%string
  end.

(** The separator test of the token loops: a comma is written unless [q]
    still points at the start of the output, that is, unless nothing has
    been written yet. *)
Definition comma (q : string) : string :=
  match q with
  | EmptyString => q
  | _ => (q ++ ",")%string
  end.

(** ** [decode_packet_v2] *)

(** The loop [while (cslen--)] over 3-byte suites; [p] is the offset of
    [buf] from [cfg->buf], [q] the text written so far. *)
Fixpoint v2_suites_loop (cslen : nat) (cfg : sslhaf_cfg_t) (p : Z)
    (q : string) : result string :=
  match cslen with
  | O => Ok q
  | S cslen' =>
      let q := comma q in
      b0 <- read_buf cfg p ;;
      q <- (if negb (b0 =? 0) then
              b1 <- read_buf cfg (p + 1) ;;
              Ok (q ++ c2x b0 ++ c2x b1)%string
            else
              b1 <- read_buf cfg (p + 1) ;;
              if negb (b1 =? 0) then Ok (q ++ c2x b1)%string else Ok q) ;;
      b2 <- read_buf cfg (p + 2) ;;
      v2_suites_loop cslen' cfg (p + 3) (q ++ c2x b2)%string
  end.

Definition decode_packet_v2 (cfg : sslhaf_cfg_t) : result (Z * sslhaf_cfg_t) :=
  (* First make a copy of the entire message and convert it to hex. *)
  let q := (c2x 128 ++ c2x (buf_len cfg + 3) ++ c2x 1)%string in
  let q :=
    if (protocol_high cfg =? 2) && (protocol_low cfg =? 0)
    then (q ++ c2x (protocol_low cfg) ++ c2x (protocol_high cfg))%string
    else (q ++ c2x (protocol_high cfg) ++ c2x (protocol_low cfg))%string in
  q <- hex_copy (Z.to_nat (buf_len cfg)) cfg 0 q ;;
  let cfg := set_client_hello (Some q) cfg in
  (* Now parse the message. *)
  let len := buf_len cfg in
  if len <? 6 then Ok (-1, cfg) else
  b0 <- read_buf cfg 0 ;;
  b1 <- read_buf cfg 1 ;;
  let cslen := b0 * 256 + b1 in
  let len := len - 6 in
  if len <? cslen then Ok (-2, cfg) else
  let cslen := cslen / 3 in
  let cfg := set_slen cslen cfg in
  let cfg := set_suites (Some 6) cfg in
  let cfg := set_thandshake (Some (fmt_d (hello_version cfg))) cfg in
  let cfg :=
    set_tprotocol
      (Some (fmt_d (protocol_high cfg) ++ "." ++ fmt_d (protocol_low cfg))%string)
      cfg in
  q <- v2_suites_loop (Z.to_nat cslen) cfg 6 EmptyString ;;
  let cfg := set_tsuites (Some q) cfg in
  Ok (1, cfg).

(** ** [decode_packet_v3_handshake] *)

(** Cipher suites, 2 bytes each: [while (cslen--)].  Returns the advanced
    [p] and the text. *)
Fixpoint v3_suites_loop (cslen : nat) (cfg : sslhaf_cfg_t) (p : Z)
    (q : string) : result (Z * string) :=
  match cslen with
  | O => Ok (p, q)
  | S cslen' =>
      let q := comma q in
      b0 <- read_buf cfg p ;;
      let q := if negb (b0 =? 0) then (q ++ c2x b0)%string else q in
      b1 <- read_buf cfg (p + 1) ;;
      v3_suites_loop cslen' cfg (p + 2) (q ++ c2x b1)%string
  end.

(** Compression methods, 1 byte each: [while (clen--)]. *)
Fixpoint v3_compression_loop (clen : nat) (cfg : sslhaf_cfg_t) (p : Z)
    (q : string) : result (Z * string) :=
  match clen with
  | O => Ok (p, q)
  | S clen' =>
      let q := comma q in
      b <- read_buf cfg p ;;
      v3_compression_loop clen' cfg (p + 1) (q ++ c2x b)%string
  end.

(** Supported groups: [while (ec_len > 0)], two bytes and two decrements per
    round.  [fuel] bounds the rounds; [Z.to_nat ec_len] is always enough. *)
Fixpoint v3_curves_loop (fuel : nat) (cfg : sslhaf_cfg_t) (p ec_len : Z)
    (e : string) {struct fuel} : result (Z * string) :=
  if ec_len >? 0 then
    match fuel with
    | O => Fault LoopFuel
    | S fuel' =>
        let e := comma e in
        b <- read_buf cfg p ;;
        let e := (e ++ c2x b)%string in
        b' <- read_buf cfg (p + 1) ;;
        v3_curves_loop fuel' cfg (p + 2) (ec_len - 2) (e ++ c2x b')%string
    end
  else Ok (p, e).

(** EC point formats: [while (curve_len_1 > 0)], one byte per round. *)
Fixpoint v3_ec_point_loop (curve_len_1 : nat) (cfg : sslhaf_cfg_t) (p : Z)
    (c : string) : result (Z * string) :=
  match curve_len_1 with
  | O => Ok (p, c)
  | S n =>
      let c := comma c in
      b <- read_buf cfg p ;;
      v3_ec_point_loop n cfg (p + 1) (c ++ c2x b)%string
  end.

Definition ec_point_ext_id : Z := 11.
Definition group_id : Z := 10.

(** The extension loop [while (elen > 0)].  Every round takes at least 4
    from [elen], so [Z.to_nat elen] rounds of [fuel] are always enough. *)
Fixpoint v3_extensions_loop (fuel : nat) (cfg : sslhaf_cfg_t) (p elen : Z)
    (q : string) {struct fuel} : result (sslhaf_cfg_t * string) :=
  if elen >? 0 then
    match fuel with
    | O => Fault LoopFuel
    | S fuel' =>
        let cfg := set_extensions_len (extensions_len cfg + 1) cfg in
        let q := comma q in
        (* extension type, byte 1 *)
        b1 <- read_buf cfg p ;;
        let q := (q ++ c2x b1)%string in
        let p := p + 1 in
        let elen := elen - 1 in
        (* extension type, byte 2 *)
        b2 <- read_buf cfg p ;;
        let q := (q ++ c2x b2)%string in
        let p := p + 1 in
        let elen := elen - 1 in
        let ext_type := b1 * 256 + b2 in
        (* extension length *)
        l1 <- read_buf cfg p ;;
        l2 <- read_buf cfg (p + 1) ;;
        let ext1len := l1 * 256 + l2 in
        let p := p + 2 in
        let elen := elen - 2 in
        if ext_type =? group_id then
          g1 <- read_buf cfg p ;;
          g2 <- read_buf cfg (p + 1) ;;
          let ec_len := g1 * 256 + g2 in
          let p := p + 2 in
          ' (p, e) <- v3_curves_loop (Z.to_nat ec_len) cfg p ec_len EmptyString ;;
          let cfg := set_curves (Some e) cfg in
          v3_extensions_loop fuel' cfg p (elen - ext1len) q
        else if ext_type =? ec_point_ext_id then
          curve_len_1 <- read_buf cfg p ;;
          let p := p + 1 in
          let cfg := set_curve_len curve_len_1 cfg in
          ' (p, c) <- v3_ec_point_loop (Z.to_nat curve_len_1) cfg p EmptyString ;;
          let cfg := set_ec_point (Some c) cfg in
          v3_extensions_loop fuel' cfg p (elen - ext1len) q
        else
          v3_extensions_loop fuel' cfg (p + ext1len) (elen - ext1len) q
    end
  else Ok (cfg, q).

(** The part of the function from the comment [// Extensions] on. *)
Definition v3_extensions (cfg : sslhaf_cfg_t) (p mylen : Z)
  : result (Z * sslhaf_cfg_t) :=
  if mylen <? 2 then Ok (-10, cfg) else
  e1 <- read_buf cfg p ;;
  e2 <- read_buf cfg (p + 1) ;;
  let elen := e1 * 256 + e2 in
  let mylen := mylen - 2 in
  let p := p + 2 in
  if mylen <? elen then Ok (-11, cfg) else
  let cfg := set_extensions_len 0 cfg in
  ' (cfg, q) <- v3_extensions_loop (Z.to_nat elen) cfg p elen EmptyString ;;
  let cfg := set_extensions (Some q) cfg in
  Ok (1, cfg).

(** The part of the function from the comment [// Compression] on. *)
Definition v3_compression (cfg : sslhaf_cfg_t) (p mylen : Z)
  : result (Z * sslhaf_cfg_t) :=
  if mylen <? 1 then Ok (-8, cfg) else
  clen <- read_buf cfg p ;;
  let p := p + 1 in
  let mylen := mylen - 1 in
  if mylen <? clen then Ok (-9, cfg) else
  let cfg := set_compression_len clen cfg in
  ' (p, q) <- v3_compression_loop (Z.to_nat clen) cfg p EmptyString ;;
  let cfg := set_compression_methods (Some q) cfg in
  let mylen := mylen - compression_len cfg in
  if mylen =? 0 then
    (* a handshake without any extensions *)
    Ok (1, cfg)
  else v3_extensions cfg p mylen.

Definition decode_packet_v3_handshake (cfg : sslhaf_cfg_t)
  : result (Z * sslhaf_cfg_t) :=
  let len := buf_len cfg in
  if len <? 4 then Ok (-1, cfg) else
  (* We can only process ClientHello messages *)
  b0 <- read_buf cfg 0 ;;
  if negb (b0 =? 1) then Ok (1, cfg) else
  (* Message length *)
  b1 <- read_buf cfg 1 ;;
  b2 <- read_buf cfg 2 ;;
  b3 <- read_buf cfg 3 ;;
  let ml := b1 * 65536 + b2 * 256 + b3 in
  if ml >? len - 4 then Ok (-2, cfg) else
  let mylen := ml in
  (* hex copy of the record, behind a rebuilt record header *)
  let q := (c2x 22 ++ c2x (protocol_high cfg) ++ c2x (protocol_low cfg)
            ++ c2x (Z.shiftr (mylen + 4) 8) ++ c2x (Z.land (mylen + 4) 255))%string in
  q <- hex_copy (Z.to_nat len) cfg 0 q ;;
  let cfg := set_client_hello (Some q) cfg in
  (* parse Client Hello *)
  let p := 4 in
  if mylen <? 34 then Ok (-3, cfg) else
  ph <- read_buf cfg p ;;
  pl <- read_buf cfg (p + 1) ;;
  let cfg := set_protocol_high ph cfg in
  let cfg := set_protocol_low pl cfg in
  let p := p + 2 in
  let p := p + 32 in
  let mylen := mylen - 34 in
  if mylen <? 1 then Ok (-4, cfg) else
  idlen <- read_buf cfg p ;;
  let p := p + 1 in
  let mylen := mylen - 1 in
  if mylen <? idlen then Ok (-5, cfg) else
  let p := p + idlen in
  let mylen := mylen - idlen in
  if mylen <? 2 then Ok (-6, cfg) else
  c1 <- read_buf cfg p ;;
  c2 <- read_buf cfg (p + 1) ;;
  let cslen := c1 * 256 + c2 in
  let cslen := cslen / 2 in
  let p := p + 2 in
  let mylen := mylen - 2 in
  if mylen <? cslen * 2 then Ok (-7, cfg) else
  let cfg := set_slen cslen cfg in
  let cfg := set_suites (Some p) cfg in
  let cfg := set_thandshake (Some (fmt_d (hello_version cfg))) cfg in
  let cfg :=
    set_tprotocol
      (Some (fmt_d (protocol_high cfg) ++ "." ++ fmt_d (protocol_low cfg))%string)
      cfg in
  ' (p, q) <- v3_suites_loop (Z.to_nat cslen) cfg p EmptyString ;;
  let cfg := set_tsuites (Some q) cfg in
  let mylen := mylen - slen cfg * 2 in
  v3_compression cfg p mylen.

(** [decode_packet_v3] *)
Definition decode_packet_v3 (cfg : sslhaf_cfg_t) : result (Z * sslhaf_cfg_t) :=
  if buf_protocol cfg =? PROTOCOL_HANDSHAKE
  then decode_packet_v3_handshake cfg
  else Ok (1, cfg).

(** ** [decode_bucket] *)

(** What one round of the [while (inputlen > 0)] loop ends in: a [return],
    or the end of the loop body with the advanced [inputbuf] (whose length
    is [inputlen]). *)
Inductive flow : Type :=
| Return (rc : Z) (cfg : sslhaf_cfg_t)
| Continue (cfg : sslhaf_cfg_t) (inputbuf : list byte).

(** The block guarded by [state == STATE_START || state == STATE_READING]:
    the header of a fresh record.  The list patterns stand for the tests
    [inputlen < 4] made after the first byte has been stepped over. *)
Definition record_header (cfg : sslhaf_cfg_t) (inputbuf : list byte) : flow :=
  match inputbuf with
  | [] => Continue cfg inputbuf
  | first :: inputbuf1 =>
      (* Are we expecting a handshake packet? *)
      if conn_state_eqb (state cfg) STATE_START
         && negb (u8 first =? PROTOCOL_HANDSHAKE) && negb (u8 first =? 128)
      then Return (-1) cfg
      else if (u8 first =? PROTOCOL_HANDSHAKE)
              || (u8 first =? PROTOCOL_APPLICATION)
              || (u8 first =? PROTOCOL_CHANGE_CIPHER_SPEC)
      then
        (* Check for SSLv3+ *)
        let cfg := set_buf_protocol (u8 first) cfg in
        match inputbuf1 with
        | v0 :: v1 :: l0 :: l1 :: inputbuf5 =>
            let cfg := set_hello_version 3 cfg in
            let cfg :=
              if protocol_high cfg =? 0
              then set_protocol_low (u8 v1) (set_protocol_high (u8 v0) cfg)
              else cfg in
            let len := to_size_t (u8 l0 * 256 + u8 l1) in
            if (len <=? 0) || (len >? BUF_LIMIT) then Return (-1) cfg else
            let cfg := set_buf (Some []) cfg in
            let cfg := set_state STATE_BUFFER cfg in
            let cfg := set_buf_len 0 cfg in
            let cfg := set_buf_to_go len cfg in
            Continue cfg inputbuf5
        | _ => Return (-1) cfg
        end
      else if u8 first =? 128 then
        (* Is it a SSLv2 ClientHello? *)
        match inputbuf1 with
        | l :: mt :: v0 :: v1 :: inputbuf5 =>
            if negb (u8 mt =? 1) then Return (-1) cfg else
            let cfg := set_hello_version 2 cfg in
            let cfg :=
              if (u8 v0 =? 0) && (u8 v1 =? 2)
              then set_protocol_low (u8 v0) (set_protocol_high (u8 v1) cfg)
              else set_protocol_low (u8 v1) (set_protocol_high (u8 v0) cfg) in
            (* We've already consumed 3 bytes from the packet *)
            let len := to_size_t (u8 l - 3) in
            if (len <=? 0) || (len >? BUF_LIMIT) then Return (-1) cfg else
            let cfg := set_buf (Some []) cfg in
            let cfg := set_state STATE_BUFFER cfg in
            let cfg := set_buf_len 0 cfg in
            let cfg := set_buf_to_go len cfg in
            Continue cfg inputbuf5
        | _ => Return (-1) cfg
        end
      else
        (* Unknown protocol *)
        Return (-1) cfg
  end.

(** The block guarded by [state == STATE_BUFFER]. *)
Definition buffer_data (cfg : sslhaf_cfg_t) (inputbuf : list byte)
  : result flow :=
  let inputlen := Z.of_nat (List.length inputbuf) in
  match buf cfg with
  | None => Fault NullDereference
  | Some bs =>
      if buf_to_go cfg <=? inputlen then
        (* We have enough data to complete this packet *)
        let n := Z.to_nat (buf_to_go cfg) in
        let cfg := set_buf (Some (bs ++ firstn n inputbuf)) cfg in
        let cfg := set_buf_len (to_size_t (buf_len cfg + buf_to_go cfg)) cfg in
        let cfg := set_buf_to_go 0 cfg in
        ' (rc, cfg) <- (if hello_version cfg =? 3
                        then decode_packet_v3 cfg
                        else decode_packet_v2 cfg) ;;
        (* Free the packet buffer, stop following this connection *)
        let cfg := set_buf None cfg in
        let cfg := set_state STATE_GOAWAY cfg in
        if rc <? 0 then Ok (Return (-1) cfg) else Ok (Return 1 cfg)
      else
        (* There's not enough data; copy what we can *)
        let cfg := set_buf (Some (bs ++ inputbuf)) cfg in
        let cfg := set_buf_len (to_size_t (buf_len cfg + inputlen)) cfg in
        let cfg := set_buf_to_go (to_size_t (buf_to_go cfg - inputlen)) cfg in
        Ok (Continue cfg [])
  end.

(** One round of the loop body. *)
Definition decode_bucket_round (cfg : sslhaf_cfg_t) (inputbuf : list byte)
  : result flow :=
  if conn_state_eqb (state cfg) STATE_GOAWAY then Ok (Return 1 cfg) else
  let fl :=
    if conn_state_eqb (state cfg) STATE_START
       || conn_state_eqb (state cfg) STATE_READING
    then record_header cfg inputbuf
    else Continue cfg inputbuf in
  match fl with
  | Return rc cfg => Ok (Return rc cfg)
  | Continue cfg inputbuf =>
      if conn_state_eqb (state cfg) STATE_BUFFER
      then buffer_data cfg inputbuf
      else Ok (Continue cfg inputbuf)
  end.

(** [while (inputlen > 0) { ... } return 1;] *)
Fixpoint decode_bucket_loop (fuel : nat) (cfg : sslhaf_cfg_t)
    (inputbuf : list byte) {struct fuel} : result (Z * sslhaf_cfg_t) :=
  match inputbuf with
  | [] => Ok (1, cfg)
  | _ :: _ =>
      match fuel with
      | O => Fault LoopFuel
      | S fuel' =>
          fl <- decode_bucket_round cfg inputbuf ;;
          match fl with
          | Return rc cfg => Ok (rc, cfg)
          | Continue cfg inputbuf => decode_bucket_loop fuel' cfg inputbuf
          end
      end
  end.

Definition decode_bucket (cfg : sslhaf_cfg_t) (inputbuf : list byte)
  : result (Z * sslhaf_cfg_t) :=
  decode_bucket_loop (List.length inputbuf) cfg inputbuf.

(** ** [sslhaf_in_filter] *)

(** A bucket of the brigade: metadata, data that [apr_bucket_read] hands
    over, or a bucket whose read fails. *)
Inductive bucket : Type :=
| MetadataBucket
| DataBucket (data : list byte)
| UnreadableBucket.

(** What [ap_get_brigade] gives: an error status or a brigade. *)
Inductive brigade : Type :=
| BrigadeError
| Brigade (bb : list bucket).

(** The loop through the buckets. *)
Fixpoint filter_buckets (cfg : sslhaf_cfg_t) (bb : list bucket)
  : result sslhaf_cfg_t :=
  match bb with
  | [] => Ok cfg
  | MetadataBucket :: bb' => filter_buckets cfg bb'
  | UnreadableBucket :: _ => Ok cfg
  | DataBucket data :: bb' =>
      ' (rc, cfg) <- decode_bucket cfg data ;;
      if rc <=? 0 then Ok (set_state STATE_GOAWAY cfg)
      else if conn_state_eqb (state cfg) STATE_GOAWAY then Ok cfg
      else filter_buckets cfg bb'
  end.

Definition sslhaf_in_filter (cfg : sslhaf_cfg_t) (b : brigade)
  : result sslhaf_cfg_t :=
  (* Sanity check first *)
  if conn_state_eqb (state cfg) STATE_GOAWAY then Ok cfg else
  match b with
  | BrigadeError => Ok (set_state STATE_GOAWAY cfg)
  | Brigade bb => filter_buckets cfg bb
  end.

(** A connection: the filter called once per brigade, until a fault. *)
Fixpoint run_filter (cfg : sslhaf_cfg_t) (bs : list brigade)
  : result sslhaf_cfg_t :=
  match bs with
  | [] => Ok cfg
  | b :: bs' => cfg <- sslhaf_in_filter cfg b ;; run_filter cfg bs'
  end.

(** The chunks of a byte stream, each delivered as the only bucket of its
    brigade. *)
Definition feed (cfg : sslhaf_cfg_t) (chunks : list (list byte))
  : result sslhaf_cfg_t :=
  run_filter cfg (map (fun c => Brigade [DataBucket c]) chunks).

(** The states the connection is seen in after each brigade, up to a
    fault. *)
Fixpoint phases (cfg : sslhaf_cfg_t) (bs : list brigade) : list conn_state :=
  match bs with
  | [] => []
  | b :: bs' =>
      match sslhaf_in_filter cfg b with
      | Ok cfg' => state cfg' :: phases cfg' bs'
      | Fault _ => []
      end
  end.

(** ** [str_to_dec] and [sslhaf_post_request] *)

Definition char_code (c : ascii) : Z := Z.of_N (N_of_ascii c).

(** The [for] loop of [str_to_dec].  [pow(16, length)] is exact in a double
    for every [length] a string can give here, and so is the sum as long as
    it fits an [int]; beyond that the conversion back to [int] is
    undefined. *)
Fixpoint str_to_dec_loop (s : string) (cur res length : Z) : result Z :=
  match s with
  | EmptyString => Ok res
  | String ch s' =>
      let c := char_code ch in
      let cur :=
        if (48 <=? c) && (c <=? 57) then c - 48
        else if (97 <=? c) && (c <=? 102) then c - 87
        else cur in
      let res := res + cur * 16 ^ length in
      if res >? INT_MAX then Fault IntegerOverflow
      else str_to_dec_loop s' cur res (length - 1)
  end.

(** [str_to_dec]: the text put by [sprintf(str, "%d-", res)] into the 10
    bytes of [malloc(10)]. *)
Definition str_to_dec (s : string) : result string :=
  res <- str_to_dec_loop s 0 0 (Z.of_nat (String.length s) - 1) ;;
  let str := (fmt_d res ++ "-")%string in
  if 10 <? Z.of_nat (String.length str) + 1 then Fault OutOfBoundsWrite
  else Ok str.

Definition grease_table : list string :=
  ["0a0a"; "1a1a"; "2a2a"; "3a3a"; "4a4a"; "5a5a"; "6a6a"; "7a7a";
   "8a8a"; "9a9a"; "aaaa"; "baba"; "caca"; "dada"; "eaea"; "fafa"]%string.

(** The inner [for] loop with [strcmp]: [to_convert == 0]. *)
Definition in_grease_table (token : string) : bool :=
  existsb (String.eqb token) grease_table.

(** The tokens that [strtok(s, ",")] followed by [strtok(NULL, ",")] until
    [NULL] hands out: the maximal non-empty comma-free pieces of [s], in
    order.  [tok] is the piece being read. *)
Fixpoint strtok_from (s : string) (tok : string) : list string :=
  match s with
  | EmptyString =>
      match tok with
      | EmptyString => []
      | _ => [tok]
      end
  | String c s' =>
      if Ascii.eqb c ","%char then
        match tok with
        | EmptyString => strtok_from s' EmptyString
        | _ => tok :: strtok_from s' EmptyString
        end
      else strtok_from s' (tok ++ String c EmptyString)%string
  end.

Definition strtok_all (s : string) : list string := strtok_from s EmptyString.

(** [strcpy(dst, src)] into a [char dst[100]]. *)
Definition strcpy_100 (src : option string) : result string :=
  match src with
  | None => Fault NullDereference
  | Some s =>
      if 100 <? Z.of_nat (String.length s) + 1 then Fault OutOfBoundsWrite
      else Ok s
  end.

(** [strcat(dst, src)] where [dst] is a block of [calloc(100, 1)]. *)
Definition strcat_100 (dst src : string) : result string :=
  let r := (dst ++ src)%string in
  if 100 <? Z.of_nat (String.length r) + 1 then Fault OutOfBoundsWrite
  else Ok r.

(** All but the last character. *)
Fixpoint drop_last (s : string) : string :=
  match s with
  | EmptyString => EmptyString
  | String _ EmptyString => EmptyString
  | String c s' => String c (drop_last s')
  end.

(** [s[strlen(s)-1] = 0]: on the empty string the index is [-1]. *)
Definition chop_last (s : string) : result string :=
  match s with
  | EmptyString => Fault OutOfBoundsWrite
  | _ => Ok (drop_last s)
  end.

(** The [while (token != NULL)] loop: every token outside the GREASE table
    is converted and appended to [out]. *)
Fixpoint grease_loop (tokens : list string) (out : string) : result string :=
  match tokens with
  | [] => Ok out
  | token :: tokens' =>
      out <- (if in_grease_table token then Ok out
              else d <- str_to_dec token ;; strcat_100 out d) ;;
      grease_loop tokens' out
  end.

(** The block repeated for [cfg->tsuites], [cfg->extensions] and
    [cfg->curves]. *)
Definition normalize (src : option string) : result string :=
  cpy <- strcpy_100 src ;;
  out <- grease_loop (strtok_all cpy) EmptyString ;;
  chop_last out.

(** The block for [cfg->ec_point], with its [strlen(ec_cpy) > 2] test. *)
Definition normalize_ec_point (src : option string) : result string :=
  ec_cpy <- strcpy_100 src ;;
  ec_pt <- (if 2 <? Z.of_nat (String.length ec_cpy)
            then grease_loop (strtok_all ec_cpy) EmptyString
            else d <- str_to_dec ec_cpy ;; strcat_100 EmptyString d) ;;
  chop_last ec_pt.

(** [r->subprocess_env] as the list of [apr_table_setn] calls, in order; a
    value may be a [NULL] pointer. *)
Definition env : Type := list (string * option string).

(** [apr_table_setn(r->subprocess_env, key, val)]. *)
Definition apr_table_setn (e : env) (key : string) (val : option string) : env :=
  List.app e [(key, val)].

Definition sslhaf_post_request (cfg : sslhaf_cfg_t)
  : result (sslhaf_cfg_t * env) :=
  match tsuites cfg with
  | None => Ok (cfg, [])
  | Some _ =>
      (* Release the packet buffer if we're still holding it *)
      let cfg := set_buf None cfg in
      let e := apr_table_setn [] "SSLHAF_HANDSHAKE" (thandshake cfg) in
      let e := apr_table_setn e "SSLHAF_PROTOCOL" (tprotocol cfg) in
      suites <- normalize (tsuites cfg) ;;
      let e := apr_table_setn e "SSLHAF_SUITES" (Some suites) in
      let e := apr_table_setn e "SSLHAF_COMPRESSION" (compression_methods cfg) in
      let e := apr_table_setn e "SSLHAF_EXTENSIONS_LEN"
                 (Some (fmt_d (extensions_len cfg))) in
      ext <- normalize (extensions cfg) ;;
      let e := apr_table_setn e "SSLHAF_EXTENSIONS" (Some ext) in
      ec_pt <- normalize_ec_point (ec_point cfg) ;;
      let e := apr_table_setn e "EC_POINT" (Some ec_pt) in
      curves <- normalize (curves cfg) ;;
      let e := apr_table_setn e "CURVES" (Some curves) in
      (* Keep track of how many requests there were *)
      let cfg := set_request_counter (request_counter cfg + 1) cfg in
      let e :=
        if request_counter cfg =? 1
        then apr_table_setn e "SSLHAF_LOG" (Some "1"%string)
        else e in
      let e :=
        match client_hello cfg with
        | Some raw => apr_table_setn e "SSLHAF_RAW" (Some raw)
        | None => apr_table_setn e "SSLHAF_RAW" (Some "-"%string)
        end in
      Ok (cfg, e)
  end.

(** ** Notions used to state the properties *)

(** The phase changes the specification allows, staying put included:
    start, then buffering, then go-away, or start to go-away directly.
    [STATE_READING] is no phase of the specification. *)
Definition phase_step (a b : conn_state) : bool :=
  match a, b with
  | STATE_START, STATE_START
  | STATE_START, STATE_BUFFER
  | STATE_START, STATE_GOAWAY
  | STATE_BUFFER, STATE_BUFFER
  | STATE_BUFFER, STATE_GOAWAY
  | STATE_GOAWAY, STATE_GOAWAY => true
  | _, _ => false
  end.

(** A sequence of states observed from [s] on, every change allowed. *)
Fixpoint legal_trace (s : conn_state) (tr : list conn_state) : bool :=
  match tr with
  | [] => true
  | s' :: tr' => phase_step s s' && legal_trace s' tr'
  end.

(** The structure a round ends with. *)
Definition flow_cfg (fl : flow) : sslhaf_cfg_t :=
  match fl with
  | Return _ cfg => cfg
  | Continue cfg _ => cfg
  end.

(** One chunk delivered to the filter. *)
Definition push (cfg : sslhaf_cfg_t) (chunk : list byte) : result sslhaf_cfg_t :=
  sslhaf_in_filter cfg (Brigade [DataBucket chunk]).

(** A connection in the middle of a record: a buffer is held and the byte
    counts are sizes. *)
Definition buffering (cfg : sslhaf_cfg_t) : Prop :=
  state cfg = STATE_BUFFER
  /\ buf cfg <> None
  /\ 0 <= buf_len cfg
  /\ 0 <= buf_to_go cfg
  /\ buf_len cfg + buf_to_go cfg < SIZE_T_MOD.

(** What a chunk does to a connection that is buffering. *)
Definition absorb (cfg : sslhaf_cfg_t) (chunk : list byte)
  : result sslhaf_cfg_t :=
  fl <- buffer_data cfg chunk ;; Ok (flow_cfg fl).

(** The two branches of the buffering block, named: the structure once the
    record is complete, the decoding of it, and the structure after a
    partial copy.  [bs] is the content of [cfg->buf]. *)
Definition completed (cfg : sslhaf_cfg_t) (bs inputbuf : list byte)
  : sslhaf_cfg_t :=
  set_buf_to_go 0
    (set_buf_len (to_size_t (buf_len cfg + buf_to_go cfg))
       (set_buf (Some (bs ++ firstn (Z.to_nat (buf_to_go cfg)) inputbuf)) cfg)).

Definition finish (cfg : sslhaf_cfg_t) : result flow :=
  ' (rc, cfg) <- (if hello_version cfg =? 3
                  then decode_packet_v3 cfg
                  else decode_packet_v2 cfg) ;;
  let cfg := set_state STATE_GOAWAY (set_buf None cfg) in
  if rc <? 0 then Ok (Return (-1) cfg) else Ok (Return 1 cfg).

Definition partial (cfg : sslhaf_cfg_t) (bs inputbuf : list byte)
  : sslhaf_cfg_t :=
  set_buf_to_go (to_size_t (buf_to_go cfg - Z.of_nat (List.length inputbuf)))
    (set_buf_len (to_size_t (buf_len cfg + Z.of_nat (List.length inputbuf)))
       (set_buf (Some (bs ++ inputbuf)) cfg)).

(** *** The SSLv2 suite text, in the specification's words

    A byte is two lowercase hex digits.  A triplet [(b0, b1, b2)] is the 6
    hex characters of its bytes if [b0 != 0], else the 4 of [b1] and [b2]
    if [b1 != 0], else the 2 of [b2].  The decoder takes
    [cipherSpecLength / 3] triplets, in order, and joins their tokens with
    commas. *)
Definition spec_hex (b : byte) : string :=
  String (hex_digit (u8 b / 16)) (String (hex_digit (u8 b mod 16)) EmptyString).

Definition spec_v2_token (t : byte * byte * byte) : string :=
  let '(b0, b1, b2) := t in
  if negb (u8 b0 =? 0) then (spec_hex b0 ++ spec_hex b1 ++ spec_hex b2)%string
  else if negb (u8 b1 =? 0) then (spec_hex b1 ++ spec_hex b2)%string
  else spec_hex b2.

Fixpoint spec_triplets (count : nat) (bs : list byte)
  : list (byte * byte * byte) :=
  match count, bs with
  | S count', b0 :: b1 :: b2 :: bs' => (b0, b1, b2) :: spec_triplets count' bs'
  | _, _ => []
  end.

Definition spec_v2_suites (cipher_spec_length : Z) (region : list byte)
  : list string :=
  map spec_v2_token (spec_triplets (Z.to_nat (cipher_spec_length / 3)) region).

(** The Google-bot-like SSLv2 hello of the module's documentation: record
    header [80 25], ClientHello, version 3.1, four cipher specs, no session
    id, a 16-byte challenge. *)
Definition google_hello : list byte :=
  bytes_of ([128; 37; 1; 3; 1; 0; 12; 0; 0; 0; 16;
             0; 0; 4; 1; 0; 128; 0; 0; 5; 0; 0; 10]
            ++ repeat 170 16%nat).

(** The text the token loops build: each token behind a comma, except the
    first. *)
Definition join_onto (q : string) (tokens : list string) : string :=
  fold_left (fun q t => (comma q ++ t)%string) tokens q.

(** Two structures announce the same protocol version. *)
Definition same_version (c c' : sslhaf_cfg_t) : Prop :=
  protocol_high c' = protocol_high c
  /\ protocol_low c' = protocol_low c
  /\ tprotocol c' = tprotocol c.

(** *** The normalised list, in the specification's words

    A token is a non-empty run of lowercase hex digits and stands for the
    number it writes in base 16.  The normal form of a list of tokens keeps
    the tokens outside the GREASE set, in order, writes each in decimal and
    joins them with hyphens. *)
Definition is_hex_char (c : ascii) : bool :=
  ((48 <=? char_code c) && (char_code c <=? 57))
  || ((97 <=? char_code c) && (char_code c <=? 102)).

Fixpoint all_hex (s : string) : bool :=
  match s with
  | EmptyString => true
  | String c s' => is_hex_char c && all_hex s'
  end.

Definition is_hex_token (t : string) : bool :=
  negb (String.eqb t EmptyString) && all_hex t.

Definition spec_digit (c : ascii) : Z :=
  if char_code c <=? 57 then char_code c - 48 else char_code c - 87.

Fixpoint spec_hex_value_from (acc : Z) (s : string) : Z :=
  match s with
  | EmptyString => acc
  | String c s' => spec_hex_value_from (acc * 16 + spec_digit c) s'
  end.

Definition spec_hex_value (t : string) : Z := spec_hex_value_from 0 t.

Definition spec_grease : list string :=
  map (fun x => String x (String "a" (String x (String "a" EmptyString))))
    ["0"; "1"; "2"; "3"; "4"; "5"; "6"; "7"; "8"; "9";
     "a"; "b"; "c"; "d"; "e"; "f"]%char.

Definition spec_normalize (tokens : list string) : string :=
  String.concat "-"
    (map (fun t => fmt_d (spec_hex_value t))
       (filter (fun t => negb (existsb (String.eqb t) spec_grease)) tokens)).

(** Strings put one behind the other. *)
Definition string_cat (l : list string) : string :=
  fold_right String.append EmptyString l.

(** The tokens [sslhaf_post_request] converts, each in decimal with the
    hyphen [str_to_dec] puts behind it. *)
Definition converted (tokens : list string) : list string :=
  map (fun t => (fmt_d (spec_hex_value t) ++ "-")%string)
    (filter (fun t => negb (in_grease_table t)) tokens).

(** A token [str_to_dec] converts without leaving its 10 bytes. *)
Definition convertible (t : string) : Prop :=
  is_hex_token t = true
  /\ spec_hex_value t <= INT_MAX
  /\ (String.length (fmt_d (spec_hex_value t)) <= 8)%nat.

(** ** Sample inputs *)

(** A TLS 1.2 ClientHello: two suites, null compression, the extensions
    supported groups (x25519, secp256r1), EC point formats (uncompressed)
    and session ticket. *)
Definition sample_hello : list Z :=
  [1; 0; 0; 65; 3; 3] ++ repeat 7 32%nat
  ++ [0; 0; 4; 192; 47; 0; 53; 1; 0; 0; 20;
      0; 10; 0; 6; 0; 4; 0; 29; 0; 23;
      0; 11; 0; 2; 1; 0;
      0; 35; 0; 0].

(** The same message inside a handshake record that announces TLS 1.0. *)
Definition sample_record : list byte :=
  bytes_of ([22; 3; 1; 0; 69] ++ sample_hello).

(** The record cut into chunks of one byte. *)
Definition sample_record_bytewise : list (list byte) :=
  map (fun b => [b]) sample_record.

(** The fixed part of a TLS 1.2 ClientHello of [ml] bytes: message header,
    version, random, empty session id. *)
Definition hello_prefix (ml : Z) : list Z :=
  [1; 0; 0; ml; 3; 3] ++ repeat 7 32%nat ++ [0].

(** A ClientHello whose only extension, supported groups, carries a list
    length of 4 with no list behind it: the message ends with the length
    field.  All the enclosing lengths are consistent. *)
Definition overlong_groups_hello : list Z :=
  hello_prefix 49 ++ [0; 2; 0; 53; 1; 0; 0; 6; 0; 10; 0; 2; 0; 4].

(** A ClientHello whose only extension (session ticket) declares 256 bytes
    of data inside an extensions block of 4 bytes. *)
Definition overlong_extension_hello : list Z :=
  hello_prefix 47 ++ [0; 2; 0; 53; 1; 0; 0; 4; 0; 35; 1; 0].

(** A ClientHello whose only extension, EC point formats, carries a list
    length of 5 with no list behind it. *)
Definition overlong_point_formats_hello : list Z :=
  hello_prefix 48 ++ [0; 2; 0; 53; 1; 0; 0; 5; 0; 11; 0; 1; 5].

(** A ClientHello whose extensions block is a single byte: no room for an
    extension header. *)
Definition short_extensions_hello : list Z :=
  hello_prefix 44 ++ [0; 2; 0; 53; 1; 0; 0; 1; 0].

(** A ClientHello without extensions. *)
Definition plain_hello : list Z :=
  hello_prefix 43 ++ [0; 4; 192; 47; 0; 53; 1; 0].

(** A ClientHello with 21 cipher suites [c001] to [c015] and no
    extensions. *)
Definition many_suites_hello : list Z :=
  hello_prefix 81
  ++ [0; 42] ++ flat_map (fun k => [192; k]) (map Z.of_nat (seq 1 21))
  ++ [1; 0].

(** A handshake record (TLS 1.0 at the record layer) around a message. *)
Definition handshake_record (msg : list Z) : list byte :=
  bytes_of ([22; 3; 1; Z.of_nat (List.length msg) / 256;
             Z.of_nat (List.length msg) mod 256] ++ msg).

(** The structure when the record has been buffered in full and
    [decode_packet_v3_handshake] is entered. *)
Definition buffered (msg : list Z) : sslhaf_cfg_t :=
  set_buf (Some (bytes_of msg))
    (set_buf_len (Z.of_nat (List.length msg))
       (set_state STATE_BUFFER
          (set_hello_version 3
             (set_protocol_low 1
                (set_protocol_high 3 (set_buf_protocol 22 cfg_init)))))).

(** ** [bytes2hex] *)

Definition b2hex : string := "0123456789abcdef".

Definition b2hex_at (n : Z) : ascii :=
  match String.get (Z.to_nat n) b2hex with
  | Some c => c
  | None => "0"%char
  end.

(** The loop [for (i = 0; i < len; i++)], [n] rounds from index [i] on. *)
Fixpoint bytes2hex_loop (n : nat) (data : list byte) (i : Z) (hex : string)
  : result string :=
  match n with
  | O => Ok hex
  | S n' =>
      b <- read data i ;;
      bytes2hex_loop n' data (i + 1)
        (hex ++ String (b2hex_at (Z.shiftr b 4))
                  (String (b2hex_at (Z.land b 15)) EmptyString))%string
  end.

(** [bytes2hex(pool, data, len)]; [data] is the object [data] points into,
    from the pointer on.  The size [(len * 2) + 1] is computed in [int];
    [allocated] tells whether [apr_palloc] hands out the block, and [None]
    is the [NULL] returned when it does not. *)
Definition bytes2hex (allocated : bool) (data : list byte) (len : Z)
  : result (option string) :=
  let size := len * 2 + 1 in
  if (size >? INT_MAX) || (size <? - INT_MAX - 1) then Fault IntegerOverflow
  else if negb allocated then Ok None
  else
    hex <- bytes2hex_loop (Z.to_nat len) data 0 EmptyString ;;
    Ok (Some hex).

(** ** More notions used to state properties *)

(** A connection in the middle of a record, seen from outside: the bytes
    held are the bytes counted, something is still missing, the whole stays
    within the limit, and nothing has been decoded. *)
Definition buffer_ok (cfg : sslhaf_cfg_t) : Prop :=
  exists bs,
    buf cfg = Some bs
    /\ buf_len cfg = Z.of_nat (List.length bs)
    /\ 0 < buf_to_go cfg
    /\ buf_len cfg + buf_to_go cfg <= BUF_LIMIT
    /\ ((hello_version cfg = 3 /\ buf_protocol cfg = PROTOCOL_HANDSHAKE)
        \/ (hello_version cfg = 2 /\ buf_len cfg + buf_to_go cfg <= 252))
    /\ tsuites cfg = None.

Definition conn_inv (cfg : sslhaf_cfg_t) : Prop :=
  match state cfg with
  | STATE_START => cfg = cfg_init
  | STATE_BUFFER => buffer_ok cfg
  | STATE_READING => False
  | STATE_GOAWAY => True
  end.

(** A brigade that [ap_get_brigade] delivers, as opposed to an error. *)
Definition delivered (b : brigade) : Prop :=
  match b with
  | BrigadeError => False
  | Brigade _ => True
  end.

Definition readable (bk : bucket) : Prop :=
  match bk with
  | UnreadableBucket => False
  | _ => True
  end.

(** The hex text of a byte string: two lowercase digits per byte. *)
Definition hex_of (bs : list byte) : string := string_cat (map spec_hex bs).

(** Decimal digits, least significant first, used to bound the length of
    what ["%d"] prints. *)
Definition mk_digit (r : N) (d : Decimal.uint) : Decimal.uint :=
  match r with
  | 0%N => Decimal.D0 d
  | 1%N => Decimal.D1 d
  | 2%N => Decimal.D2 d
  | 3%N => Decimal.D3 d
  | 4%N => Decimal.D4 d
  | 5%N => Decimal.D5 d
  | 6%N => Decimal.D6 d
  | 7%N => Decimal.D7 d
  | 8%N => Decimal.D8 d
  | _ => Decimal.D9 d
  end.

Fixpoint lu_digits (k : nat) (n : N) : Decimal.uint :=
  match k with
  | O => Decimal.Nil
  | S k' => mk_digit (n mod 10) (lu_digits k' (n / 10))
  end.

(** The text of an SSLv3+ suite, in the specification's words: both bytes
    if the high byte is not zero, else the low byte alone. *)
Definition spec_v3_token (s : byte * byte) : string :=
  let '(hi, lo) := s in
  if negb (u8 hi =? 0) then (spec_hex hi ++ spec_hex lo)%string
  else spec_hex lo.

(** ** ClientHello messages as they are put on the wire

    A description of well-formed messages, used to state what the decoder
    makes of them.  These are notions of the protocol; the module has no
    counterpart of them. *)

Definition len {A : Type} (l : list A) : Z := Z.of_nat (List.length l).

Definition be16 (z : Z) : list byte := [byte_of_Z (z / 256); byte_of_Z z].

Definition be24 (z : Z) : list byte :=
  [byte_of_Z (z / 65536); byte_of_Z (z / 256); byte_of_Z z].

Definition pair_bytes (l : list (byte * byte)) : list byte :=
  flat_map (fun p => [fst p; snd p]) l.

Inductive extension : Type :=
| ExtGroups (groups : list (byte * byte))
| ExtPoints (formats : list byte)
| ExtOther (t1 t2 : byte) (data : list byte).

Definition wire_extension (e : extension) : list byte :=
  match e with
  | ExtGroups gs =>
      byte_of_Z 0 :: byte_of_Z 10
      :: be16 (2 + 2 * len gs) ++ be16 (2 * len gs) ++ pair_bytes gs
  | ExtPoints fs =>
      byte_of_Z 0 :: byte_of_Z 11
      :: be16 (1 + len fs) ++ byte_of_Z (len fs) :: fs
  | ExtOther t1 t2 data => t1 :: t2 :: be16 (len data) ++ data
  end.

Definition wire_extensions (es : list extension) : list byte :=
  flat_map wire_extension es.

Record hello_msg : Type := mk_hello {
  h_high : byte;
  h_low : byte;
  h_random : list byte;
  h_session : list byte;
  h_suites : list (byte * byte);
  h_compression : list byte;
  h_extensions : option (list extension)
}.

Definition wire_extension_block (exts : option (list extension)) : list byte :=
  match exts with
  | None => []
  | Some es => be16 (len (wire_extensions es)) ++ wire_extensions es
  end.

Definition wire_body (h : hello_msg) : list byte :=
  h_high h :: h_low h :: h_random h
  ++ byte_of_Z (len (h_session h)) :: h_session h
  ++ be16 (2 * len (h_suites h)) ++ pair_bytes (h_suites h)
  ++ byte_of_Z (len (h_compression h)) :: h_compression h
  ++ wire_extension_block (h_extensions h).

Definition wire_hello (h : hello_msg) : list byte :=
  byte_of_Z 1 :: be24 (len (wire_body h)) ++ wire_body h.

Definition extension_ok (e : extension) : Prop :=
  match e with
  | ExtGroups gs => 2 + 2 * len gs < 65536
  | ExtPoints fs => len fs < 256
  | ExtOther t1 t2 data =>
      len data < 65536
      /\ u8 t1 * 256 + u8 t2 <> group_id
      /\ u8 t1 * 256 + u8 t2 <> ec_point_ext_id
  end.

Definition hello_ok (h : hello_msg) : Prop :=
  len (h_random h) = 32
  /\ len (h_session h) < 256
  /\ 2 * len (h_suites h) < 65536
  /\ len (h_compression h) < 256
  /\ match h_extensions h with
     | None => True
     | Some es => Forall extension_ok es /\ len (wire_extensions es) < 65536
     end
  /\ len (wire_body h) < 16777216.

(** The texts expected of the decoder. *)
Definition group_token (g : byte * byte) : string :=
  (spec_hex (fst g) ++ spec_hex (snd g))%string.

Definition extension_token (e : extension) : string :=
  match e with
  | ExtGroups _ => "000a"
  | ExtPoints _ => "000b"
  | ExtOther t1 t2 _ => (spec_hex t1 ++ spec_hex t2)%string
  end.

(** What one extension does to the structure. *)
Definition extension_effect (cfg : sslhaf_cfg_t) (e : extension)
  : sslhaf_cfg_t :=
  let cfg := set_extensions_len (extensions_len cfg + 1) cfg in
  match e with
  | ExtGroups gs =>
      set_curves (Some (String.concat "," (map group_token gs))) cfg
  | ExtPoints fs =>
      set_ec_point (Some (String.concat "," (map spec_hex fs)))
        (set_curve_len (len fs) cfg)
  | ExtOther _ _ _ => cfg
  end.

(** The groups and point formats of the last extension of each kind. *)
Definition last_groups (es : list extension) (start : option string)
  : option string :=
  fold_left
    (fun acc e =>
       match e with
       | ExtGroups gs => Some (String.concat "," (map group_token gs))
       | _ => acc
       end) es start.

Definition last_points (es : list extension) (start : option string)
  : option string :=
  fold_left
    (fun acc e =>
       match e with
       | ExtPoints fs => Some (String.concat "," (map spec_hex fs))
       | _ => acc
       end) es start.

(** The decoder's cursor: [p] bytes of the buffer are behind it, [rest] is
    in front of it. *)
Definition at_cursor (cfg : sslhaf_cfg_t) (p : Z) (rest : list byte) : Prop :=
  exists pre, buf cfg = Some (pre ++ rest) /\ p = Z.of_nat (List.length pre).

(** The fields the compression and extension parts of the decoder leave
    alone. *)
Definition hello_core (c : sslhaf_cfg_t) :=
  (state c, buf_protocol c, buf c, buf_len c, buf_to_go c, hello_version c,
   protocol_high c, protocol_low c, slen c, suites c, thandshake c,
   tprotocol c, tsuites c, request_counter c, ipaddress_hash c,
   client_hello c).

(** The structure after the extension block has been decoded. *)
Definition decoded_extensions (cfg : sslhaf_cfg_t)
    (exts : option (list extension)) : sslhaf_cfg_t :=
  match exts with
  | None => cfg
  | Some es =>
      set_extensions (Some (String.concat "," (map extension_token es)))
        (fold_left extension_effect es (set_extensions_len 0 cfg))
  end.

(** The structure after the compression methods and the extension block
    have been decoded. *)
Definition decoded_compression (cfg : sslhaf_cfg_t) (ms : list byte)
    (exts : option (list extension)) : sslhaf_cfg_t :=
  decoded_extensions
    (set_compression_methods (Some (String.concat "," (map spec_hex ms)))
       (set_compression_len (len ms) cfg))
    exts.

(** The five bytes of the record header the decoder rebuilds in front of
    the raw dump. *)
Definition rebuilt_header (cfg : sslhaf_cfg_t) (ml : Z) : list byte :=
  [byte_of_Z 22; byte_of_Z (protocol_high cfg); byte_of_Z (protocol_low cfg);
   byte_of_Z ((ml + 4) / 256); byte_of_Z (ml + 4)].

(** The structure after a whole message has been decoded out of a buffer
    holding [bs]. *)
Definition decoded (cfg : sslhaf_cfg_t) (h : hello_msg) (bs : list byte)
  : sslhaf_cfg_t :=
  let cfg :=
    set_client_hello
      (Some (hex_of (rebuilt_header cfg (len (wire_body h)) ++ bs))) cfg in
  let cfg := set_protocol_high (u8 (h_high h)) cfg in
  let cfg := set_protocol_low (u8 (h_low h)) cfg in
  let cfg := set_slen (len (h_suites h)) cfg in
  let cfg := set_suites (Some (41 + len (h_session h))) cfg in
  let cfg := set_thandshake (Some (fmt_d (hello_version cfg))) cfg in
  let cfg :=
    set_tprotocol
      (Some (fmt_d (u8 (h_high h)) ++ "." ++ fmt_d (u8 (h_low h)))%string)
      cfg in
  let cfg :=
    set_tsuites (Some (String.concat "," (map spec_v3_token (h_suites h))))
      cfg in
  decoded_compression cfg (h_compression h) (h_extensions h).

Definition last_point_count (es : list extension) (start : Z) : Z :=
  fold_left
    (fun acc e =>
       match e with
       | ExtPoints fs => len fs
       | _ => acc
       end) es start.

(** A sample message: TLS 1.2, two suites, one compression method, and the
    extensions server_name (empty), supported_groups and ec_point_formats. *)
Definition sample_msg : hello_msg :=
  mk_hello (byte_of_Z 3) (byte_of_Z 3)
    (repeat (byte_of_Z 7) 32)
    []
    [(byte_of_Z 192, byte_of_Z 47); (byte_of_Z 0, byte_of_Z 53)]
    [byte_of_Z 0]
    (Some [ExtOther (byte_of_Z 0) (byte_of_Z 0) [];
           ExtGroups [(byte_of_Z 0, byte_of_Z 29); (byte_of_Z 0, byte_of_Z 23)];
           ExtPoints [byte_of_Z 0]]).

(** The same message without an extension block. *)
Definition sample_msg_plain : hello_msg :=
  mk_hello (byte_of_Z 3) (byte_of_Z 3) (repeat (byte_of_Z 7) 32) []
    [(byte_of_Z 192, byte_of_Z 47); (byte_of_Z 0, byte_of_Z 53)]
    [byte_of_Z 0] None.

(** A buffer holding [bs], as [buffer_data] hands it to the decoder. *)
Definition holding (bs : list byte) : sslhaf_cfg_t :=
  set_buf (Some bs)
    (set_buf_len (len bs)
       (set_hello_version 3
          (set_buf_protocol PROTOCOL_HANDSHAKE
             (set_protocol_high 3 (set_protocol_low 1 cfg_init))))).

(** An SSLv3+ handshake record around a message. *)
Definition handshake_record_of (vh vl : byte) (msg : list byte) : list byte :=
  byte_of_Z 22 :: vh :: vl :: be16 (len msg) ++ msg.

(** The five bytes [decode_packet_v2] rebuilds in front of its raw dump. *)
Definition rebuilt_v2_header (cfg : sslhaf_cfg_t) : list byte :=
  byte_of_Z 128 :: byte_of_Z (buf_len cfg + 3) :: byte_of_Z 1
  :: (if (protocol_high cfg =? 2) && (protocol_low cfg =? 0)
      then [byte_of_Z (protocol_low cfg); byte_of_Z (protocol_high cfg)]
      else [byte_of_Z (protocol_high cfg); byte_of_Z (protocol_low cfg)]).

(** An SSLv2 ClientHello record: the marker 128, a length byte, the message
    type 1, the version and the rest. *)
Definition v2_record_of (l v0 v1 : byte) (body : list byte) : list byte :=
  byte_of_Z 128 :: l :: byte_of_Z 1 :: v0 :: v1 :: body.

(** The version bytes as the raw dump of an SSLv2 hello shows them. *)
Definition v2_dump_version (v0 v1 : byte) : byte * byte :=
  if (u8 v0 =? 2) && (u8 v1 =? 0) then (v1, v0) else (v0, v1).

(** ** The published lists

    A two-byte value is a GREASE value when its bytes are equal and end in
    the hex digit [a]. *)
Definition is_grease_pair (p : byte * byte) : bool :=
  (u8 (fst p) =? u8 (snd p)) && (u8 (snd p) mod 16 =? 10).

Definition pair_decimal (p : byte * byte) : string :=
  fmt_d (u8 (fst p) * 256 + u8 (snd p)).

(** The values kept of a list, in decimal, joined by hyphens. *)
Definition ja3_list (ps : list (byte * byte)) : string :=
  String.concat "-"
    (map pair_decimal (filter (fun p => negb (is_grease_pair p)) ps)).

(** The two type bytes of an extension. *)
Definition extension_type (e : extension) : byte * byte :=
  match e with
  | ExtGroups _ => (byte_of_Z 0, byte_of_Z 10)
  | ExtPoints _ => (byte_of_Z 0, byte_of_Z 11)
  | ExtOther t1 t2 _ => (t1, t2)
  end.

(** The point formats as they are published. *)
Definition ja3_points (fs : list byte) : string :=
  match fs with
  | [] => "0"
  | _ => String.concat "-" (map (fun b => fmt_d (u8 b)) fs)
  end.

(** The variables of a request, in the order they are set. *)
Definition published (cfg : sslhaf_cfg_t)
    (suites_text ext_text point_text curve_text : string) : env :=
  List.app
    [("SSLHAF_HANDSHAKE"%string, thandshake cfg);
     ("SSLHAF_PROTOCOL"%string, tprotocol cfg);
     ("SSLHAF_SUITES"%string, Some suites_text);
     ("SSLHAF_COMPRESSION"%string, compression_methods cfg);
     ("SSLHAF_EXTENSIONS_LEN"%string, Some (fmt_d (extensions_len cfg)));
     ("SSLHAF_EXTENSIONS"%string, Some ext_text);
     ("EC_POINT"%string, Some point_text);
     ("CURVES"%string, Some curve_text)]
    (List.app
       (if request_counter cfg =? 0
        then [("SSLHAF_LOG"%string, Some "1"%string)]
        else [])
       [("SSLHAF_RAW"%string,
         Some match client_hello cfg with
              | Some raw => raw
              | None => "-"%string
              end)]).

(** The groups and point formats a block of extensions announces: those of
    its last supported_groups and ec_point_formats extension. *)
Definition groups_of (es : list extension) : option (list (byte * byte)) :=
  fold_left
    (fun acc e => match e with ExtGroups gs => Some gs | _ => acc end)
    es None.

Definition points_of (es : list extension) : option (list byte) :=
  fold_left
    (fun acc e => match e with ExtPoints fs => Some fs | _ => acc end)
    es None.

(** A message that ends behind its cipher suites: the compression methods
    are missing. *)
Definition no_compression_hello : list Z :=
  hello_prefix 39 ++ [0; 2; 0; 53].

(** The names of the variables a request gets, in order; [first] tells
    whether it is the first request of the connection. *)
Definition published_names (first : bool) : list string :=
  List.app
    ["SSLHAF_HANDSHAKE"%string; "SSLHAF_PROTOCOL"%string;
     "SSLHAF_SUITES"%string; "SSLHAF_COMPRESSION"%string;
     "SSLHAF_EXTENSIONS_LEN"%string; "SSLHAF_EXTENSIONS"%string;
     "EC_POINT"%string; "CURVES"%string]
    (List.app (if first then ["SSLHAF_LOG"%string] else [])
       ["SSLHAF_RAW"%string]).

(** * Properties *)

(** ** Bytes and sizes *)

Lemma u8_range (b : byte) : 0 <= u8 b < 256.
Proof.
  unfold u8. pose proof (Byte.to_N_bounded b). lia.
Qed.

Lemma to_size_t_small (z : Z) : 0 <= z < SIZE_T_MOD -> to_size_t z = z.
Proof.
  intros H. unfold to_size_t. apply Z.mod_small. exact H.
Qed.

Lemma size_t_mod_big : 65536 < SIZE_T_MOD.
Proof. reflexivity. Qed.

Lemma record_length_fits (l0 l1 : byte) :
  to_size_t (u8 l0 * 256 + u8 l1) = u8 l0 * 256 + u8 l1.
Proof.
  apply to_size_t_small.
  pose proof (u8_range l0). pose proof (u8_range l1).
  pose proof size_t_mod_big. lia.
Qed.

(** The SSLv2 length [inputbuf[0] - 3] as an [apr_size_t]. *)
Lemma v2_length_cases (l : byte) :
  (3 < u8 l -> to_size_t (u8 l - 3) = u8 l - 3)
  /\ (u8 l = 3 -> to_size_t (u8 l - 3) = 0)
  /\ (u8 l < 3 -> to_size_t (u8 l - 3) = SIZE_T_MOD + u8 l - 3).
Proof.
  pose proof (u8_range l) as Hl. pose proof size_t_mod_big as Hm.
  repeat split; intros H.
  - apply to_size_t_small. lia.
  - rewrite H. reflexivity.
  - unfold to_size_t.
    replace (u8 l - 3) with (SIZE_T_MOD + u8 l - 3 + (-1) * SIZE_T_MOD) by lia.
    rewrite Z.mod_add by (unfold SIZE_T_MOD; lia).
    apply Z.mod_small. lia.
Qed.

Lemma conn_state_eqb_eq (a b : conn_state) :
  conn_state_eqb a b = true <-> a = b.
Proof.
  destruct a, b; simpl; split; intros H; try reflexivity; discriminate.
Qed.

Lemma conn_state_eqb_refl (a : conn_state) : conn_state_eqb a a = true.
Proof. destruct a; reflexivity. Qed.

(** The test [(len <= 0) || (len > BUF_LIMIT)]. *)
Lemma limit_test_false (len : Z) :
  0 < len <= 16384 -> (len <=? 0) || (len >? 16384) = false.
Proof.
  intros H. apply orb_false_iff. split.
  - apply Z.leb_gt. lia.
  - rewrite Z.gtb_ltb. apply Z.ltb_ge. lia.
Qed.

Lemma limit_test_true (len : Z) :
  len <= 0 \/ 16384 < len -> (len <=? 0) || (len >? 16384) = true.
Proof.
  intros H. apply orb_true_iff. destruct H as [H|H].
  - left. apply Z.leb_le. exact H.
  - right. rewrite Z.gtb_ltb. apply Z.ltb_lt. exact H.
Qed.

(** ** The record header *)

(** The SSLv3+ header in [STATE_START]: what becomes of the declared
    length. *)
Lemma record_header_v3 cfg first v0 v1 l0 l1 rest :
  state cfg = STATE_START ->
  u8 first = 22 ->
  record_header cfg (first :: v0 :: v1 :: l0 :: l1 :: rest) =
    let cfg1 := set_hello_version 3 (set_buf_protocol 22 cfg) in
    let cfg2 :=
      if protocol_high cfg =? 0
      then set_protocol_low (u8 v1) (set_protocol_high (u8 v0) cfg1)
      else cfg1 in
    let len := u8 l0 * 256 + u8 l1 in
    if (len <=? 0) || (len >? BUF_LIMIT) then Return (-1) cfg2
    else Continue
           (set_buf_to_go len
              (set_buf_len 0 (set_state STATE_BUFFER (set_buf (Some []) cfg2))))
           rest.
Proof.
  intros Hs Hf. unfold record_header.
  rewrite Hs, Hf, record_length_fits. reflexivity.
Qed.

(** The SSLv2 header in [STATE_START]. *)
Lemma record_header_v2 cfg first l mt v0 v1 rest :
  state cfg = STATE_START ->
  u8 first = 128 ->
  u8 mt = 1 ->
  record_header cfg (first :: l :: mt :: v0 :: v1 :: rest) =
    let cfg1 := set_hello_version 2 cfg in
    let cfg2 :=
      if (u8 v0 =? 0) && (u8 v1 =? 2)
      then set_protocol_low (u8 v0) (set_protocol_high (u8 v1) cfg1)
      else set_protocol_low (u8 v1) (set_protocol_high (u8 v0) cfg1) in
    let len := to_size_t (u8 l - 3) in
    if (len <=? 0) || (len >? BUF_LIMIT) then Return (-1) cfg2
    else Continue
           (set_buf_to_go len
              (set_buf_len 0 (set_state STATE_BUFFER (set_buf (Some []) cfg2))))
           rest.
Proof.
  intros Hs Hf Hm. unfold record_header.
  rewrite Hs, Hf, Hm. reflexivity.
Qed.

(** An SSLv2 message other than a ClientHello in [STATE_START]. *)
Lemma record_header_v2_not_hello cfg first l mt v0 v1 rest :
  state cfg = STATE_START ->
  u8 first = 128 ->
  u8 mt <> 1 ->
  record_header cfg (first :: l :: mt :: v0 :: v1 :: rest) = Return (-1) cfg.
Proof.
  intros Hs Hf Hm. unfold record_header.
  rewrite Hs, Hf. apply Z.eqb_neq in Hm. cbn. rewrite Hm. reflexivity.
Qed.

(** A first byte other than 22 and 128 in [STATE_START]. *)
Lemma record_header_not_tls cfg first rest :
  state cfg = STATE_START ->
  u8 first <> 22 -> u8 first <> 128 ->
  record_header cfg (first :: rest) = Return (-1) cfg.
Proof.
  intros Hs H22 H128. unfold record_header. rewrite Hs.
  unfold PROTOCOL_HANDSHAKE.
  apply Z.eqb_neq in H22. apply Z.eqb_neq in H128.
  rewrite H22, H128. reflexivity.
Qed.

(** A [return] out of the header block is a [return] of [decode_bucket],
    after which the filter gives the connection up. *)
Lemma decode_bucket_header_return cfg inputbuf rc cfg' :
  state cfg = STATE_START ->
  inputbuf <> [] ->
  record_header cfg inputbuf = Return rc cfg' ->
  decode_bucket cfg inputbuf = Ok (rc, cfg').
Proof.
  intros Hs Hne Hh. unfold decode_bucket.
  destruct inputbuf as [|b r]; [contradiction|].
  simpl List.length. cbn [decode_bucket_loop].
  unfold decode_bucket_round. rewrite Hs. cbn [conn_state_eqb orb].
  rewrite Hh. reflexivity.
Qed.

Lemma in_filter_header_reject cfg inputbuf cfg' :
  state cfg = STATE_START ->
  inputbuf <> [] ->
  record_header cfg inputbuf = Return (-1) cfg' ->
  sslhaf_in_filter cfg (Brigade [DataBucket inputbuf]) =
    Ok (set_state STATE_GOAWAY cfg').
Proof.
  intros Hs Hne Hh. unfold sslhaf_in_filter. rewrite Hs.
  cbn [conn_state_eqb filter_buckets].
  rewrite (decode_bucket_header_return _ _ _ _ Hs Hne Hh). reflexivity.
Qed.

(** C7.  In [STATE_START], an SSLv3+ record header whose declared length
    [len] satisfies [0 < len <= 16384] is accepted: an empty record buffer
    is set up for [len] bytes and the connection goes to [STATE_BUFFER].  A
    header declaring [0] or more than [16384] (so also [16385]) makes
    [decode_bucket] return [-1] before the buffer is allocated ([cfg->buf]
    is left as it was, the state too), and the filter then puts the
    connection into [STATE_GOAWAY]. *)
Theorem record_length_bound cfg first v0 v1 l0 l1 rest :
  state cfg = STATE_START ->
  u8 first = 22 ->
  (0 < u8 l0 * 256 + u8 l1 <= 16384 ->
   exists cfg',
     record_header cfg (first :: v0 :: v1 :: l0 :: l1 :: rest) =
       Continue cfg' rest
     /\ state cfg' = STATE_BUFFER
     /\ buf cfg' = Some []
     /\ buf_len cfg' = 0
     /\ buf_to_go cfg' = u8 l0 * 256 + u8 l1)
  /\ (u8 l0 * 256 + u8 l1 = 0 \/ 16384 < u8 l0 * 256 + u8 l1 ->
      exists cfg',
        decode_bucket cfg (first :: v0 :: v1 :: l0 :: l1 :: rest) =
          Ok (-1, cfg')
        /\ buf cfg' = buf cfg
        /\ buf_len cfg' = buf_len cfg
        /\ state cfg' = STATE_START
        /\ sslhaf_in_filter cfg
             (Brigade [DataBucket (first :: v0 :: v1 :: l0 :: l1 :: rest)]) =
           Ok (set_state STATE_GOAWAY cfg')).
Proof.
  intros Hs Hf.
  pose proof (record_header_v3 cfg first v0 v1 l0 l1 rest Hs Hf) as Hh.
  cbv zeta in Hh. unfold BUF_LIMIT in Hh.
  split; intros Hlen.
  - rewrite limit_test_false in Hh by exact Hlen.
    eexists. split; [exact Hh|].
    repeat split; reflexivity.
  - rewrite limit_test_true in Hh by lia.
    eexists. split; [|split; [|split; [|split]]].
    + apply decode_bucket_header_return; [exact Hs|discriminate|exact Hh].
    + destruct (protocol_high cfg =? 0); reflexivity.
    + destruct (protocol_high cfg =? 0); reflexivity.
    + destruct (protocol_high cfg =? 0); simpl; exact Hs.
    + apply in_filter_header_reject; [exact Hs|discriminate|exact Hh].
Qed.

(** C7 at the two boundary records of a fresh connection: declared length
    16385 (bytes 64, 1) and declared length 0. *)
Lemma record_length_bound_witness :
  (exists cfg',
     decode_bucket cfg_init (bytes_of [22; 3; 1; 64; 1; 0; 0]) = Ok (-1, cfg')
     /\ buf cfg' = None
     /\ buf_len cfg' = 0
     /\ state cfg' = STATE_START
     /\ sslhaf_in_filter cfg_init
          (Brigade [DataBucket (bytes_of [22; 3; 1; 64; 1; 0; 0])]) =
        Ok (set_state STATE_GOAWAY cfg'))
  /\ (exists cfg',
        decode_bucket cfg_init (bytes_of [22; 3; 1; 0; 0; 9]) = Ok (-1, cfg')
        /\ buf cfg' = None
        /\ buf_len cfg' = 0
        /\ state cfg' = STATE_START
        /\ sslhaf_in_filter cfg_init
             (Brigade [DataBucket (bytes_of [22; 3; 1; 0; 0; 9])]) =
           Ok (set_state STATE_GOAWAY cfg'))
  /\ (exists cfg',
        record_header cfg_init (bytes_of [22; 3; 1; 64; 0; 5]) =
          Continue cfg' (bytes_of [5])
        /\ state cfg' = STATE_BUFFER
        /\ buf cfg' = Some []
        /\ buf_len cfg' = 0
        /\ buf_to_go cfg' = 16384).
Proof.
  split; [|split].
  - apply (record_length_bound cfg_init
             (byte_of_Z 22) (byte_of_Z 3) (byte_of_Z 1)
             (byte_of_Z 64) (byte_of_Z 1) (bytes_of [0; 0])
             eq_refl eq_refl).
    right. vm_compute. reflexivity.
  - apply (record_length_bound cfg_init
             (byte_of_Z 22) (byte_of_Z 3) (byte_of_Z 1)
             (byte_of_Z 0) (byte_of_Z 0) (bytes_of [9])
             eq_refl eq_refl).
    left. reflexivity.
  - apply (record_length_bound cfg_init
             (byte_of_Z 22) (byte_of_Z 3) (byte_of_Z 1)
             (byte_of_Z 64) (byte_of_Z 0) (bytes_of [5])
             eq_refl eq_refl).
    vm_compute. split; [reflexivity | discriminate].
Defined.

(** C10.  On the SSLv2 path the record length is the byte after the [0x80]
    marker minus 3, taken as an [apr_size_t].  A length byte of at most 3 is
    always rejected (below 3 the subtraction wraps to a value above
    [BUF_LIMIT], at 3 it gives 0), without a buffer being allocated; any
    other length byte of a ClientHello is accepted with a record of between
    1 and 252 bytes, so the test against [BUF_LIMIT] only ever fires on a
    wrapped value. *)
Theorem v2_record_length cfg first l mt v0 v1 rest :
  state cfg = STATE_START ->
  u8 first = 128 ->
  (u8 mt = 1 -> 3 < u8 l ->
   exists cfg',
     record_header cfg (first :: l :: mt :: v0 :: v1 :: rest) =
       Continue cfg' rest
     /\ state cfg' = STATE_BUFFER
     /\ buf cfg' = Some []
     /\ buf_len cfg' = 0
     /\ buf_to_go cfg' = u8 l - 3
     /\ 1 <= buf_to_go cfg' <= 252)
  /\ (u8 l <= 3 ->
      exists cfg',
        decode_bucket cfg (first :: l :: mt :: v0 :: v1 :: rest) =
          Ok (-1, cfg')
        /\ buf cfg' = buf cfg
        /\ state cfg' = STATE_START
        /\ sslhaf_in_filter cfg
             (Brigade [DataBucket (first :: l :: mt :: v0 :: v1 :: rest)]) =
           Ok (set_state STATE_GOAWAY cfg'))
  /\ (u8 l < 3 -> to_size_t (u8 l - 3) > BUF_LIMIT)
  /\ (u8 l = 3 -> to_size_t (u8 l - 3) = 0)
  /\ (to_size_t (u8 l - 3) > BUF_LIMIT -> u8 l < 3).
Proof.
  intros Hs Hf.
  destruct (v2_length_cases l) as (Hbig & Heq & Hwrap).
  pose proof (u8_range l) as Hl.
  assert (HM : SIZE_T_MOD = 18446744073709551616) by reflexivity.
  unfold BUF_LIMIT in *.
  split; [|split; [|split; [|split]]].
  - intros Hm H.
    pose proof (record_header_v2 cfg first l mt v0 v1 rest Hs Hf Hm) as Hh.
    cbv zeta in Hh. unfold BUF_LIMIT in Hh.
    rewrite (Hbig H) in Hh.
    rewrite limit_test_false in Hh by lia.
    eexists. split; [exact Hh|].
    repeat split; try reflexivity; simpl; lia.
  - intros H. destruct (Z.eq_dec (u8 mt) 1) as [Hm|Hm].
    + pose proof (record_header_v2 cfg first l mt v0 v1 rest Hs Hf Hm) as Hh.
      cbv zeta in Hh. unfold BUF_LIMIT in Hh.
      rewrite limit_test_true in Hh.
      2:{ destruct (Z.eq_dec (u8 l) 3) as [E|NE].
          - left. rewrite (Heq E). lia.
          - right. rewrite Hwrap by lia. lia. }
      eexists. split; [|split; [|split]].
      * apply decode_bucket_header_return; [exact Hs|discriminate|exact Hh].
      * destruct ((u8 v0 =? 0) && (u8 v1 =? 2)); reflexivity.
      * destruct ((u8 v0 =? 0) && (u8 v1 =? 2)); simpl; exact Hs.
      * apply in_filter_header_reject; [exact Hs|discriminate|exact Hh].
    + pose proof (record_header_v2_not_hello cfg first l mt v0 v1 rest
                    Hs Hf Hm) as Hh.
      exists cfg. split; [|split; [|split]].
      * apply decode_bucket_header_return; [exact Hs|discriminate|exact Hh].
      * reflexivity.
      * exact Hs.
      * apply in_filter_header_reject; [exact Hs|discriminate|exact Hh].
  - intros H. rewrite Hwrap by lia. lia.
  - exact Heq.
  - intros H.
    destruct (Z_lt_le_dec (u8 l) 3) as [Hlt|Hge]; [exact Hlt|exfalso].
    destruct (Z.eq_dec (u8 l) 3) as [E|NE].
    + rewrite (Heq E) in H. lia.
    + rewrite Hbig in H by lia. lia.
Qed.

(** C10 on a fresh connection: length byte 37 is accepted with a 34-byte
    record, length bytes 3 and 2 are rejected. *)
Lemma v2_record_length_witness :
  (exists cfg',
     record_header cfg_init (bytes_of [128; 37; 1; 3; 1; 0; 12]) =
       Continue cfg' (bytes_of [0; 12])
     /\ state cfg' = STATE_BUFFER
     /\ buf cfg' = Some []
     /\ buf_len cfg' = 0
     /\ buf_to_go cfg' = 34
     /\ 1 <= buf_to_go cfg' <= 252)
  /\ (exists cfg',
        decode_bucket cfg_init (bytes_of [128; 3; 1; 3; 1; 0]) = Ok (-1, cfg')
        /\ buf cfg' = None
        /\ state cfg' = STATE_START
        /\ sslhaf_in_filter cfg_init
             (Brigade [DataBucket (bytes_of [128; 3; 1; 3; 1; 0])]) =
           Ok (set_state STATE_GOAWAY cfg'))
  /\ to_size_t (2 - 3) > BUF_LIMIT.
Proof.
  split; [|split].
  - apply (v2_record_length cfg_init
             (byte_of_Z 128) (byte_of_Z 37) (byte_of_Z 1)
             (byte_of_Z 3) (byte_of_Z 1) (bytes_of [0; 12])
             eq_refl eq_refl); reflexivity.
  - apply (v2_record_length cfg_init
             (byte_of_Z 128) (byte_of_Z 3) (byte_of_Z 1)
             (byte_of_Z 3) (byte_of_Z 1) (bytes_of [0])
             eq_refl eq_refl).
    vm_compute. discriminate.
  - apply (v2_record_length cfg_init
             (byte_of_Z 128) (byte_of_Z 2) (byte_of_Z 1)
             (byte_of_Z 3) (byte_of_Z 1) (bytes_of [0])
             eq_refl eq_refl).
    reflexivity.
Defined.

(** C3, as the code has it.  In [STATE_START] a first byte 22 is taken as
    SSLv3+ record framing and (with a whole header and an admissible length)
    leads to record buffering, and a first byte 128 is taken as SSLv2
    framing.  Every other first byte, 20 and 23 among them, makes
    [decode_bucket] return [-1] with the structure untouched, so nothing is
    buffered, and the filter puts the connection into [STATE_GOAWAY]. *)
Theorem first_byte_classification cfg first :
  state cfg = STATE_START ->
  (u8 first = 22 ->
   forall v0 v1 l0 l1 rest,
     0 < u8 l0 * 256 + u8 l1 <= 16384 ->
     exists cfg',
       record_header cfg (first :: v0 :: v1 :: l0 :: l1 :: rest) =
         Continue cfg' rest
       /\ hello_version cfg' = 3
       /\ buf_protocol cfg' = 22
       /\ state cfg' = STATE_BUFFER
       /\ buf_to_go cfg' = u8 l0 * 256 + u8 l1)
  /\ (u8 first = 128 ->
      forall l mt v0 v1 rest,
        u8 mt = 1 -> 3 < u8 l ->
        exists cfg',
          record_header cfg (first :: l :: mt :: v0 :: v1 :: rest) =
            Continue cfg' rest
          /\ hello_version cfg' = 2
          /\ state cfg' = STATE_BUFFER
          /\ buf_to_go cfg' = u8 l - 3)
  /\ (u8 first <> 22 -> u8 first <> 128 ->
      forall rest,
        decode_bucket cfg (first :: rest) = Ok (-1, cfg)
        /\ sslhaf_in_filter cfg (Brigade [DataBucket (first :: rest)]) =
           Ok (set_state STATE_GOAWAY cfg)
        /\ buf (set_state STATE_GOAWAY cfg) = buf cfg
        /\ buf_len (set_state STATE_GOAWAY cfg) = buf_len cfg).
Proof.
  intros Hs. split; [|split].
  - intros Hf v0 v1 l0 l1 rest Hlen.
    pose proof (record_header_v3 cfg first v0 v1 l0 l1 rest Hs Hf) as Hh.
    cbv zeta in Hh. unfold BUF_LIMIT in Hh.
    rewrite limit_test_false in Hh by exact Hlen.
    eexists. split; [exact Hh|].
    destruct (protocol_high cfg =? 0); repeat split; reflexivity.
  - intros Hf l mt v0 v1 rest Hm Hl.
    pose proof (record_header_v2 cfg first l mt v0 v1 rest Hs Hf Hm) as Hh.
    cbv zeta in Hh. unfold BUF_LIMIT in Hh.
    destruct (v2_length_cases l) as (Hbig & _ & _).
    rewrite (Hbig Hl) in Hh.
    pose proof (u8_range l).
    rewrite limit_test_false in Hh by lia.
    eexists. split; [exact Hh|].
    destruct ((u8 v0 =? 0) && (u8 v1 =? 2)); repeat split; reflexivity.
  - intros H22 H128 rest.
    pose proof (record_header_not_tls cfg first rest Hs H22 H128) as Hh.
    split; [|split; [|split]].
    + apply decode_bucket_header_return; [exact Hs|discriminate|exact Hh].
    + apply in_filter_header_reject; [exact Hs|discriminate|exact Hh].
    + reflexivity.
    + reflexivity.
Qed.

(** C3 on a fresh connection: first bytes 22, 128 and 23. *)
Lemma first_byte_classification_witness :
  (exists cfg',
     record_header cfg_init (bytes_of [22; 3; 1; 0; 2; 7]) =
       Continue cfg' (bytes_of [7])
     /\ hello_version cfg' = 3
     /\ buf_protocol cfg' = 22
     /\ state cfg' = STATE_BUFFER
     /\ buf_to_go cfg' = 2)
  /\ (exists cfg',
        record_header cfg_init (bytes_of [128; 37; 1; 3; 1; 7]) =
          Continue cfg' (bytes_of [7])
        /\ hello_version cfg' = 2
        /\ state cfg' = STATE_BUFFER
        /\ buf_to_go cfg' = 34)
  /\ (decode_bucket cfg_init (bytes_of [23; 3; 1; 0; 2; 7]) = Ok (-1, cfg_init)
      /\ sslhaf_in_filter cfg_init
           (Brigade [DataBucket (bytes_of [23; 3; 1; 0; 2; 7])]) =
         Ok (set_state STATE_GOAWAY cfg_init)
      /\ buf (set_state STATE_GOAWAY cfg_init) = None
      /\ buf_len (set_state STATE_GOAWAY cfg_init) = 0).
Proof.
  split; [|split].
  - apply (first_byte_classification cfg_init (byte_of_Z 22) eq_refl);
      [reflexivity | vm_compute; split; [reflexivity | discriminate]].
  - apply (first_byte_classification cfg_init (byte_of_Z 128) eq_refl);
      reflexivity.
  - apply (first_byte_classification cfg_init (byte_of_Z 23) eq_refl);
      vm_compute; discriminate.
Defined.

(** C3 as stated fails: on a fresh connection a record that starts with
    byte 20 (change-cipher-spec) and carries a whole header declaring 2
    bytes, 1 of them present, is not buffered.  The connection is given up
    with nothing recorded, whereas the same bytes behind a first byte 22 are
    buffered. *)
Lemma change_cipher_spec_first_not_buffered :
  sslhaf_in_filter cfg_init (Brigade [DataBucket (bytes_of [20; 3; 1; 0; 2; 7])])
    = Ok (set_state STATE_GOAWAY cfg_init)
  /\ ~ (exists cfg',
          sslhaf_in_filter cfg_init
            (Brigade [DataBucket (bytes_of [20; 3; 1; 0; 2; 7])]) = Ok cfg'
          /\ state cfg' = STATE_BUFFER)
  /\ (exists cfg',
        sslhaf_in_filter cfg_init
          (Brigade [DataBucket (bytes_of [22; 3; 1; 0; 2; 7])]) = Ok cfg'
        /\ state cfg' = STATE_BUFFER
        /\ buf cfg' = Some (bytes_of [7])).
Proof.
  split; [reflexivity|split].
  - intros (cfg' & H & Hst).
    vm_compute in H. inversion H; subst cfg'. discriminate Hst.
  - eexists. split; [vm_compute; reflexivity|]. split; reflexivity.
Qed.

(** ** The loops never run out of fuel *)

Lemma read_range bs i v : read bs i = Ok v -> 0 <= v < 256.
Proof.
  unfold read. destruct (i <? 0); [discriminate|].
  destruct (nth_error bs (Z.to_nat i)); [|discriminate].
  intros H. inversion H. apply u8_range.
Qed.

Lemma read_buf_range cfg i v : read_buf cfg i = Ok v -> 0 <= v < 256.
Proof.
  unfold read_buf. destruct (buf cfg); [apply read_range|discriminate].
Qed.

Lemma read_buf_fault cfg i f : read_buf cfg i = Fault f -> f <> LoopFuel.
Proof.
  unfold read_buf, read. destruct (buf cfg).
  - destruct (i <? 0); [intros H; inversion H; discriminate|].
    destruct (nth_error l (Z.to_nat i)); intros H; inversion H; discriminate.
  - intros H; inversion H; discriminate.
Qed.

(** Case analysis on the next read of the structure's buffer. *)
Ltac read_step v Hv :=
  match goal with
  | |- context [bind (read_buf ?c ?i) _] =>
      let f := fresh "f" in
      destruct (read_buf c i) as [v|f] eqn:Hv; cbn [bind];
      [| try (intros Habs; inversion Habs; subst f;
              exact (read_buf_fault _ _ _ Hv eq_refl)) ]
  end.

Lemma hex_copy_fuel n : forall cfg p q, hex_copy n cfg p q <> Fault LoopFuel.
Proof.
  induction n as [|n IH]; intros cfg p q; cbn [hex_copy]; [discriminate|].
  read_step b Hb. apply IH.
Qed.

Lemma v2_suites_loop_fuel n :
  forall cfg p q, v2_suites_loop n cfg p q <> Fault LoopFuel.
Proof.
  induction n as [|n IH]; intros cfg p q; cbn [v2_suites_loop]; [discriminate|].
  read_step b0 Hb0.
  destruct (negb (b0 =? 0)).
  - read_step b1 Hb1. read_step b2 Hb2. apply IH.
  - read_step b1 Hb1.
    destruct (negb (b1 =? 0)); cbn [bind]; read_step b2 Hb2; apply IH.
Qed.

Lemma v3_suites_loop_fuel n :
  forall cfg p q, v3_suites_loop n cfg p q <> Fault LoopFuel.
Proof.
  induction n as [|n IH]; intros cfg p q; cbn [v3_suites_loop]; [discriminate|].
  read_step b0 Hb0. read_step b1 Hb1. apply IH.
Qed.

Lemma v3_compression_loop_fuel n :
  forall cfg p q, v3_compression_loop n cfg p q <> Fault LoopFuel.
Proof.
  induction n as [|n IH]; intros cfg p q; cbn [v3_compression_loop];
    [discriminate|].
  read_step b Hb. apply IH.
Qed.

Lemma v3_ec_point_loop_fuel n :
  forall cfg p c, v3_ec_point_loop n cfg p c <> Fault LoopFuel.
Proof.
  induction n as [|n IH]; intros cfg p c; cbn [v3_ec_point_loop];
    [discriminate|].
  read_step b Hb. apply IH.
Qed.

Lemma v3_curves_loop_fuel fuel :
  forall cfg p ec_len e,
    (Z.to_nat ec_len <= fuel)%nat ->
    v3_curves_loop fuel cfg p ec_len e <> Fault LoopFuel.
Proof.
  induction fuel as [|fuel IH]; intros cfg p ec_len e Hf;
    cbn [v3_curves_loop]; destruct (ec_len >? 0) eqn:Hpos;
    try discriminate.
  - rewrite Z.gtb_ltb in Hpos. apply Z.ltb_lt in Hpos. lia.
  - rewrite Z.gtb_ltb in Hpos. apply Z.ltb_lt in Hpos.
    read_step b Hb. read_step b' Hb'. apply IH. lia.
Qed.

Lemma v3_extensions_loop_fuel fuel :
  forall cfg p elen q,
    (Z.to_nat elen <= fuel)%nat ->
    v3_extensions_loop fuel cfg p elen q <> Fault LoopFuel.
Proof.
  induction fuel as [|fuel IH]; intros cfg p elen q Hf;
    cbn [v3_extensions_loop]; destruct (elen >? 0) eqn:Hpos;
    try discriminate.
  - rewrite Z.gtb_ltb in Hpos. apply Z.ltb_lt in Hpos. lia.
  - rewrite Z.gtb_ltb in Hpos. apply Z.ltb_lt in Hpos.
    read_step b1 Hb1. read_step b2 Hb2. read_step l1 Hl1. read_step l2 Hl2.
    pose proof (read_buf_range _ _ _ Hl1). pose proof (read_buf_range _ _ _ Hl2).
    destruct (b1 * 256 + b2 =? group_id).
    + read_step g1 Hg1. read_step g2 Hg2.
      match goal with
      | |- context [v3_curves_loop ?n ?c ?p' ?l ?e] =>
          pose proof (v3_curves_loop_fuel n c p' l e (Nat.le_refl _)) as Hc;
          destruct (v3_curves_loop n c p' l e) as [[p1 e1]|f1]; cbn [bind]
      end.
      * apply IH. lia.
      * intros Habs. apply Hc. inversion Habs. reflexivity.
    + destruct (b1 * 256 + b2 =? ec_point_ext_id).
      * read_step n1 Hn1.
        match goal with
        | |- context [v3_ec_point_loop ?n ?c ?p' ?e] =>
            pose proof (v3_ec_point_loop_fuel n c p' e) as Hc;
            destruct (v3_ec_point_loop n c p' e) as [[p1 e1]|f1]; cbn [bind]
        end.
        -- apply IH. lia.
        -- intros Habs. apply Hc. inversion Habs. reflexivity.
      * apply IH. lia.
Qed.

Lemma bind_fuel {A B : Type} (m : result A) (k : A -> result B) :
  m <> Fault LoopFuel ->
  (forall a, m = Ok a -> k a <> Fault LoopFuel) ->
  bind m k <> Fault LoopFuel.
Proof.
  intros Hm Hk. destruct m as [a|f]; cbn [bind].
  - apply Hk. reflexivity.
  - intros H. apply Hm. inversion H. reflexivity.
Qed.

Lemma read_buf_fuel cfg i : read_buf cfg i <> Fault LoopFuel.
Proof.
  destruct (read_buf cfg i) as [v|f] eqn:H; [discriminate|].
  intros Habs. inversion Habs. exact (read_buf_fault _ _ _ H H1).
Qed.

Create HintDb fuel.

#[local] Hint Resolve read_buf_fuel hex_copy_fuel v2_suites_loop_fuel
  v3_suites_loop_fuel v3_compression_loop_fuel v3_ec_point_loop_fuel : fuel.

(** Walks through a chain of binds and tests. *)
Ltac fuel_walk :=
  repeat first
    [ discriminate
    | apply bind_fuel; [ solve [auto with fuel] | intros ? ? ]
    | match goal with
      | |- (if ?b then _ else _) <> _ => destruct b
      | |- (match ?x with pair _ _ => _ end) <> _ => destruct x
      end ].

Lemma decode_packet_v2_fuel cfg : decode_packet_v2 cfg <> Fault LoopFuel.
Proof.
  unfold decode_packet_v2. cbv zeta. fuel_walk.
Qed.

Lemma v3_extensions_fuel cfg p mylen :
  v3_extensions cfg p mylen <> Fault LoopFuel.
Proof.
  unfold v3_extensions. cbv zeta. fuel_walk.
  apply bind_fuel.
  - apply v3_extensions_loop_fuel. apply Nat.le_refl.
  - intros [c q] _. discriminate.
Qed.

Lemma v3_compression_fuel cfg p mylen :
  v3_compression cfg p mylen <> Fault LoopFuel.
Proof.
  unfold v3_compression. cbv zeta. fuel_walk.
  apply v3_extensions_fuel.
Qed.

Lemma decode_packet_v3_handshake_fuel cfg :
  decode_packet_v3_handshake cfg <> Fault LoopFuel.
Proof.
  unfold decode_packet_v3_handshake. cbv zeta. fuel_walk.
  apply v3_compression_fuel.
Qed.

Lemma decode_packet_v3_fuel cfg : decode_packet_v3 cfg <> Fault LoopFuel.
Proof.
  unfold decode_packet_v3.
  destruct (buf_protocol cfg =? PROTOCOL_HANDSHAKE);
    [apply decode_packet_v3_handshake_fuel | discriminate].
Qed.

(** ** The reassembler, one round at a time *)

(** The header block either returns, leaving the state as it was, or falls
    through to the buffering block in [STATE_BUFFER]. *)
Lemma record_header_state cfg inputbuf :
  inputbuf <> [] ->
  match record_header cfg inputbuf with
  | Return _ cfg' => state cfg' = state cfg
  | Continue cfg' _ => state cfg' = STATE_BUFFER
  end.
Proof.
  intros Hne. unfold record_header.
  destruct inputbuf as [|first r]; [contradiction|].
  destruct (conn_state_eqb (state cfg) STATE_START
            && negb (u8 first =? PROTOCOL_HANDSHAKE) && negb (u8 first =? 128));
    [reflexivity|].
  destruct ((u8 first =? PROTOCOL_HANDSHAKE) || (u8 first =? PROTOCOL_APPLICATION)
            || (u8 first =? PROTOCOL_CHANGE_CIPHER_SPEC)).
  - destruct r as [|v0 [|v1 [|l0 [|l1 r]]]]; try reflexivity.
    match goal with
    | |- context [if ?b then Return _ _ else _] => destruct b
    end; [|reflexivity].
    destruct (protocol_high _ =? 0); reflexivity.
  - destruct (u8 first =? 128); [|reflexivity].
    destruct r as [|l [|mt [|v0 [|v1 r]]]]; try reflexivity.
    destruct (negb (u8 mt =? 1)); [reflexivity|].
    match goal with
    | |- context [if ?b then Return _ _ else _] => destruct b
    end; [|reflexivity].
    destruct ((u8 v0 =? 0) && (u8 v1 =? 2)); reflexivity.
Qed.

(** The buffering block either completes the record, decodes it and
    returns in [STATE_GOAWAY], or swallows the whole input. *)
Lemma buffer_data_state cfg inputbuf fl :
  buffer_data cfg inputbuf = Ok fl ->
  match fl with
  | Return _ cfg' => state cfg' = STATE_GOAWAY /\ buf cfg' = None
  | Continue cfg' inputbuf' => inputbuf' = [] /\ state cfg' = state cfg
  end.
Proof.
  unfold buffer_data. destruct (buf cfg) as [bs|]; [|discriminate].
  destruct (buf_to_go cfg <=? Z.of_nat (List.length inputbuf)).
  - cbv zeta.
    match goal with
    | |- bind ?m _ = _ -> _ => destruct m as [[rc c]|f]; cbn [bind]
    end; [|discriminate].
    destruct (rc <? 0); intros H; inversion H; subst fl; split; reflexivity.
  - cbv zeta. intros H. inversion H. subst fl. split; reflexivity.
Qed.

Lemma buffer_data_fuel cfg inputbuf :
  buffer_data cfg inputbuf <> Fault LoopFuel.
Proof.
  unfold buffer_data. destruct (buf cfg) as [bs|]; [|discriminate].
  destruct (buf_to_go cfg <=? Z.of_nat (List.length inputbuf)); cbv zeta;
    [|discriminate].
  apply bind_fuel.
  - match goal with
    | |- (if ?b then _ else _) <> _ => destruct b
    end; [apply decode_packet_v3_fuel | apply decode_packet_v2_fuel].
  - intros [rc c] _. destruct (rc <? 0); discriminate.
Qed.

(** A round that does not return has used up the input. *)
Lemma decode_bucket_round_continue cfg inputbuf cfg' inputbuf' :
  decode_bucket_round cfg inputbuf = Ok (Continue cfg' inputbuf') ->
  inputbuf' = [] \/ (inputbuf = [] /\ cfg' = cfg).
Proof.
  unfold decode_bucket_round.
  assert (Hhdr : match record_header cfg inputbuf with
                 | Return rc c => Ok (Return rc c)
                 | Continue c ib =>
                     if conn_state_eqb (state c) STATE_BUFFER
                     then buffer_data c ib
                     else Ok (Continue c ib)
                 end = Ok (Continue cfg' inputbuf') ->
                 inputbuf' = [] \/ (inputbuf = [] /\ cfg' = cfg)).
  { destruct inputbuf as [|b r].
    - cbn [record_header].
      destruct (conn_state_eqb (state cfg) STATE_BUFFER).
      + intros H. apply buffer_data_state in H. left. apply H.
      + intros H. inversion H. right. split; reflexivity.
    - pose proof (record_header_state cfg (b :: r)) as Hh.
      destruct (record_header cfg (b :: r)) as [rc c|c ib]; [discriminate|].
      rewrite Hh by discriminate. cbn [conn_state_eqb].
      intros H. apply buffer_data_state in H. left. apply H. }
  destruct (state cfg) eqn:Hs; cbn [conn_state_eqb orb].
  - exact Hhdr.
  - rewrite Hs. cbn [conn_state_eqb].
    intros H. apply buffer_data_state in H. left. apply H.
  - exact Hhdr.
  - discriminate.
Qed.

Lemma decode_bucket_nil cfg : decode_bucket cfg [] = Ok (1, cfg).
Proof. reflexivity. Qed.

(** [decode_bucket] on a non-empty input is one round of its loop. *)
Lemma decode_bucket_cons cfg b r :
  decode_bucket cfg (b :: r) =
    (fl <- decode_bucket_round cfg (b :: r) ;;
     match fl with
     | Return rc cfg' => Ok (rc, cfg')
     | Continue cfg' _ => Ok (1, cfg')
     end).
Proof.
  unfold decode_bucket. cbn [List.length decode_bucket_loop].
  destruct (decode_bucket_round cfg (b :: r)) as [[rc c|c ib]|f] eqn:Hr;
    cbn [bind]; try reflexivity.
  destruct (decode_bucket_round_continue _ _ _ _ Hr) as [E|[E1 E2]].
  - subst ib. destruct (List.length r); reflexivity.
  - discriminate E1.
Qed.

(** [decode_bucket] always comes back: its loop needs one round. *)
Lemma decode_bucket_fuel cfg inputbuf :
  decode_bucket cfg inputbuf <> Fault LoopFuel.
Proof.
  destruct inputbuf as [|b r]; [discriminate|].
  rewrite decode_bucket_cons. apply bind_fuel.
  - unfold decode_bucket_round.
    destruct (conn_state_eqb (state cfg) STATE_GOAWAY); [discriminate|].
    match goal with
    | |- (match ?fl with Return _ _ => _ | Continue _ _ => _ end) <> _ =>
        destruct fl as [rc c|c ib]
    end; [discriminate|].
    destruct (conn_state_eqb (state c) STATE_BUFFER);
      [apply buffer_data_fuel | discriminate].
  - intros [rc c|c ib] _; discriminate.
Qed.

(** So does the filter, on every brigade. *)
Lemma filter_buckets_fuel bb :
  forall cfg, filter_buckets cfg bb <> Fault LoopFuel.
Proof.
  induction bb as [|bk bb IH]; intros cfg; cbn [filter_buckets];
    [discriminate|].
  destruct bk as [|data|]; [apply IH| |discriminate].
  apply bind_fuel; [apply decode_bucket_fuel|].
  intros [rc c] _. destruct (rc <=? 0); [discriminate|].
  destruct (conn_state_eqb (state c) STATE_GOAWAY); [discriminate|apply IH].
Qed.

Lemma sslhaf_in_filter_fuel cfg b : sslhaf_in_filter cfg b <> Fault LoopFuel.
Proof.
  unfold sslhaf_in_filter.
  destruct (conn_state_eqb (state cfg) STATE_GOAWAY); [discriminate|].
  destruct b as [|bb]; [discriminate|apply filter_buckets_fuel].
Qed.

(** ** Phases *)

Lemma phase_step_refl s : s <> STATE_READING -> phase_step s s = true.
Proof. destruct s; intros H; try reflexivity. contradiction. Qed.

Lemma phase_step_goaway s : s <> STATE_READING -> phase_step s STATE_GOAWAY = true.
Proof. destruct s; intros H; try reflexivity. contradiction. Qed.

Lemma phase_step_trans a b c :
  phase_step a b = true -> phase_step b c = true -> phase_step a c = true.
Proof. destruct a, b, c; simpl; intros; try reflexivity; discriminate. Qed.

Lemma phase_step_target a b : phase_step a b = true -> b <> STATE_READING.
Proof. destruct a, b; simpl; intros; discriminate. Qed.

Lemma decode_bucket_round_phase cfg inputbuf fl :
  inputbuf <> [] ->
  state cfg <> STATE_READING ->
  decode_bucket_round cfg inputbuf = Ok fl ->
  phase_step (state cfg) (state (flow_cfg fl)) = true.
Proof.
  intros Hne Hnr. unfold decode_bucket_round.
  destruct (state cfg) eqn:Hs; cbn [conn_state_eqb orb].
  - pose proof (record_header_state cfg inputbuf Hne) as Hh.
    destruct (record_header cfg inputbuf) as [rc c|c ib].
    + intros H. inversion H. cbn [flow_cfg]. rewrite Hh, Hs. reflexivity.
    + rewrite Hh. cbn [conn_state_eqb]. intros H.
      apply buffer_data_state in H. destruct fl as [rc c'|c' ib']; cbn [flow_cfg].
      * destruct H as [H _]. rewrite H. reflexivity.
      * destruct H as [_ H]. rewrite H, Hh. reflexivity.
  - rewrite Hs. cbn [conn_state_eqb]. intros H.
    apply buffer_data_state in H. destruct fl as [rc c'|c' ib']; cbn [flow_cfg].
    + destruct H as [H _]. rewrite H. reflexivity.
    + destruct H as [_ H]. rewrite H, Hs. reflexivity.
  - contradiction.
  - intros H. inversion H. cbn [flow_cfg]. rewrite Hs. reflexivity.
Qed.

Lemma decode_bucket_phase cfg inputbuf rc cfg' :
  state cfg <> STATE_READING ->
  decode_bucket cfg inputbuf = Ok (rc, cfg') ->
  phase_step (state cfg) (state cfg') = true.
Proof.
  intros Hnr. destruct inputbuf as [|b r].
  - rewrite decode_bucket_nil. intros H. inversion H. subst.
    apply phase_step_refl. exact Hnr.
  - rewrite decode_bucket_cons.
    destruct (decode_bucket_round cfg (b :: r)) as [fl|f] eqn:Hr; cbn [bind];
      [|discriminate].
    pose proof (decode_bucket_round_phase cfg (b :: r) fl) as Hp.
    specialize (Hp ltac:(discriminate) Hnr Hr).
    destruct fl as [rc0 c|c ib]; intros H; inversion H; subst; exact Hp.
Qed.

Lemma filter_buckets_phase bb :
  forall cfg cfg',
    state cfg <> STATE_READING ->
    filter_buckets cfg bb = Ok cfg' ->
    phase_step (state cfg) (state cfg') = true.
Proof.
  induction bb as [|bk bb IH]; intros cfg cfg' Hnr; cbn [filter_buckets].
  - intros H. inversion H. subst. apply phase_step_refl. exact Hnr.
  - destruct bk as [|data|].
    + apply IH. exact Hnr.
    + destruct (decode_bucket cfg data) as [[rc c]|f] eqn:Hd; cbn [bind];
        [|discriminate].
      pose proof (decode_bucket_phase _ _ _ _ Hnr Hd) as Hp.
      destruct (rc <=? 0).
      * intros H. inversion H. apply phase_step_goaway. exact Hnr.
      * destruct (conn_state_eqb (state c) STATE_GOAWAY).
        -- intros H. inversion H. subst. exact Hp.
        -- intros H. apply (phase_step_trans _ (state c)); [exact Hp|].
           apply IH; [|exact H]. exact (phase_step_target _ _ Hp).
    + intros H. inversion H. subst. apply phase_step_refl. exact Hnr.
Qed.

Lemma sslhaf_in_filter_phase cfg b cfg' :
  state cfg <> STATE_READING ->
  sslhaf_in_filter cfg b = Ok cfg' ->
  phase_step (state cfg) (state cfg') = true.
Proof.
  intros Hnr. unfold sslhaf_in_filter.
  destruct (conn_state_eqb (state cfg) STATE_GOAWAY).
  - intros H. inversion H. subst. apply phase_step_refl. exact Hnr.
  - destruct b as [|bb].
    + intros H. inversion H. apply phase_step_goaway. exact Hnr.
    + apply filter_buckets_phase. exact Hnr.
Qed.

Lemma phases_legal bs :
  forall cfg,
    state cfg <> STATE_READING ->
    legal_trace (state cfg) (phases cfg bs) = true.
Proof.
  induction bs as [|b bs IH]; intros cfg Hnr; cbn [phases]; [reflexivity|].
  destruct (sslhaf_in_filter cfg b) as [c|f] eqn:Hf; [|reflexivity].
  cbn [legal_trace].
  pose proof (sslhaf_in_filter_phase _ _ _ Hnr Hf) as Hp.
  rewrite Hp. cbn [andb]. apply IH. exact (phase_step_target _ _ Hp).
Qed.

(** The filter never faults by itself on a connection given up. *)
Lemma sslhaf_in_filter_goaway cfg b :
  state cfg = STATE_GOAWAY -> sslhaf_in_filter cfg b = Ok cfg.
Proof.
  intros Hs. unfold sslhaf_in_filter. rewrite Hs. reflexivity.
Qed.

(** ** Bytes behind a completed record *)

Lemma record_header_app cfg inputbuf extra cfg' rest :
  inputbuf <> [] ->
  record_header cfg inputbuf = Continue cfg' rest ->
  record_header cfg (inputbuf ++ extra) = Continue cfg' (rest ++ extra).
Proof.
  intros Hne. unfold record_header.
  destruct inputbuf as [|first r]; [contradiction|]. cbn [List.app].
  destruct (conn_state_eqb (state cfg) STATE_START
            && negb (u8 first =? PROTOCOL_HANDSHAKE) && negb (u8 first =? 128));
    [discriminate|].
  destruct ((u8 first =? PROTOCOL_HANDSHAKE) || (u8 first =? PROTOCOL_APPLICATION)
            || (u8 first =? PROTOCOL_CHANGE_CIPHER_SPEC)).
  - destruct r as [|v0 [|v1 [|l0 [|l1 r]]]]; try discriminate.
    cbn [List.app].
    match goal with
    | |- context [if ?b then Return _ _ else _] => destruct b
    end; [discriminate|].
    intros H. inversion H. reflexivity.
  - destruct (u8 first =? 128); [|discriminate].
    destruct r as [|l [|mt [|v0 [|v1 r]]]]; try discriminate.
    cbn [List.app].
    destruct (negb (u8 mt =? 1)); [discriminate|].
    match goal with
    | |- context [if ?b then Return _ _ else _] => destruct b
    end; [discriminate|].
    intros H. inversion H. reflexivity.
Qed.

Lemma buffer_data_return_app cfg inputbuf extra rc cfg' :
  buffer_data cfg inputbuf = Ok (Return rc cfg') ->
  buffer_data cfg (inputbuf ++ extra) = Ok (Return rc cfg').
Proof.
  unfold buffer_data. destruct (buf cfg) as [bs|]; [|discriminate].
  destruct (buf_to_go cfg <=? Z.of_nat (List.length inputbuf)) eqn:Hle;
    [|discriminate].
  apply Z.leb_le in Hle.
  replace (buf_to_go cfg <=? Z.of_nat (List.length (inputbuf ++ extra)))
    with true
    by (symmetry; apply Z.leb_le; rewrite length_app; lia).
  rewrite firstn_app.
  replace (Z.to_nat (buf_to_go cfg) - List.length inputbuf)%nat with 0%nat
    by lia.
  cbn [firstn]. rewrite app_nil_r. intros H. exact H.
Qed.

Lemma decode_bucket_extra cfg data extra rc cfg' :
  state cfg <> STATE_GOAWAY ->
  decode_bucket cfg data = Ok (rc, cfg') ->
  state cfg' = STATE_GOAWAY ->
  decode_bucket cfg (data ++ extra) = Ok (rc, cfg').
Proof.
  intros Hng Hd Hg. destruct data as [|b r].
  - rewrite decode_bucket_nil in Hd. inversion Hd. subst. contradiction.
  - cbn [List.app]. rewrite decode_bucket_cons in *.
    assert (Hhdr :
      (fl <- match record_header cfg (b :: r) with
             | Return rc c => Ok (Return rc c)
             | Continue c ib =>
                 if conn_state_eqb (state c) STATE_BUFFER
                 then buffer_data c ib else Ok (Continue c ib)
             end ;;
       match fl with
       | Return rc c => Ok (rc, c)
       | Continue c _ => Ok (1, c)
       end) = Ok (rc, cfg') ->
      (fl <- match record_header cfg (b :: r ++ extra) with
             | Return rc c => Ok (Return rc c)
             | Continue c ib =>
                 if conn_state_eqb (state c) STATE_BUFFER
                 then buffer_data c ib else Ok (Continue c ib)
             end ;;
       match fl with
       | Return rc c => Ok (rc, c)
       | Continue c _ => Ok (1, c)
       end) = Ok (rc, cfg')).
    { pose proof (record_header_state cfg (b :: r) ltac:(discriminate)) as Hh.
      destruct (record_header cfg (b :: r)) as [rc0 c|c ib] eqn:Hrh.
      - cbn [bind]. intros H. inversion H. subst.
        rewrite Hh in Hg. contradiction.
      - change (b :: r ++ extra) with ((b :: r) ++ extra).
        rewrite (record_header_app cfg (b :: r) extra c ib
                   ltac:(discriminate) Hrh).
        rewrite Hh. cbn [conn_state_eqb].
        destruct (buffer_data c ib) as [[rc1 c1|c1 ib1]|f] eqn:Hb; cbn [bind];
          try discriminate.
        + rewrite (buffer_data_return_app _ _ extra _ _ Hb). cbn [bind].
          intros H; exact H.
        + intros H. inversion H. subst.
          apply buffer_data_state in Hb. destruct Hb as [_ Hb].
          rewrite Hb, Hh in Hg. discriminate. }
    unfold decode_bucket_round in *.
    destruct (state cfg) eqn:Hs; cbn [conn_state_eqb orb] in *.
    + apply Hhdr. exact Hd.
    + rewrite Hs in *. cbn [conn_state_eqb] in *.
      destruct (buffer_data cfg (b :: r)) as [[rc1 c1|c1 ib1]|f] eqn:Hb;
        cbn [bind] in Hd; try discriminate.
      * change (b :: r ++ extra) with ((b :: r) ++ extra).
        rewrite (buffer_data_return_app _ _ extra _ _ Hb). cbn [bind].
        exact Hd.
      * inversion Hd. subst.
        apply buffer_data_state in Hb. destruct Hb as [_ Hb].
        rewrite Hb, Hs in Hg. discriminate.
    + apply Hhdr. exact Hd.
    + contradiction.
Qed.

Lemma filter_buckets_later cfg data bb cfg' :
  filter_buckets cfg [DataBucket data] = Ok cfg' ->
  state cfg' = STATE_GOAWAY ->
  filter_buckets cfg (DataBucket data :: bb) = Ok cfg'.
Proof.
  cbn [filter_buckets].
  destruct (decode_bucket cfg data) as [[rc c]|f]; cbn [bind]; [|discriminate].
  destruct (rc <=? 0); [intros H _; exact H|].
  destruct (conn_state_eqb (state c) STATE_GOAWAY) eqn:Hc;
    [intros H _; exact H|].
  intros H Hg. inversion H. subst.
  rewrite Hg in Hc. discriminate.
Qed.

(** C9.  Whatever brigades a connection receives, and from whatever state
    other than the unused [STATE_READING] it starts (a fresh connection
    starts in [STATE_START]), the states seen after each brigade only follow
    start, buffer, go-away or start, go-away.  In [STATE_GOAWAY] the filter
    hands the structure back untouched for every brigade, so the state is
    never left and no input is looked at; the bytes of a chunk behind the
    record that led to [STATE_GOAWAY], and the buckets behind such a chunk,
    have no influence on the outcome. *)
Theorem phase_monotone :
  (forall cfg bs,
     state cfg <> STATE_READING ->
     legal_trace (state cfg) (phases cfg bs) = true)
  /\ (forall cfg b,
        state cfg = STATE_GOAWAY -> sslhaf_in_filter cfg b = Ok cfg)
  /\ (forall cfg bs,
        state cfg = STATE_GOAWAY -> run_filter cfg bs = Ok cfg)
  /\ (forall cfg data extra rc cfg',
        state cfg <> STATE_GOAWAY ->
        decode_bucket cfg data = Ok (rc, cfg') ->
        state cfg' = STATE_GOAWAY ->
        decode_bucket cfg (data ++ extra) = Ok (rc, cfg'))
  /\ (forall cfg data bb cfg',
        filter_buckets cfg [DataBucket data] = Ok cfg' ->
        state cfg' = STATE_GOAWAY ->
        filter_buckets cfg (DataBucket data :: bb) = Ok cfg').
Proof.
  split; [|split; [|split; [|split]]].
  - intros cfg bs. apply phases_legal.
  - apply sslhaf_in_filter_goaway.
  - intros cfg bs Hs. induction bs as [|b bs IH]; [reflexivity|].
    cbn [run_filter]. rewrite (sslhaf_in_filter_goaway _ _ Hs). exact IH.
  - apply decode_bucket_extra.
  - apply filter_buckets_later.
Qed.

(** C9 on the sample record: delivered in three brigades with a stray
    brigade behind, the connection is seen in the states buffer, buffer,
    go-away, go-away; a connection given up ignores a further record; bytes
    and buckets behind the completed record change nothing. *)
Lemma phase_monotone_witness :
  legal_trace STATE_START
    (phases cfg_init
       [Brigade [MetadataBucket; DataBucket (firstn 9 sample_record)];
        Brigade [DataBucket (firstn 30 (skipn 9 sample_record))];
        Brigade [DataBucket (skipn 39 sample_record)];
        Brigade [DataBucket sample_record]]) = true
  /\ phases cfg_init
       [Brigade [MetadataBucket; DataBucket (firstn 9 sample_record)];
        Brigade [DataBucket (firstn 30 (skipn 9 sample_record))];
        Brigade [DataBucket (skipn 39 sample_record)];
        Brigade [DataBucket sample_record]] =
     [STATE_BUFFER; STATE_BUFFER; STATE_GOAWAY; STATE_GOAWAY]
  /\ sslhaf_in_filter (set_state STATE_GOAWAY cfg_init)
       (Brigade [DataBucket sample_record]) =
     Ok (set_state STATE_GOAWAY cfg_init)
  /\ run_filter (set_state STATE_GOAWAY cfg_init)
       [Brigade [DataBucket sample_record]; BrigadeError] =
     Ok (set_state STATE_GOAWAY cfg_init)
  /\ decode_bucket cfg_init (sample_record ++ bytes_of [23; 3; 3; 0; 1; 0]) =
     decode_bucket cfg_init sample_record
  /\ filter_buckets cfg_init
       [DataBucket sample_record; DataBucket (bytes_of [1; 2; 3])] =
     filter_buckets cfg_init [DataBucket sample_record].
Proof.
  destruct phase_monotone as (Htrace & Hgo & Hrun & Hextra & Hlater).
  split; [|split; [|split; [|split; [|split]]]].
  - apply (Htrace cfg_init). discriminate.
  - vm_compute. reflexivity.
  - apply Hgo. reflexivity.
  - apply Hrun. reflexivity.
  - destruct (decode_bucket cfg_init sample_record) as [[rc c]|f] eqn:Hd;
      [|vm_compute in Hd; discriminate].
    apply Hextra; [discriminate|exact Hd|].
    vm_compute in Hd. inversion Hd. reflexivity.
  - destruct (filter_buckets cfg_init [DataBucket sample_record])
      as [c|f] eqn:Hf; [|vm_compute in Hf; discriminate].
    apply Hlater; [exact Hf|].
    vm_compute in Hf. inversion Hf. reflexivity.
Defined.

(** ** Chunk boundaries inside a record *)

Lemma bind_ext {A B : Type} (m : result A) (k k' : A -> result B) :
  (forall a, m = Ok a -> k a = k' a) -> bind m k = bind m k'.
Proof.
  intros H. destruct m as [a|f]; cbn [bind]; [apply H|]; reflexivity.
Qed.

Lemma bind_ok {A : Type} (m : result A) : bind m Ok = m.
Proof. destruct m; reflexivity. Qed.

Lemma feed_cons cfg c cs :
  feed cfg (c :: cs) = (cfg' <- push cfg c ;; feed cfg' cs).
Proof. reflexivity. Qed.

Lemma push_nil cfg : push cfg [] = Ok cfg.
Proof.
  unfold push, sslhaf_in_filter.
  destruct (conn_state_eqb (state cfg) STATE_GOAWAY) eqn:Hs; [reflexivity|].
  cbn [filter_buckets]. rewrite decode_bucket_nil. cbn [bind].
  rewrite Hs. reflexivity.
Qed.

Lemma push_goaway cfg c : state cfg = STATE_GOAWAY -> push cfg c = Ok cfg.
Proof. apply sslhaf_in_filter_goaway. Qed.

Lemma push_buffer cfg chunk :
  state cfg = STATE_BUFFER ->
  chunk <> [] ->
  push cfg chunk = absorb cfg chunk.
Proof.
  intros Hs Hne. destruct chunk as [|b r]; [contradiction|].
  unfold push, sslhaf_in_filter, absorb. rewrite Hs. cbn [conn_state_eqb].
  cbn [filter_buckets]. rewrite decode_bucket_cons.
  unfold decode_bucket_round. rewrite Hs. cbn [conn_state_eqb orb].
  rewrite Hs. cbn [conn_state_eqb].
  destruct (buffer_data cfg (b :: r)) as [fl|f] eqn:Hb; cbn [bind];
    [|reflexivity].
  pose proof (buffer_data_state _ _ _ Hb) as Hst.
  destruct fl as [rc c|c ib]; cbn [bind flow_cfg].
  - destruct Hst as [Hg _].
    destruct (rc <=? 0).
    + f_equal. destruct c. simpl in Hg. subst. reflexivity.
    + rewrite Hg. reflexivity.
  - destruct Hst as [_ Hc]. rewrite Hc, Hs. reflexivity.
Qed.

Lemma buffer_data_eq cfg bs inputbuf :
  buf cfg = Some bs ->
  buffer_data cfg inputbuf =
    if buf_to_go cfg <=? Z.of_nat (List.length inputbuf)
    then finish (completed cfg bs inputbuf)
    else Ok (Continue (partial cfg bs inputbuf) []).
Proof.
  intros Hb. unfold buffer_data. rewrite Hb. reflexivity.
Qed.

Lemma finish_goaway cfg fl :
  finish cfg = Ok fl -> state (flow_cfg fl) = STATE_GOAWAY.
Proof.
  unfold finish.
  match goal with
  | |- bind ?m _ = _ -> _ => destruct m as [[rc c]|f]; cbn [bind]
  end; [|discriminate].
  destruct (rc <? 0); intros H; inversion H; reflexivity.
Qed.

Lemma partial_buffering cfg bs inputbuf :
  buffering cfg ->
  Z.of_nat (List.length inputbuf) < buf_to_go cfg ->
  buffering (partial cfg bs inputbuf)
  /\ buf (partial cfg bs inputbuf) = Some (bs ++ inputbuf)
  /\ buf_len (partial cfg bs inputbuf) =
       buf_len cfg + Z.of_nat (List.length inputbuf)
  /\ buf_to_go (partial cfg bs inputbuf) =
       buf_to_go cfg - Z.of_nat (List.length inputbuf).
Proof.
  intros (Hs & Hb & Hl & Hg & Hsum) Hlt.
  assert (E1 : to_size_t (buf_len cfg + Z.of_nat (List.length inputbuf)) =
               buf_len cfg + Z.of_nat (List.length inputbuf))
    by (apply to_size_t_small; lia).
  assert (E2 : to_size_t (buf_to_go cfg - Z.of_nat (List.length inputbuf)) =
               buf_to_go cfg - Z.of_nat (List.length inputbuf))
    by (apply to_size_t_small; lia).
  assert (HM : SIZE_T_MOD = 18446744073709551616) by reflexivity.
  unfold buffering, partial. cbn. rewrite E1, E2.
  repeat split; try assumption; try lia. discriminate.
Qed.

(** A chunk boundary inside the body of a record changes nothing. *)
Lemma absorb_split cfg a b :
  buffering cfg ->
  a <> [] -> b <> [] ->
  absorb cfg (a ++ b) = (c <- absorb cfg a ;; push c b).
Proof.
  intros Hw Ha Hb.
  destruct Hw as (Hs & Hbuf & Hl & Hg & Hsum).
  destruct (buf cfg) as [bs|] eqn:Ebuf; [|contradiction].
  assert (Hw : buffering cfg)
    by (unfold buffering; rewrite Ebuf; repeat split; assumption).
  unfold absorb at 1 2. rewrite !(buffer_data_eq cfg bs) by exact Ebuf.
  rewrite length_app, Nat2Z.inj_add.
  destruct (buf_to_go cfg <=? Z.of_nat (List.length a)) eqn:Hca.
  - (* the record ends inside [a] *)
    apply Z.leb_le in Hca.
    replace (buf_to_go cfg <=? Z.of_nat (List.length a) + Z.of_nat (List.length b))
      with true by (symmetry; apply Z.leb_le; lia).
    assert (E : completed cfg bs (a ++ b) = completed cfg bs a).
    { unfold completed. rewrite firstn_app.
      replace (Z.to_nat (buf_to_go cfg) - List.length a)%nat with 0%nat by lia.
      cbn [firstn]. rewrite app_nil_r. reflexivity. }
    rewrite E.
    destruct (finish (completed cfg bs a)) as [fl|f] eqn:Hf; cbn [bind];
      [|reflexivity].
    symmetry. apply push_goaway. exact (finish_goaway _ _ Hf).
  - (* [a] is swallowed whole *)
    apply Z.leb_gt in Hca. cbn [bind flow_cfg].
    destruct (partial_buffering cfg bs a Hw Hca) as (Hw' & Eb' & El' & Eg').
    rewrite push_buffer by (apply Hw' || exact Hb).
    unfold absorb. rewrite (buffer_data_eq _ (bs ++ a)) by exact Eb'.
    rewrite Eg'.
    destruct (buf_to_go cfg <=? Z.of_nat (List.length a) + Z.of_nat (List.length b))
      eqn:Hcb.
    + apply Z.leb_le in Hcb.
      replace (buf_to_go cfg - Z.of_nat (List.length a) <=? Z.of_nat (List.length b))
        with true by (symmetry; apply Z.leb_le; lia).
      assert (E : completed (partial cfg bs a) (bs ++ a) b =
                  completed cfg bs (a ++ b)).
      { unfold completed. rewrite El', Eg'.
        replace (buf_len cfg + Z.of_nat (List.length a) +
                 (buf_to_go cfg - Z.of_nat (List.length a)))
          with (buf_len cfg + buf_to_go cfg) by lia.
        rewrite firstn_app.
        rewrite (@firstn_all2 _ (Z.to_nat (buf_to_go cfg)) a) by lia.
        replace (Z.to_nat (buf_to_go cfg) - List.length a)%nat
          with (Z.to_nat (buf_to_go cfg - Z.of_nat (List.length a))) by lia.
        rewrite <- app_assoc. reflexivity. }
      rewrite E. reflexivity.
    + apply Z.leb_gt in Hcb.
      replace (buf_to_go cfg - Z.of_nat (List.length a) <=? Z.of_nat (List.length b))
        with false by (symmetry; apply Z.leb_gt; lia).
      cbn [bind flow_cfg]. f_equal.
      unfold partial at 1 2. rewrite El', Eg'.
      rewrite length_app, Nat2Z.inj_add, <- app_assoc.
      replace (buf_to_go cfg - Z.of_nat (List.length a) - Z.of_nat (List.length b))
        with (buf_to_go cfg - (Z.of_nat (List.length a) + Z.of_nat (List.length b)))
        by lia.
      replace (buf_len cfg + Z.of_nat (List.length a) + Z.of_nat (List.length b))
        with (buf_len cfg + (Z.of_nat (List.length a) + Z.of_nat (List.length b)))
        by lia.
      reflexivity.
Qed.

Lemma absorb_keeps cfg chunk cfg' :
  buffering cfg ->
  absorb cfg chunk = Ok cfg' ->
  buffering cfg' \/ state cfg' = STATE_GOAWAY.
Proof.
  intros Hw. pose proof Hw as (Hs & Hbuf & _).
  destruct (buf cfg) as [bs|] eqn:Ebuf; [|contradiction].
  unfold absorb. rewrite (buffer_data_eq cfg bs) by exact Ebuf.
  destruct (buf_to_go cfg <=? Z.of_nat (List.length chunk)) eqn:Hc.
  - destruct (finish (completed cfg bs chunk)) as [fl|f] eqn:Hf; cbn [bind];
      [|discriminate].
    intros H. inversion H. subst. right. exact (finish_goaway _ _ Hf).
  - apply Z.leb_gt in Hc. cbn [bind flow_cfg]. intros H. inversion H. subst.
    left. apply partial_buffering; assumption.
Qed.

Lemma push_keeps cfg chunk cfg' :
  buffering cfg \/ state cfg = STATE_GOAWAY ->
  push cfg chunk = Ok cfg' ->
  buffering cfg' \/ state cfg' = STATE_GOAWAY.
Proof.
  intros [Hw|Hg].
  - destruct chunk as [|b r].
    + rewrite push_nil. intros H. inversion H. subst. left. exact Hw.
    + rewrite push_buffer by (apply Hw || discriminate).
      apply absorb_keeps. exact Hw.
  - rewrite (push_goaway _ _ Hg). intros H. inversion H. subst.
    right. exact Hg.
Qed.

Lemma push_split cfg a b :
  buffering cfg \/ state cfg = STATE_GOAWAY ->
  push cfg (a ++ b) = (c <- push cfg a ;; push c b).
Proof.
  intros [Hw|Hg].
  - destruct a as [|x a].
    + rewrite push_nil. reflexivity.
    + destruct b as [|y b].
      * rewrite app_nil_r. symmetry.
        rewrite <- (bind_ok (push cfg (x :: a))) at 2.
        apply bind_ext. intros c _. apply push_nil.
      * rewrite !push_buffer by (apply Hw || discriminate).
        apply absorb_split; [exact Hw|discriminate|discriminate].
  - rewrite !(push_goaway cfg) by exact Hg. cbn [bind].
    symmetry. apply push_goaway. exact Hg.
Qed.

(** Inside a record, chunks count as their concatenation. *)
Lemma feed_concat chunks :
  forall cfg,
    buffering cfg \/ state cfg = STATE_GOAWAY ->
    feed cfg chunks = push cfg (List.concat chunks).
Proof.
  induction chunks as [|c cs IH]; intros cfg Hw.
  - cbn [List.concat]. rewrite push_nil. reflexivity.
  - rewrite feed_cons. cbn [List.concat]. rewrite (push_split cfg c) by exact Hw.
    apply bind_ext. intros c' Hc'. apply IH.
    exact (push_keeps _ _ _ Hw Hc').
Qed.

(** The header block only ever returns [-1]. *)
Lemma record_header_return cfg inputbuf rc cfg' :
  record_header cfg inputbuf = Return rc cfg' -> rc = -1.
Proof.
  unfold record_header.
  destruct inputbuf as [|first r]; [discriminate|].
  destruct (conn_state_eqb (state cfg) STATE_START
            && negb (u8 first =? PROTOCOL_HANDSHAKE) && negb (u8 first =? 128));
    [intros H; inversion H; reflexivity|].
  destruct ((u8 first =? PROTOCOL_HANDSHAKE) || (u8 first =? PROTOCOL_APPLICATION)
            || (u8 first =? PROTOCOL_CHANGE_CIPHER_SPEC)).
  - destruct r as [|v0 [|v1 [|l0 [|l1 r]]]];
      try (intros H; inversion H; reflexivity).
    match goal with
    | |- context [if ?b then Return _ _ else _] => destruct b
    end; [intros H; inversion H; reflexivity | discriminate].
  - destruct (u8 first =? 128); [|intros H; inversion H; reflexivity].
    destruct r as [|l [|mt [|v0 [|v1 r]]]];
      try (intros H; inversion H; reflexivity).
    destruct (negb (u8 mt =? 1)); [intros H; inversion H; reflexivity|].
    match goal with
    | |- context [if ?b then Return _ _ else _] => destruct b
    end; [intros H; inversion H; reflexivity | discriminate].
Qed.

(** With its five bytes present, a header that is turned down is turned
    down whatever follows. *)
Lemma record_header_return_app cfg first v0 v1 l0 l1 r extra rc cfg' :
  record_header cfg (first :: v0 :: v1 :: l0 :: l1 :: r) = Return rc cfg' ->
  record_header cfg (first :: v0 :: v1 :: l0 :: l1 :: r ++ extra) =
    Return rc cfg'.
Proof.
  unfold record_header.
  destruct (conn_state_eqb (state cfg) STATE_START
            && negb (u8 first =? PROTOCOL_HANDSHAKE) && negb (u8 first =? 128));
    [intros H; exact H|].
  destruct ((u8 first =? PROTOCOL_HANDSHAKE) || (u8 first =? PROTOCOL_APPLICATION)
            || (u8 first =? PROTOCOL_CHANGE_CIPHER_SPEC)).
  - match goal with
    | |- context [if ?b then Return _ _ else _] => destruct b
    end; [intros H; exact H | discriminate].
  - destruct (u8 first =? 128); [|intros H; exact H].
    destruct (negb (u8 v1 =? 1)); [intros H; exact H|].
    match goal with
    | |- context [if ?b then Return _ _ else _] => destruct b
    end; [intros H; exact H | discriminate].
Qed.

(** An accepted header leaves an empty buffer and a length within the
    limit. *)
Lemma record_header_continue cfg inputbuf cfg' rest :
  inputbuf <> [] ->
  record_header cfg inputbuf = Continue cfg' rest ->
  state cfg' = STATE_BUFFER
  /\ buf cfg' = Some []
  /\ buf_len cfg' = 0
  /\ 0 < buf_to_go cfg' <= BUF_LIMIT.
Proof.
  intros Hne. unfold record_header.
  destruct inputbuf as [|first r]; [contradiction|].
  destruct (conn_state_eqb (state cfg) STATE_START
            && negb (u8 first =? PROTOCOL_HANDSHAKE) && negb (u8 first =? 128));
    [discriminate|].
  destruct ((u8 first =? PROTOCOL_HANDSHAKE) || (u8 first =? PROTOCOL_APPLICATION)
            || (u8 first =? PROTOCOL_CHANGE_CIPHER_SPEC)).
  - destruct r as [|v0 [|v1 [|l0 [|l1 r]]]]; try discriminate.
    match goal with
    | |- context [if ?b || ?c then Return _ _ else _] =>
        destruct b eqn:H1; destruct c eqn:H2; cbn [orb]
    end; try discriminate.
    intros H. inversion H. subst. cbn.
    apply Z.leb_gt in H1. rewrite Z.gtb_ltb in H2. apply Z.ltb_ge in H2.
    repeat split; try reflexivity; assumption.
  - destruct (u8 first =? 128); [|discriminate].
    destruct r as [|l [|mt [|v0 [|v1 r]]]]; try discriminate.
    destruct (negb (u8 mt =? 1)); [discriminate|].
    match goal with
    | |- context [if ?b || ?c then Return _ _ else _] =>
        destruct b eqn:H1; destruct c eqn:H2; cbn [orb]
    end; try discriminate.
    intros H. inversion H. subst. cbn.
    apply Z.leb_gt in H1. rewrite Z.gtb_ltb in H2. apply Z.ltb_ge in H2.
    repeat split; try reflexivity; assumption.
Qed.

Lemma record_header_buffering cfg inputbuf cfg' rest :
  inputbuf <> [] ->
  record_header cfg inputbuf = Continue cfg' rest ->
  buffering cfg'.
Proof.
  intros Hne Hh.
  destruct (record_header_continue _ _ _ _ Hne Hh) as (Hs & Hb & Hl & Hg).
  unfold buffering. rewrite Hs, Hb, Hl.
  assert (HM : SIZE_T_MOD = 18446744073709551616) by reflexivity.
  unfold BUF_LIMIT in Hg.
  repeat split; try lia. discriminate.
Qed.

(** A chunk that opens with an accepted header is the rest of the chunk
    delivered to the connection the header leaves behind. *)
Lemma push_header cfg inputbuf cfg' rest :
  state cfg = STATE_START ->
  inputbuf <> [] ->
  record_header cfg inputbuf = Continue cfg' rest ->
  push cfg inputbuf = push cfg' rest.
Proof.
  intros Hs Hne Hh.
  pose proof (record_header_continue _ _ _ _ Hne Hh) as (Hs' & Hb' & Hl' & Hg').
  pose proof (record_header_buffering _ _ _ _ Hne Hh) as Hw.
  destruct inputbuf as [|b r]; [contradiction|].
  assert (Hp : push cfg (b :: r) = absorb cfg' rest).
  { unfold push, sslhaf_in_filter, absorb. rewrite Hs. cbn [conn_state_eqb].
    cbn [filter_buckets]. rewrite decode_bucket_cons.
    unfold decode_bucket_round. rewrite Hs. cbn [conn_state_eqb orb].
    rewrite Hh, Hs'. cbn [conn_state_eqb].
    destruct (buffer_data cfg' rest) as [fl|f] eqn:Hb; cbn [bind];
      [|reflexivity].
    pose proof (buffer_data_state _ _ _ Hb) as Hst.
    destruct fl as [rc c|c ib]; cbn [bind flow_cfg].
    - destruct Hst as [Hg _].
      destruct (rc <=? 0).
      + f_equal. destruct c. simpl in Hg. subst. reflexivity.
      + rewrite Hg. reflexivity.
    - destruct Hst as [_ Hc]. rewrite Hc, Hs'. reflexivity. }
  rewrite Hp. destruct rest as [|y rest].
  - rewrite push_nil. unfold absorb.
    rewrite (buffer_data_eq cfg' []) by exact Hb'.
    cbn [List.length Z.of_nat].
    replace (buf_to_go cfg' <=? 0) with false
      by (symmetry; apply Z.leb_gt; lia).
    cbn [bind flow_cfg]. f_equal.
    unfold partial. cbn [List.length Z.of_nat List.app].
    rewrite Z.add_0_r, Z.sub_0_r, Hl'.
    rewrite (to_size_t_small 0) by (unfold SIZE_T_MOD; lia).
    rewrite (to_size_t_small (buf_to_go cfg'))
      by (unfold SIZE_T_MOD, BUF_LIMIT in *; lia).
    destruct cfg'. cbn in *. subst. reflexivity.
  - symmetry. apply push_buffer; [exact Hs'|discriminate].
Qed.

Lemma feed_single cfg c : feed cfg [c] = push cfg c.
Proof.
  rewrite feed_cons. destruct (push cfg c); reflexivity.
Qed.

Lemma feed_goaway cfg chunks :
  state cfg = STATE_GOAWAY -> feed cfg chunks = Ok cfg.
Proof.
  intros Hg. rewrite feed_concat by (right; exact Hg).
  apply push_goaway. exact Hg.
Qed.

Lemma feed_empty_chunks pre :
  forall cfg chunks,
    Forall (fun c => c = []) pre ->
    feed cfg (pre ++ chunks) = feed cfg chunks.
Proof.
  induction pre as [|c pre IH]; intros cfg chunks Hall; [reflexivity|].
  inversion Hall as [|? ? Hc Hpre]; subst.
  cbn [List.app]. rewrite feed_cons, push_nil. cbn [bind].
  apply IH. exact Hpre.
Qed.

Lemma concat_empty_chunks (pre chunks : list (list byte)) :
  Forall (fun c => c = []) pre ->
  List.concat (pre ++ chunks) = List.concat chunks.
Proof.
  induction 1 as [|c pre Hc Hpre IH]; [reflexivity|].
  subst c. cbn [List.app List.concat]. exact IH.
Qed.

(** C2, as the code has it.  On a connection in [STATE_START], a byte
    stream cut into chunks gives the same outcome, structure or fault, as
    the stream delivered in one chunk, provided the first non-empty chunk
    holds at least the 5 bytes of the record header. *)
Theorem chunking_invariance cfg pre c1 rest :
  state cfg = STATE_START ->
  Forall (fun c => c = []) pre ->
  (5 <= List.length c1)%nat ->
  feed cfg (pre ++ c1 :: rest) = feed cfg [List.concat (pre ++ c1 :: rest)].
Proof.
  intros Hs Hpre Hlen.
  rewrite (feed_empty_chunks pre) by exact Hpre.
  rewrite (concat_empty_chunks pre) by exact Hpre.
  cbn [List.concat]. rewrite feed_single, feed_cons.
  destruct c1 as [|first [|v0 [|v1 [|l0 [|l1 r1]]]]];
    try (cbn [List.length] in Hlen; lia).
  set (c1 := first :: v0 :: v1 :: l0 :: l1 :: r1) in *.
  assert (Hne : c1 <> []) by discriminate.
  destruct (record_header cfg c1) as [rc c|c r'] eqn:Hh.
  - pose proof (record_header_return _ _ _ _ Hh) as Hrc. subst rc.
    unfold push at 1.
    rewrite (in_filter_header_reject cfg c1 c Hs Hne Hh). cbn [bind].
    rewrite feed_goaway by reflexivity.
    symmetry. apply in_filter_header_reject; [exact Hs|discriminate|].
    apply record_header_return_app. exact Hh.
  - pose proof (record_header_buffering _ _ _ _ Hne Hh) as Hw.
    rewrite (push_header cfg c1 c r' Hs Hne Hh).
    rewrite <- feed_cons.
    rewrite feed_concat by (left; exact Hw).
    cbn [List.concat]. symmetry.
    apply push_header; [exact Hs|discriminate|].
    apply record_header_app; [exact Hne|exact Hh].
Qed.

(** C2 on the sample record: an empty chunk, the header with two bytes of
    the body, another empty chunk, the rest. *)
Lemma chunking_invariance_witness :
  feed cfg_init
    ([[]] ++ firstn 7 sample_record :: [[]; skipn 7 sample_record]) =
  feed cfg_init
    [List.concat
       ([[]] ++ firstn 7 sample_record :: [[]; skipn 7 sample_record])].
Proof.
  apply (chunking_invariance cfg_init [[]] (firstn 7 sample_record)
           [[]; skipn 7 sample_record]).
  - reflexivity.
  - constructor; [reflexivity|constructor].
  - vm_compute. lia.
Defined.

(** C2 as stated fails: the sample record delivered one byte per chunk
    leaves no parsed hello behind, the same bytes in one chunk do. *)
Lemma bytewise_chunks_lose_the_hello :
  List.concat sample_record_bytewise = sample_record
  /\ feed cfg_init sample_record_bytewise <> feed cfg_init [sample_record]
  /\ (exists cfg',
        feed cfg_init sample_record_bytewise = Ok cfg'
        /\ state cfg' = STATE_GOAWAY
        /\ tsuites cfg' = None
        /\ tprotocol cfg' = None)
  /\ (exists cfg',
        feed cfg_init [sample_record] = Ok cfg'
        /\ state cfg' = STATE_GOAWAY
        /\ tsuites cfg' = Some "c02f,35"%string
        /\ tprotocol cfg' = Some "3.3"%string).
Proof.
  split; [reflexivity|split; [|split]].
  - vm_compute. discriminate.
  - eexists. split; [vm_compute; reflexivity|]. repeat split; reflexivity.
  - eexists. split; [vm_compute; reflexivity|]. repeat split; reflexivity.
Qed.

(** ** The SSLv2 decoder *)

Lemma string_app_assoc (a b c : string) :
  ((a ++ b) ++ c)%string = (a ++ (b ++ c))%string.
Proof.
  induction a as [|x a IH]; cbn; [reflexivity|]. rewrite IH. reflexivity.
Qed.

Lemma string_app_nil_r (a : string) : (a ++ "")%string = a.
Proof.
  induction a as [|x a IH]; cbn; [reflexivity|]. rewrite IH. reflexivity.
Qed.

Lemma c2x_spec_hex (b : byte) : c2x (u8 b) = spec_hex b.
Proof. destruct b; reflexivity. Qed.

Lemma read_buf_nth cfg bs k x :
  buf cfg = Some bs ->
  nth_error bs k = Some x ->
  read_buf cfg (Z.of_nat k) = Ok (u8 x).
Proof.
  intros Hb Hn. unfold read_buf, read. rewrite Hb.
  replace (Z.of_nat k <? 0) with false by (symmetry; apply Z.ltb_ge; lia).
  rewrite Nat2Z.id, Hn. reflexivity.
Qed.

(** Reading the byte at offset [d] behind a prefix [pre]. *)
Lemma read_buf_at cfg pre post d x :
  buf cfg = Some (pre ++ post) ->
  nth_error post d = Some x ->
  read_buf cfg (Z.of_nat (List.length pre) + Z.of_nat d) = Ok (u8 x).
Proof.
  intros Hb Hn. rewrite <- Nat2Z.inj_add.
  apply (read_buf_nth cfg (pre ++ post)); [exact Hb|].
  rewrite nth_error_app2 by lia.
  replace (List.length pre + d - List.length pre)%nat with d by lia.
  exact Hn.
Qed.

Lemma hex_copy_ok n :
  forall cfg pre post q,
    buf cfg = Some (pre ++ post) ->
    (n <= List.length post)%nat ->
    exists q', hex_copy n cfg (Z.of_nat (List.length pre)) q = Ok q'.
Proof.
  induction n as [|n IH]; intros cfg pre post q Hb Hn; cbn [hex_copy].
  - eexists. reflexivity.
  - destruct post as [|x post]; [cbn in Hn; lia|].
    pose proof (read_buf_at cfg pre (x :: post) 0 x Hb eq_refl) as Hr.
    rewrite Z.add_0_r in Hr. rewrite Hr. cbn [bind].
    replace (Z.of_nat (List.length pre) + 1)
      with (Z.of_nat (List.length (pre ++ [x])))
      by (rewrite length_app; cbn [List.length]; lia).
    apply (IH cfg (pre ++ [x]) post).
    + rewrite <- app_assoc. exact Hb.
    + cbn in Hn. lia.
Qed.

Lemma v2_suites_loop_spec n :
  forall cfg pre region q,
    buf cfg = Some (pre ++ region) ->
    (3 * n <= List.length region)%nat ->
    v2_suites_loop n cfg (Z.of_nat (List.length pre)) q =
      Ok (join_onto q (map spec_v2_token (spec_triplets n region))).
Proof.
  induction n as [|n IH]; intros cfg pre region q Hb Hn.
  - reflexivity.
  - destruct region as [|b0 [|b1 [|b2 region]]]; try (cbn in Hn; lia).
    cbn [v2_suites_loop spec_triplets map join_onto fold_left].
    pose proof (read_buf_at cfg pre _ 0 b0 Hb eq_refl) as H0.
    pose proof (read_buf_at cfg pre _ 1 b1 Hb eq_refl) as H1.
    pose proof (read_buf_at cfg pre _ 2 b2 Hb eq_refl) as H2.
    rewrite Z.add_0_r in H0. cbn [Z.of_nat Pos.of_succ_nat Pos.succ] in H1, H2.
    rewrite H0. cbn [bind].
    assert (Hnext :
      forall q',
        v2_suites_loop n cfg (Z.of_nat (List.length pre) + 3) q' =
          Ok (join_onto q' (map spec_v2_token (spec_triplets n region)))).
    { intros q'.
      replace (Z.of_nat (List.length pre) + 3)
        with (Z.of_nat (List.length (pre ++ [b0; b1; b2])))
        by (rewrite length_app; cbn [List.length]; lia).
      apply IH.
      - rewrite <- app_assoc. exact Hb.
      - cbn in Hn. lia. }
    unfold spec_v2_token at 2.
    destruct (negb (u8 b0 =? 0)).
    + rewrite H1. cbn [bind]. rewrite H2. cbn [bind].
      rewrite Hnext. rewrite !c2x_spec_hex, !string_app_assoc. reflexivity.
    + rewrite H1. cbn [bind].
      destruct (negb (u8 b1 =? 0)); cbn [bind]; rewrite H2; cbn [bind];
        rewrite Hnext; rewrite !c2x_spec_hex, ?string_app_assoc; reflexivity.
Qed.

Lemma spec_triplets_length n :
  forall region,
    (3 * n <= List.length region)%nat ->
    List.length (spec_triplets n region) = n.
Proof.
  induction n as [|n IH]; intros region Hn; [reflexivity|].
  destruct region as [|b0 [|b1 [|b2 region]]]; try (cbn in Hn; lia).
  cbn [spec_triplets List.length]. f_equal. apply IH. cbn in Hn. lia.
Qed.

Lemma spec_v2_token_nonempty t : spec_v2_token t <> EmptyString.
Proof.
  destruct t as [[b0 b1] b2]. unfold spec_v2_token, spec_hex.
  destruct (negb (u8 b0 =? 0)); [discriminate|].
  destruct (negb (u8 b1 =? 0)); discriminate.
Qed.

Lemma join_onto_nonempty tokens :
  forall q,
    q <> EmptyString ->
    join_onto q tokens =
      match tokens with
      | [] => q
      | _ => (q ++ "," ++ String.concat "," tokens)%string
      end.
Proof.
  induction tokens as [|t ts IH]; intros q Hq; [reflexivity|].
  cbn [join_onto fold_left].
  change (fold_left _ ts ?x) with (join_onto x ts).
  assert (Hc : comma q = (q ++ ",")%string) by (destruct q; [contradiction|reflexivity]).
  rewrite Hc. rewrite IH by (destruct q; [contradiction|discriminate]).
  destruct ts as [|t' ts].
  - cbn [String.concat]. rewrite string_app_assoc. reflexivity.
  - cbn [String.concat]. rewrite !string_app_assoc. reflexivity.
Qed.

Lemma join_onto_empty tokens :
  Forall (fun t => t <> EmptyString) tokens ->
  join_onto EmptyString tokens = String.concat "," tokens.
Proof.
  intros Hall. destruct tokens as [|t ts]; [reflexivity|].
  inversion Hall as [|? ? Ht Hts]; subst.
  cbn [join_onto fold_left comma String.append].
  change (fold_left _ ts ?x) with (join_onto x ts).
  rewrite join_onto_nonempty by exact Ht.
  destruct ts; reflexivity.
Qed.

(** C6.  For a fully buffered SSLv2 ClientHello body whose declared
    cipher-spec length [L] (its first two bytes, big-endian) fits in what
    follows the 6 length bytes, [decode_packet_v2] returns 1 having taken
    exactly [L / 3] suites (a remainder is dropped, not an error): the suite
    text is the comma-joined tokens of the first [L / 3] triplets in order,
    each rendered as the specification says, and the handshake and protocol
    texts are the decimal renderings of the hello version and of the
    version bytes.  The Google-bot-like hello gives the suites
    [04,010080,05,0a], handshake [2] and protocol [3.1]. *)
Theorem v2_suites_extracted :
  (forall cfg l0 l1 s0 s1 c0 c1 region,
     buf cfg = Some (l0 :: l1 :: s0 :: s1 :: c0 :: c1 :: region) ->
     buf_len cfg = 6 + Z.of_nat (List.length region) ->
     u8 l0 * 256 + u8 l1 <= Z.of_nat (List.length region) ->
     exists cfg',
       decode_packet_v2 cfg = Ok (1, cfg')
       /\ slen cfg' = (u8 l0 * 256 + u8 l1) / 3
       /\ List.length (spec_v2_suites (u8 l0 * 256 + u8 l1) region) =
            Z.to_nat ((u8 l0 * 256 + u8 l1) / 3)
       /\ tsuites cfg' =
            Some (String.concat ","
                    (spec_v2_suites (u8 l0 * 256 + u8 l1) region))
       /\ thandshake cfg' = Some (fmt_d (hello_version cfg))
       /\ tprotocol cfg' =
            Some (fmt_d (protocol_high cfg) ++ "."
                  ++ fmt_d (protocol_low cfg))%string)
  /\ (exists cfg',
        feed cfg_init [google_hello] = Ok cfg'
        /\ slen cfg' = 4
        /\ tsuites cfg' = Some "04,010080,05,0a"%string
        /\ thandshake cfg' = Some "2"%string
        /\ tprotocol cfg' = Some "3.1"%string).
Proof.
  split.
  - intros cfg l0 l1 s0 s1 c0 c1 region Hb Hlen HL.
    set (L := u8 l0 * 256 + u8 l1) in *.
    assert (HL0 : 0 <= L)
      by (pose proof (u8_range l0); pose proof (u8_range l1); unfold L; lia).
    assert (Hcount : (3 * Z.to_nat (L / 3) <= List.length region)%nat).
    { pose proof (Z.mul_div_le L 3 ltac:(lia)).
      pose proof (Z.div_pos L 3 HL0 ltac:(lia)). lia. }
    unfold decode_packet_v2. cbv zeta.
    match goal with
    | |- context [hex_copy ?n ?c ?p ?q] =>
        destruct (hex_copy_ok n c [] (l0 :: l1 :: s0 :: s1 :: c0 :: c1 :: region)
                    q Hb) as [raw Hraw]
    end.
    { rewrite Hlen. cbn [List.length]. lia. }
    cbn [List.length Z.of_nat] in Hraw. rewrite Hraw. cbn [bind].
    cbn [buf_len set_client_hello].
    replace (buf_len cfg <? 6) with false by (symmetry; apply Z.ltb_ge; lia).
    assert (R0 : forall c, buf c = buf cfg -> read_buf c 0 = Ok (u8 l0))
      by (intros c Hc; unfold read_buf; rewrite Hc, Hb; reflexivity).
    assert (R1 : forall c, buf c = buf cfg -> read_buf c 1 = Ok (u8 l1))
      by (intros c Hc; unfold read_buf; rewrite Hc, Hb; reflexivity).
    rewrite R0 by reflexivity. cbn [bind].
    rewrite R1 by reflexivity. cbn [bind].
    fold L.
    replace (buf_len cfg - 6 <? L) with false
      by (symmetry; apply Z.ltb_ge; lia).
    match goal with
    | |- context [v2_suites_loop ?n ?c 6 ?q] =>
        pose proof (v2_suites_loop_spec n c [l0; l1; s0; s1; c0; c1] region q
                      Hb Hcount) as Hloop
    end.
    cbn [List.length Z.of_nat Pos.of_succ_nat Pos.succ] in Hloop.
    rewrite Hloop. cbn [bind].
    eexists. split; [reflexivity|].
    split; [reflexivity|].
    split.
    { unfold spec_v2_suites. rewrite length_map.
      apply spec_triplets_length. exact Hcount. }
    split.
    { cbn [tsuites set_tsuites]. f_equal. apply join_onto_empty.
      unfold spec_v2_suites. apply Forall_forall. intros t Ht.
      apply in_map_iff in Ht. destruct Ht as (x & Hx & _). subst t.
      apply spec_v2_token_nonempty. }
    split; reflexivity.
  - eexists. split; [vm_compute; reflexivity|].
    repeat split; reflexivity.
Qed.

(** C6 on a body whose cipher-spec length 7 is no multiple of 3: two
    suites are taken, the seventh byte is dropped. *)
Lemma v2_suites_extracted_witness :
  exists cfg',
    decode_packet_v2
      (set_buf (Some (bytes_of [0; 7; 0; 0; 0; 0; 7; 0; 192; 0; 0; 10; 99]))
         (set_buf_len 13 (set_protocol_low 2 (set_protocol_high 3
            (set_hello_version 2 cfg_init))))) = Ok (1, cfg')
    /\ slen cfg' = 2
    /\ tsuites cfg' = Some "0700c0,0a"%string
    /\ thandshake cfg' = Some "2"%string
    /\ tprotocol cfg' = Some "3.2"%string.
Proof.
  destruct v2_suites_extracted as [Hgen _].
  destruct (Hgen
              (set_buf (Some (bytes_of [0; 7; 0; 0; 0; 0; 7; 0; 192; 0; 0; 10; 99]))
                 (set_buf_len 13 (set_protocol_low 2 (set_protocol_high 3
                    (set_hello_version 2 cfg_init)))))
              (byte_of_Z 0) (byte_of_Z 7) (byte_of_Z 0) (byte_of_Z 0)
              (byte_of_Z 0) (byte_of_Z 0)
              (bytes_of [7; 0; 192; 0; 0; 10; 99])
              eq_refl eq_refl ltac:(vm_compute; discriminate))
    as (cfg' & Hd & Hs & _ & Ht & Hh & Hp).
  exists cfg'. split; [exact Hd|].
  split; [exact Hs|]. split; [exact Ht|]. split; [exact Hh|exact Hp].
Defined.

(** ** The protocol version *)

(** Walks through the binds and tests of a computation known to end in
    [Ok]. *)
Ltac walk_ok :=
  repeat match goal with
    | |- bind ?m _ = Ok _ -> _ =>
        let E := fresh "E" in
        destruct m eqn:E; cbn [bind]; [|discriminate]
    | |- (if ?b then _ else _) = Ok _ -> _ => destruct b eqn:?
    | |- (match ?x with pair _ _ => _ end) = Ok _ -> _ => destruct x
    end.

Lemma v3_extensions_loop_version fuel :
  forall cfg p elen q cfg' q',
    v3_extensions_loop fuel cfg p elen q = Ok (cfg', q') ->
    same_version cfg cfg'.
Proof.
  induction fuel as [|fuel IH]; intros cfg p elen q cfg' q';
    cbn [v3_extensions_loop]; destruct (elen >? 0).
  - discriminate.
  - intros H. inversion H. subst. repeat split.
  - cbv zeta. walk_ok; intros H; apply IH in H; exact H.
  - intros H. inversion H. subst. repeat split.
Qed.

Lemma v3_extensions_version cfg p mylen rc cfg' :
  v3_extensions cfg p mylen = Ok (rc, cfg') -> same_version cfg cfg'.
Proof.
  unfold v3_extensions. cbv zeta. walk_ok.
  - intros H; inversion H; subst. repeat split.
  - intros H; inversion H; subst. repeat split.
  - apply v3_extensions_loop_version in E1.
    intros H; inversion H; subst. exact E1.
Qed.

Lemma v3_compression_version cfg p mylen rc cfg' :
  v3_compression cfg p mylen = Ok (rc, cfg') -> same_version cfg cfg'.
Proof.
  unfold v3_compression. cbv zeta. walk_ok.
  - intros H; inversion H; subst. repeat split.
  - intros H; inversion H; subst. repeat split.
  - intros H; inversion H; subst. repeat split.
  - intros H. apply v3_extensions_version in H. exact H.
Qed.

Lemma decode_packet_v3_handshake_version cfg rc cfg' :
  decode_packet_v3_handshake cfg = Ok (rc, cfg') ->
  read_buf cfg 0 = Ok 1 ->
  rc = 1 ->
  exists ph pl,
    read_buf cfg 4 = Ok ph
    /\ read_buf cfg 5 = Ok pl
    /\ protocol_high cfg' = ph
    /\ protocol_low cfg' = pl
    /\ tprotocol cfg' = Some (fmt_d ph ++ "." ++ fmt_d pl)%string.
Proof.
  intros Hd H0 Hrc. revert Hd.
  unfold decode_packet_v3_handshake. cbv zeta.
  rewrite H0. cbn [bind]. change (negb (1 =? 1)) with false. cbv iota.
  walk_ok; try (intros H; inversion H; subst; discriminate).
  intros H. apply v3_compression_version in H.
  destruct H as (A & B & C). cbn in A, B, C.
  exists a3, a4. repeat split; assumption.
Qed.

(** C8.  In the header of an SSLv3+ record the version bytes are stored
    only while [protocol_high] is still 0, that is, while no version has
    been stored.  For every ClientHello that [decode_packet_v3_handshake]
    parses to the end (it returns 1 on a message of type 1), the two bytes
    behind the 4-byte message header are what the structure holds as
    version afterwards, and the published protocol text is their decimal
    rendering, whatever the record header announced. *)
Theorem inner_version_wins :
  (forall cfg first v0 v1 l0 l1 rest,
     state cfg = STATE_START ->
     u8 first = 22 ->
     0 < u8 l0 * 256 + u8 l1 <= 16384 ->
     exists cfg',
       record_header cfg (first :: v0 :: v1 :: l0 :: l1 :: rest) =
         Continue cfg' rest
       /\ (protocol_high cfg = 0 ->
           protocol_high cfg' = u8 v0 /\ protocol_low cfg' = u8 v1)
       /\ (protocol_high cfg <> 0 ->
           protocol_high cfg' = protocol_high cfg
           /\ protocol_low cfg' = protocol_low cfg))
  /\ (forall cfg rc cfg',
        decode_packet_v3_handshake cfg = Ok (rc, cfg') ->
        read_buf cfg 0 = Ok 1 ->
        rc = 1 ->
        exists ph pl,
          read_buf cfg 4 = Ok ph
          /\ read_buf cfg 5 = Ok pl
          /\ protocol_high cfg' = ph
          /\ protocol_low cfg' = pl
          /\ tprotocol cfg' = Some (fmt_d ph ++ "." ++ fmt_d pl)%string).
Proof.
  split.
  - intros cfg first v0 v1 l0 l1 rest Hs Hf Hlen.
    pose proof (record_header_v3 cfg first v0 v1 l0 l1 rest Hs Hf) as Hh.
    cbv zeta in Hh. unfold BUF_LIMIT in Hh.
    rewrite limit_test_false in Hh by exact Hlen.
    eexists. split; [exact Hh|].
    destruct (protocol_high cfg =? 0) eqn:Hp.
    + apply Z.eqb_eq in Hp. split; [intros _; split; reflexivity|].
      intros Hn. contradiction.
    + apply Z.eqb_neq in Hp. split; [intros Hz; contradiction|].
      intros _. split; reflexivity.
  - apply decode_packet_v3_handshake_version.
Qed.

(** C8 on the sample record, which announces 3.1 outside and 3.3 inside:
    a fresh connection stores 3.1 from the header, a second header would
    not replace it, and the decoded hello publishes 3.3. *)
Lemma inner_version_wins_witness :
  (exists cfg',
     record_header cfg_init (bytes_of [22; 3; 1; 0; 69]) = Continue cfg' []
     /\ protocol_high cfg' = 3 /\ protocol_low cfg' = 1)
  /\ (exists cfg',
        record_header (set_protocol_high 3 (set_protocol_low 1 cfg_init))
          (bytes_of [22; 3; 4; 0; 69]) = Continue cfg' []
        /\ protocol_high cfg' = 3 /\ protocol_low cfg' = 1)
  /\ (exists cfg',
        decode_packet_v3_handshake
          (set_buf (Some (bytes_of sample_hello))
             (set_buf_len 69 (set_hello_version 3
                (set_protocol_high 3 (set_protocol_low 1 cfg_init))))) =
          Ok (1, cfg')
        /\ protocol_high cfg' = 3
        /\ protocol_low cfg' = 3
        /\ tprotocol cfg' = Some "3.3"%string).
Proof.
  destruct inner_version_wins as [Houter Hinner].
  split; [|split].
  - destruct (Houter cfg_init (byte_of_Z 22) (byte_of_Z 3) (byte_of_Z 1)
                (byte_of_Z 0) (byte_of_Z 69) [] eq_refl eq_refl
                ltac:(vm_compute; split; [reflexivity|discriminate]))
      as (cfg' & Hh & Hz & _).
    exists cfg'. split; [exact Hh|]. apply Hz. reflexivity.
  - destruct (Houter (set_protocol_high 3 (set_protocol_low 1 cfg_init))
                (byte_of_Z 22) (byte_of_Z 3) (byte_of_Z 4)
                (byte_of_Z 0) (byte_of_Z 69) [] eq_refl eq_refl
                ltac:(vm_compute; split; [reflexivity|discriminate]))
      as (cfg' & Hh & _ & Hn).
    exists cfg'. split; [exact Hh|]. apply Hn. discriminate.
  - eexists. split; [vm_compute; reflexivity|].
    destruct (Hinner
                (set_buf (Some (bytes_of sample_hello))
                   (set_buf_len 69 (set_hello_version 3
                      (set_protocol_high 3 (set_protocol_low 1 cfg_init)))))
                1 _ ltac:(vm_compute; reflexivity) eq_refl eq_refl)
      as (ph & pl & H4 & H5 & Hph & Hpl & Htp).
    vm_compute in H4, H5.
    injection H4 as E4. injection H5 as E5.
    rewrite <- E4, <- E5 in Htp. rewrite <- E4 in Hph. rewrite <- E5 in Hpl.
    split; [exact Hph|]. split; [exact Hpl|exact Htp].
Defined.

(** ** Where the code falls short *)

(** C1.  The lengths inside the extensions block are not checked.  On a
    ClientHello whose supported-groups extension declares a 4-byte list at
    the very end of the record, every enclosing length being consistent,
    [decode_packet_v3_handshake] does not fail: it reads behind the record
    buffer, and so does the whole path from the filter.  The same happens
    for an EC-point-formats list length of 5 at the end of the record and
    for an extensions block of a single byte.  On a ClientHello whose
    extension declares 256 bytes of data in a 4-byte extensions block the
    decoder returns 1, as for a well-formed message. *)
Theorem extension_lengths_unchecked :
  decode_packet_v3_handshake (buffered overlong_groups_hello) =
    Fault OutOfBoundsRead
  /\ feed cfg_init [handshake_record overlong_groups_hello] =
       Fault OutOfBoundsRead
  /\ decode_packet_v3_handshake (buffered overlong_point_formats_hello) =
       Fault OutOfBoundsRead
  /\ decode_packet_v3_handshake (buffered short_extensions_hello) =
       Fault OutOfBoundsRead
  /\ (exists cfg',
        decode_packet_v3_handshake (buffered overlong_extension_hello) =
          Ok (1, cfg')
        /\ extensions cfg' = Some "0023"%string
        /\ extensions_len cfg' = 1).
Proof.
  split; [vm_compute; reflexivity|].
  split; [vm_compute; reflexivity|].
  split; [vm_compute; reflexivity|].
  split; [vm_compute; reflexivity|].
  eexists. split; [vm_compute; reflexivity|]. split; reflexivity.
Qed.

(** C4.  The suite list of a ClientHello with 21 four-digit suites is 104
    characters long; [sslhaf_post_request] copies it with [strcpy] into a
    100-byte array, writing behind its end, instead of producing the
    decimal list.  A list of 20 such suites still fits the copy, but the
    decimal forms are then appended behind the end of the 100-byte output
    block. *)
Theorem long_list_overflows :
  (exists cfg',
     feed cfg_init [handshake_record many_suites_hello] = Ok cfg'
     /\ tsuites cfg' =
          Some ("c001,c002,c003,c004,c005,c006,c007,c008,c009,c00a,c00b,"
                ++ "c00c,c00d,c00e,c00f,c010,c011,c012,c013,c014,c015")%string
     /\ normalize (tsuites cfg') = Fault OutOfBoundsWrite
     /\ sslhaf_post_request cfg' = Fault OutOfBoundsWrite)
  /\ normalize
       (Some ("c001,c002,c003,c004,c005,c006,c007,c008,c009,c00a,c00b,"
              ++ "c00c,c00d,c00e,c00f,c010,c011,c012,c013,c014")%string) =
     Fault OutOfBoundsWrite.
Proof.
  split.
  - eexists. split; [vm_compute; reflexivity|].
    split; [reflexivity|]. split; vm_compute; reflexivity.
  - vm_compute. reflexivity.
Qed.

(** C5.  An absent list is a [NULL] pointer handed to [strcpy]: for a
    ClientHello without extensions, and for one with extensions but
    without EC point formats, [sslhaf_post_request] dereferences [NULL]
    instead of publishing an empty value.  An empty list makes the
    trailing-hyphen removal write in front of its buffer, and an empty EC
    point format list is published as [0]. *)
Theorem absent_list_dereferenced :
  (exists cfg',
     feed cfg_init [handshake_record plain_hello] = Ok cfg'
     /\ tsuites cfg' = Some "c02f,35"%string
     /\ extensions cfg' = None
     /\ curves cfg' = None
     /\ ec_point cfg' = None
     /\ sslhaf_post_request cfg' = Fault NullDereference)
  /\ (exists cfg',
        feed cfg_init
          [handshake_record
             (hello_prefix 51
              ++ [0; 2; 0; 53; 1; 0; 0; 8; 0; 10; 0; 4; 0; 2; 0; 29])] =
          Ok cfg'
        /\ extensions cfg' = Some "000a"%string
        /\ curves cfg' = Some "001d"%string
        /\ ec_point cfg' = None
        /\ sslhaf_post_request cfg' = Fault NullDereference)
  /\ normalize None = Fault NullDereference
  /\ normalize_ec_point None = Fault NullDereference
  /\ normalize (Some EmptyString) = Fault OutOfBoundsWrite
  /\ normalize_ec_point (Some EmptyString) = Ok "0"%string.
Proof.
  split; [|split].
  - eexists. split; [vm_compute; reflexivity|].
    repeat split; vm_compute; reflexivity.
  - eexists. split; [vm_compute; reflexivity|].
    repeat split; vm_compute; reflexivity.
  - repeat split; vm_compute; reflexivity.
Qed.

(** ** The normaliser within its buffers *)

Lemma string_length_app (a b : string) :
  String.length (a ++ b) = (String.length a + String.length b)%nat.
Proof.
  induction a as [|x a IH]; cbn; [reflexivity|]. rewrite IH. reflexivity.
Qed.

Lemma grease_table_spec : grease_table = spec_grease.
Proof. reflexivity. Qed.

Lemma spec_hex_value_from_acc s :
  forall acc,
    spec_hex_value_from acc s =
      acc * 16 ^ Z.of_nat (String.length s) + spec_hex_value_from 0 s.
Proof.
  induction s as [|c s IH]; intros acc.
  - cbn. lia.
  - cbn [spec_hex_value_from String.length].
    rewrite IH. rewrite (IH (0 * 16 + spec_digit c)).
    rewrite Nat2Z.inj_succ, Z.pow_succ_r by lia. lia.
Qed.

Lemma is_hex_char_range c :
  is_hex_char c = true ->
  48 <= char_code c <= 57 \/ 97 <= char_code c <= 102.
Proof.
  unfold is_hex_char. rewrite orb_true_iff, !andb_true_iff, !Z.leb_le. tauto.
Qed.

Lemma spec_digit_nonneg c : is_hex_char c = true -> 0 <= spec_digit c.
Proof.
  intros H. apply is_hex_char_range in H. unfold spec_digit.
  destruct (char_code c <=? 57) eqn:E.
  - apply Z.leb_le in E. lia.
  - apply Z.leb_gt in E. lia.
Qed.

Lemma spec_hex_value_from_nonneg s :
  all_hex s = true -> 0 <= spec_hex_value_from 0 s.
Proof.
  induction s as [|c s IH]; intros H; cbn [spec_hex_value_from]; [lia|].
  cbn [all_hex] in H. apply andb_true_iff in H. destruct H as [Hc Hs].
  rewrite spec_hex_value_from_acc.
  pose proof (spec_digit_nonneg c Hc). specialize (IH Hs).
  assert (0 <= 16 ^ Z.of_nat (String.length s)) by (apply Z.pow_nonneg; lia).
  nia.
Qed.

(** The loop of [str_to_dec] adds up the value of a hex string. *)
Lemma str_to_dec_loop_spec s :
  forall cur res,
    all_hex s = true ->
    0 <= res ->
    res + spec_hex_value_from 0 s <= INT_MAX ->
    str_to_dec_loop s cur res (Z.of_nat (String.length s) - 1) =
      Ok (res + spec_hex_value_from 0 s).
Proof.
  induction s as [|c s IH]; intros cur res Hhex Hres Hmax.
  - cbn. f_equal. lia.
  - cbn [all_hex] in Hhex. apply andb_true_iff in Hhex.
    destruct Hhex as [Hc Hs].
    cbn [str_to_dec_loop String.length spec_hex_value_from] in *.
    rewrite spec_hex_value_from_acc in Hmax |- *.
    replace (Z.of_nat (S (String.length s)) - 1)
      with (Z.of_nat (String.length s)) by lia.
    pose proof (spec_digit_nonneg c Hc) as Hd.
    pose proof (spec_hex_value_from_nonneg s Hs) as Hv.
    assert (Hp : 0 <= 16 ^ Z.of_nat (String.length s))
      by (apply Z.pow_nonneg; lia).
    assert (Hcur :
      (if (48 <=? char_code c) && (char_code c <=? 57) then char_code c - 48
       else if (97 <=? char_code c) && (char_code c <=? 102)
            then char_code c - 87 else cur) = spec_digit c).
    { pose proof (is_hex_char_range c Hc) as Hr. unfold spec_digit.
      destruct (char_code c <=? 57) eqn:E1.
      - apply Z.leb_le in E1.
        replace (48 <=? char_code c) with true
          by (symmetry; apply Z.leb_le; lia).
        reflexivity.
      - apply Z.leb_gt in E1. rewrite andb_false_r.
        replace (97 <=? char_code c) with true
          by (symmetry; apply Z.leb_le; lia).
        replace (char_code c <=? 102) with true
          by (symmetry; apply Z.leb_le; lia).
        reflexivity. }
    rewrite Hcur.
    replace (res + spec_digit c * 16 ^ Z.of_nat (String.length s) >? INT_MAX)
      with false
      by (symmetry; rewrite Z.gtb_ltb; apply Z.ltb_ge; nia).
    rewrite IH; [f_equal; lia|exact Hs|nia|nia].
Qed.

(** A token whose decimal form has at most 8 digits is converted in full. *)
Lemma str_to_dec_spec t :
  all_hex t = true ->
  spec_hex_value t <= INT_MAX ->
  (String.length (fmt_d (spec_hex_value t)) <= 8)%nat ->
  str_to_dec t = Ok (fmt_d (spec_hex_value t) ++ "-")%string.
Proof.
  intros Hhex Hmax Hlen. unfold str_to_dec.
  rewrite str_to_dec_loop_spec by (assumption || lia || exact Hmax).
  cbn [bind Z.add]. fold (spec_hex_value t).
  replace (10 <? Z.of_nat (String.length (fmt_d (spec_hex_value t) ++ "-")) + 1)
    with false; [reflexivity|].
  symmetry. apply Z.ltb_ge. rewrite string_length_app. cbn [String.length]. lia.
Qed.

Lemma hex_char_not_comma c : is_hex_char c = true -> Ascii.eqb c "," = false.
Proof.
  intros H. destruct (Ascii.eqb_spec c ","%char) as [E|E]; [|reflexivity].
  subst c. discriminate H.
Qed.

Lemma strtok_from_token t :
  forall tok rest,
    all_hex t = true ->
    strtok_from (t ++ rest) tok = strtok_from rest (tok ++ t).
Proof.
  induction t as [|c t IH]; intros tok rest Hhex.
  - cbn [String.append]. rewrite string_app_nil_r. reflexivity.
  - cbn [all_hex] in Hhex. apply andb_true_iff in Hhex.
    destruct Hhex as [Hc Ht].
    cbn [String.append strtok_from]. rewrite (hex_char_not_comma c Hc).
    rewrite IH by exact Ht. rewrite string_app_assoc. reflexivity.
Qed.

Lemma is_hex_token_parts t :
  is_hex_token t = true -> t <> EmptyString /\ all_hex t = true.
Proof.
  unfold is_hex_token. intros H. apply andb_true_iff in H.
  destruct H as [Hne Hhex]. split; [|exact Hhex].
  intros E. subst t. discriminate Hne.
Qed.

(** [strtok] takes a comma-joined list of tokens apart again. *)
Lemma strtok_all_concat ts :
  Forall (fun t => is_hex_token t = true) ts ->
  strtok_all (String.concat "," ts) = ts.
Proof.
  induction 1 as [|t ts Ht Hts IH]; [reflexivity|].
  destruct (is_hex_token_parts t Ht) as [Hne Hhex].
  unfold strtok_all in *. destruct ts as [|t' ts].
  - cbn [String.concat].
    rewrite <- (string_app_nil_r t) at 1.
    rewrite strtok_from_token by exact Hhex.
    cbn [String.append strtok_from]. destruct t; [contradiction|reflexivity].
  - change (String.concat "," (t :: t' :: ts))
      with (t ++ String "," (String.concat "," (t' :: ts)))%string.
    rewrite strtok_from_token by exact Hhex.
    cbn [String.append strtok_from Ascii.eqb Bool.eqb].
    rewrite IH. destruct t; [contradiction|reflexivity].
Qed.

Lemma string_cat_length_le (x : string) (l : list string) (out : string) :
  (String.length (out ++ x)
   <= String.length (out ++ string_cat (x :: l)))%nat.
Proof.
  cbn [string_cat fold_right]. rewrite !string_length_app. lia.
Qed.

Lemma grease_loop_spec ts :
  forall out,
    Forall convertible ts ->
    (String.length (out ++ string_cat (converted ts)) < 100)%nat ->
    grease_loop ts out = Ok (out ++ string_cat (converted ts))%string.
Proof.
  induction ts as [|t ts IH]; intros out Hall Hlen.
  - cbn. rewrite string_app_nil_r. reflexivity.
  - inversion Hall as [|? ? Ht Hts]; subst.
    destruct Ht as (Htok & Hmax & Hdig).
    destruct (is_hex_token_parts t Htok) as [_ Hhex].
    cbn [grease_loop]. unfold converted in *. cbn [filter] in *.
    destruct (in_grease_table t); cbn [negb map bind] in *.
    + apply IH; assumption.
    + rewrite (str_to_dec_spec t Hhex Hmax Hdig). cbn [bind].
      unfold strcat_100. cbv zeta.
      pose proof (string_cat_length_le
                    (fmt_d (spec_hex_value t) ++ "-")
                    (map (fun t => (fmt_d (spec_hex_value t) ++ "-")%string)
                       (filter (fun t => negb (in_grease_table t)) ts))
                    out) as Hle.
      replace (100 <? Z.of_nat (String.length
                 (out ++ fmt_d (spec_hex_value t) ++ "-")) + 1)
        with false by (symmetry; apply Z.ltb_ge; lia).
      cbn [bind]. rewrite IH.
      * cbn [string_cat fold_right]. rewrite !string_app_assoc. reflexivity.
      * exact Hts.
      * cbn [string_cat fold_right] in Hlen.
        rewrite !string_app_assoc in *. exact Hlen.
Qed.

Lemma drop_last_app (a b : string) :
  b <> EmptyString -> drop_last (a ++ b) = (a ++ drop_last b)%string.
Proof.
  intros Hb. induction a as [|x a IH]; [reflexivity|].
  cbn [String.append drop_last]. rewrite IH.
  destruct (a ++ b)%string eqn:E; [|reflexivity].
  destruct a; cbn in E; [contradiction|discriminate].
Qed.

Lemma drop_last_hyphens (ds : list string) :
  drop_last (string_cat (map (fun d => (d ++ "-")%string) ds)) =
    String.concat "-" ds.
Proof.
  induction ds as [|d ds IH]; [reflexivity|].
  cbn [map string_cat fold_right]. fold (string_cat (map (fun d => (d ++ "-")%string) ds)).
  destruct ds as [|d' ds].
  - cbn [map string_cat fold_right String.concat].
    rewrite string_app_nil_r. rewrite drop_last_app by discriminate.
    cbn [drop_last]. apply string_app_nil_r.
  - rewrite drop_last_app.
    + rewrite IH. rewrite string_app_assoc. reflexivity.
    + cbn [map string_cat fold_right]. destruct d'; discriminate.
Qed.

(** Within the buffers the normaliser does what the specification says:
    for a comma-joined list of tokens that fits the 100-byte copy, whose
    tokens are hex numbers of at most 8 decimal digits, not all of them
    GREASE, and whose normal form with the trailing hyphen fits the
    100-byte output block. *)
Lemma normalize_within_buffers ts :
  Forall convertible ts ->
  (String.length (String.concat "," ts) < 100)%nat ->
  filter (fun t => negb (in_grease_table t)) ts <> [] ->
  (String.length (spec_normalize ts) + 1 < 100)%nat ->
  normalize (Some (String.concat "," ts)) = Ok (spec_normalize ts).
Proof.
  intros Hall Hsrc Hkept Hout.
  assert (Htok : Forall (fun t => is_hex_token t = true) ts).
  { apply Forall_forall. intros t Ht.
    rewrite Forall_forall in Hall. apply (Hall t Ht). }
  assert (Hcat :
    drop_last (string_cat (converted ts)) = spec_normalize ts).
  { unfold converted, spec_normalize. rewrite <- grease_table_spec.
    change (fun t => negb (existsb (String.eqb t) grease_table))
      with (fun t => negb (in_grease_table t)).
    rewrite <- drop_last_hyphens. rewrite map_map. reflexivity. }
  assert (Hne : string_cat (converted ts) <> EmptyString).
  { unfold converted.
    destruct (filter (fun t => negb (in_grease_table t)) ts) as [|k ks];
      [contradiction|].
    cbn [map string_cat fold_right].
    destruct (fmt_d (spec_hex_value k)); discriminate. }
  assert (Hlen :
    (String.length (string_cat (converted ts)) < 100)%nat).
  { assert (E : String.length (string_cat (converted ts)) =
                S (String.length (drop_last (string_cat (converted ts))))).
    { generalize (string_cat (converted ts)) Hne. clear.
      intros s. induction s as [|c s IH]; intros Hne; [contradiction|].
      destruct s as [|c' s]; [reflexivity|].
      cbn [drop_last String.length]. f_equal.
      apply IH. discriminate. }
    rewrite E, Hcat. lia. }
  unfold normalize, strcpy_100.
  replace (100 <? Z.of_nat (String.length (String.concat "," ts)) + 1)
    with false by (symmetry; apply Z.ltb_ge; lia).
  cbn [bind]. rewrite (strtok_all_concat ts Htok).
  rewrite grease_loop_spec by (assumption || exact Hlen).
  cbn [bind String.append]. unfold chop_last.
  destruct (string_cat (converted ts)) eqn:E; [contradiction|].
  rewrite <- Hcat. reflexivity.
Qed.

(** The lemma at work: two suites around a GREASE value. *)
Example normalize_within_buffers_example :
  normalize (Some "c02f,0a0a,35"%string) = Ok "49199-53"%string.
Proof.
  apply (normalize_within_buffers ["c02f"; "0a0a"; "35"]%string).
  - repeat constructor; vm_compute; try reflexivity; try discriminate; lia.
  - vm_compute. lia.
  - discriminate.
  - vm_compute. lia.
Qed.

(** ** What the SSLv3+ decoder does check *)





(** A record cut short of the declared message length is turned down
    before anything is parsed: with fewer than 4 bytes by [-1], otherwise
    by [-2]. *)
Lemma truncated_message_rejected cfg bs :
  buf cfg = Some bs ->
  buf_len cfg = Z.of_nat (List.length bs) ->
  (forall b0 b1 b2 b3 rest,
     bs = b0 :: b1 :: b2 :: b3 :: rest ->
     u8 b0 = 1
     /\ Z.of_nat (List.length rest) < u8 b1 * 65536 + u8 b2 * 256 + u8 b3) ->
  decode_packet_v3_handshake cfg = Ok (-1, cfg)
  \/ decode_packet_v3_handshake cfg = Ok (-2, cfg).
Proof.
  intros Hb Hl Hmsg. unfold decode_packet_v3_handshake. cbv zeta.
  destruct (buf_len cfg <? 4) eqn:H4; [left; reflexivity|right].
  apply Z.ltb_ge in H4.
  destruct bs as [|b0 [|b1 [|b2 [|b3 rest]]]];
    try (cbn [List.length] in Hl; lia).
  destruct (Hmsg b0 b1 b2 b3 rest eq_refl) as [H0 Hml].
  pose proof (read_buf_nth cfg _ 0 b0 Hb eq_refl) as R0.
  pose proof (read_buf_nth cfg _ 1 b1 Hb eq_refl) as R1.
  pose proof (read_buf_nth cfg _ 2 b2 Hb eq_refl) as R2.
  pose proof (read_buf_nth cfg _ 3 b3 Hb eq_refl) as R3.
  cbn [Z.of_nat Pos.of_succ_nat Pos.succ] in R0, R1, R2, R3.
  rewrite R0, H0. cbn [bind]. change (negb (1 =? 1)) with false. cbv iota.
  rewrite R1. cbn [bind]. rewrite R2. cbn [bind]. rewrite R3. cbn [bind].
  replace (u8 b1 * 65536 + u8 b2 * 256 + u8 b3 >? buf_len cfg - 4) with true;
    [reflexivity|].
  symmetry. rewrite Z.gtb_ltb. apply Z.ltb_lt.
  rewrite Hl. cbn [List.length]. lia.
Qed.






(** * Further properties *)

(** ** What holds of every connection *)

(** What an accepted header in [STATE_START] leaves in the structure. *)
Lemma record_header_start cfg inputbuf cfg' rest :
  state cfg = STATE_START ->
  record_header cfg inputbuf = Continue cfg' rest ->
  inputbuf <> [] ->
  ((hello_version cfg' = 3 /\ buf_protocol cfg' = PROTOCOL_HANDSHAKE)
   \/ (hello_version cfg' = 2 /\ buf_to_go cfg' <= 252))
  /\ tsuites cfg' = tsuites cfg.
Proof.
  intros Hs Hh Hne. revert Hh. unfold record_header.
  destruct inputbuf as [|first r]; [contradiction|].
  rewrite Hs. cbn [conn_state_eqb andb].
  unfold PROTOCOL_APPLICATION, PROTOCOL_CHANGE_CIPHER_SPEC.
  destruct (u8 first =? PROTOCOL_HANDSHAKE) eqn:E22; cbn [negb andb orb].
  - apply Z.eqb_eq in E22.
    destruct r as [|v0 [|v1 [|l0 [|l1 r]]]]; try discriminate.
    match goal with
    | |- context [if ?b then Return _ _ else _] => destruct b
    end; [discriminate|].
    intros H. inversion H. subst. cbn.
    destruct (protocol_high cfg =? 0); cbn;
      (split; [left; split; [reflexivity|exact E22]|reflexivity]).
  - destruct (u8 first =? 128) eqn:E128; cbn [negb]; [|discriminate].
    apply Z.eqb_eq in E128. rewrite E128. cbn [Z.eqb Pos.eqb orb].
    destruct r as [|l [|mt [|v0 [|v1 r]]]]; try discriminate.
    destruct (negb (u8 mt =? 1)); [discriminate|].
    destruct (v2_length_cases l) as (Hbig & Heq & Hwrap).
    pose proof (u8_range l) as Hl.
    assert (HM : SIZE_T_MOD = 18446744073709551616) by reflexivity.
    destruct ((to_size_t (u8 l - 3) <=? 0)
              || (to_size_t (u8 l - 3) >? BUF_LIMIT)) eqn:Hlim;
      [discriminate|].
    apply orb_false_iff in Hlim. destruct Hlim as [H1 H2].
    apply Z.leb_gt in H1. rewrite Z.gtb_ltb in H2. apply Z.ltb_ge in H2.
    unfold BUF_LIMIT in H2.
    assert (Hgt : 3 < u8 l).
    { destruct (Z_lt_le_dec 3 (u8 l)) as [G|G]; [exact G|exfalso].
      destruct (Z.eq_dec (u8 l) 3) as [E|NE].
      - rewrite (Heq E) in H1. lia.
      - rewrite Hwrap in H2 by lia. lia. }
    intros H. inversion H. subst. cbn.
    destruct ((u8 v0 =? 0) && (u8 v1 =? 2)); cbn;
      (split; [right; split; [reflexivity|rewrite (Hbig Hgt); lia]
              |reflexivity]).
Qed.

Lemma record_header_return_buf cfg inputbuf rc cfg' :
  record_header cfg inputbuf = Return rc cfg' -> buf cfg' = buf cfg.
Proof.
  unfold record_header.
  destruct inputbuf as [|first r]; [discriminate|].
  destruct (conn_state_eqb (state cfg) STATE_START
            && negb (u8 first =? PROTOCOL_HANDSHAKE) && negb (u8 first =? 128));
    [intros H; inversion H; reflexivity|].
  destruct ((u8 first =? PROTOCOL_HANDSHAKE) || (u8 first =? PROTOCOL_APPLICATION)
            || (u8 first =? PROTOCOL_CHANGE_CIPHER_SPEC)).
  - destruct r as [|v0 [|v1 [|l0 [|l1 r]]]];
      try (intros H; inversion H; reflexivity).
    match goal with
    | |- context [if ?b then Return _ _ else _] => destruct b
    end; [|discriminate].
    intros H; inversion H. destruct (protocol_high _ =? 0); reflexivity.
  - destruct (u8 first =? 128); [|intros H; inversion H; reflexivity].
    destruct r as [|l [|mt [|v0 [|v1 r]]]];
      try (intros H; inversion H; reflexivity).
    destruct (negb (u8 mt =? 1)); [intros H; inversion H; reflexivity|].
    match goal with
    | |- context [if ?b then Return _ _ else _] => destruct b
    end; [|discriminate].
    intros H; inversion H.
    destruct ((u8 v0 =? 0) && (u8 v1 =? 2)); reflexivity.
Qed.

(** A partial copy keeps the buffer in order. *)
Lemma partial_buffer_ok cfg bs inputbuf :
  state cfg = STATE_BUFFER ->
  buffer_ok cfg ->
  buf cfg = Some bs ->
  Z.of_nat (List.length inputbuf) < buf_to_go cfg ->
  buffer_ok (partial cfg bs inputbuf)
  /\ buf_len (partial cfg bs inputbuf) + buf_to_go (partial cfg bs inputbuf) =
       buf_len cfg + buf_to_go cfg.
Proof.
  intros Hs (bs' & Hb & Hl & Hg & Hsum & Hv & Ht) Hbs Hlt.
  rewrite Hbs in Hb. inversion Hb. subst bs'.
  assert (HM : SIZE_T_MOD = 18446744073709551616) by reflexivity.
  unfold BUF_LIMIT in Hsum.
  assert (Hw : buffering cfg).
  { unfold buffering. rewrite Hbs. repeat split; try lia; try assumption.
    discriminate. }
  destruct (partial_buffering cfg bs inputbuf Hw Hlt) as (_ & Eb & El & Eg).
  split; [|rewrite El, Eg; lia].
  exists (bs ++ inputbuf). rewrite El, Eg.
  split; [exact Eb|].
  split; [rewrite length_app, Nat2Z.inj_add; lia|].
  split; [lia|]. split; [unfold BUF_LIMIT; lia|].
  split; [|exact Ht].
  destruct Hv as [[Hv Hp]|[Hv H252]]; [left|right].
  - split; [exact Hv|exact Hp].
  - split; [exact Hv|lia].
Qed.

(** [decode_bucket] keeps the invariant, with the buffer released whenever
    the connection is given up. *)
Lemma decode_bucket_inv cfg data rc cfg' :
  conn_inv cfg ->
  state cfg <> STATE_GOAWAY ->
  decode_bucket cfg data = Ok (rc, cfg') ->
  (rc = -1 \/ rc = 1)
  /\ (rc = -1 -> buf cfg' = None)
  /\ (rc = 1 -> conn_inv cfg' /\ (state cfg' = STATE_GOAWAY -> buf cfg' = None)).
Proof.
  intros Hinv Hng. destruct data as [|b r].
  - rewrite decode_bucket_nil. intros H. inversion H. subst.
    split; [right; reflexivity|]. split; [discriminate|].
    intros _. split; [exact Hinv|]. intros Hg. contradiction.
  - rewrite decode_bucket_cons. unfold decode_bucket_round.
    assert (Hbuf :
      forall c ib fl,
        state c = STATE_BUFFER -> buffer_ok c ->
        buffer_data c ib = Ok fl ->
        match fl with
        | Return rc' c' =>
            (rc' = -1 \/ rc' = 1) /\ buf c' = None /\ state c' = STATE_GOAWAY
        | Continue c' _ => state c' = STATE_BUFFER /\ buffer_ok c'
        end).
    { intros c ib fl Hs Hok Hb.
      pose proof Hok as (bs & Hbs & _).
      rewrite (buffer_data_eq c bs ib Hbs) in Hb.
      destruct (buf_to_go c <=? Z.of_nat (List.length ib)) eqn:Hle.
      - unfold finish in Hb.
        match type of Hb with
        | bind ?m _ = _ => destruct m as [[rc0 c0]|f0]; cbn [bind] in Hb
        end; [|discriminate].
        destruct (rc0 <? 0); inversion Hb; subst;
          (split; [auto|split; reflexivity]).
      - apply Z.leb_gt in Hle. inversion Hb. subst.
        split; [unfold partial; cbn; exact Hs|].
        apply (partial_buffer_ok c bs ib Hs Hok Hbs Hle). }
    unfold conn_inv in Hinv.
    destruct (state cfg) eqn:Hs; cbn [conn_state_eqb orb]; try contradiction.
    + (* STATE_START *)
      pose proof (record_header_state cfg (b :: r) ltac:(discriminate)) as Hst.
      destruct (record_header cfg (b :: r)) as [rc0 c|c ib] eqn:Hh.
      * cbn [bind]. intros H. injection H as <- <-.
        pose proof (record_header_return _ _ _ _ Hh) as Hrc.
        pose proof (record_header_return_buf _ _ _ _ Hh) as Hb.
        split; [left; exact Hrc|].
        split; [intros _; rewrite Hb, Hinv; reflexivity|].
        intros E. rewrite Hrc in E. discriminate E.
      * rewrite Hst. cbn [conn_state_eqb].
        destruct (record_header_continue cfg (b :: r) c ib ltac:(discriminate) Hh)
          as (_ & Hb0 & Hl0 & Hg0).
        destruct (record_header_start cfg (b :: r) c ib Hs Hh ltac:(discriminate))
          as (Hv & Ht).
        assert (Hok : buffer_ok c).
        { exists []. rewrite Hl0. cbn [List.length Z.of_nat].
          split; [exact Hb0|]. split; [reflexivity|].
          split; [lia|]. split; [lia|].
          split; [|rewrite Ht, Hinv; reflexivity].
          destruct Hv as [Hv|[Hv H252]]; [left; exact Hv|right].
          split; [exact Hv|lia]. }
        destruct (buffer_data c ib) as [fl|f] eqn:Hbd; cbn [bind];
          [|discriminate].
        pose proof (Hbuf c ib fl Hst Hok Hbd) as Hfl.
        destruct fl as [rc1 c1|c1 ib1]; intros H; injection H as <- <-.
        -- destruct Hfl as (Hrc & Hb1 & Hs1).
           split; [exact Hrc|]. split; [intros _; exact Hb1|].
           intros _. split; [unfold conn_inv; rewrite Hs1; exact I|].
           intros _. exact Hb1.
        -- destruct Hfl as (Hs1 & Hok1).
           split; [right; reflexivity|]. split; [discriminate|].
           intros _. split; [unfold conn_inv; rewrite Hs1; exact Hok1|].
           rewrite Hs1. discriminate.
    + (* STATE_BUFFER *)
      rewrite Hs. cbn [conn_state_eqb].
      destruct (buffer_data cfg (b :: r)) as [fl|f] eqn:Hbd; cbn [bind];
        [|discriminate].
      pose proof (Hbuf cfg (b :: r) fl Hs Hinv Hbd) as Hfl.
      destruct fl as [rc1 c1|c1 ib1]; intros H; injection H as <- <-.
      * destruct Hfl as (Hrc & Hb1 & Hs1).
        split; [exact Hrc|]. split; [intros _; exact Hb1|].
        intros _. split; [unfold conn_inv; rewrite Hs1; exact I|].
        intros _. exact Hb1.
      * destruct Hfl as (Hs1 & Hok1).
        split; [right; reflexivity|]. split; [discriminate|].
        intros _. split; [unfold conn_inv; rewrite Hs1; exact Hok1|].
        rewrite Hs1. discriminate.
Qed.

Lemma filter_buckets_inv bb :
  forall cfg cfg',
    conn_inv cfg ->
    (state cfg = STATE_GOAWAY -> buf cfg = None) ->
    filter_buckets cfg bb = Ok cfg' ->
    conn_inv cfg' /\ (state cfg' = STATE_GOAWAY -> buf cfg' = None).
Proof.
  induction bb as [|bk bb IH]; intros cfg cfg' Hinv Hrel;
    cbn [filter_buckets].
  - intros H. inversion H. subst. split; assumption.
  - destruct bk as [|data|].
    + apply IH; assumption.
    + destruct (conn_state_eqb (state cfg) STATE_GOAWAY) eqn:Hg.
      * (* not reached from the filter; the round returns at once *)
        apply conn_state_eqb_eq in Hg.
        destruct data as [|b r].
        -- rewrite decode_bucket_nil. cbn [bind]. change (1 <=? 0) with false.
           cbv iota. rewrite Hg. cbn [conn_state_eqb].
           intros H. inversion H. subst. split; assumption.
        -- rewrite decode_bucket_cons. unfold decode_bucket_round.
           rewrite Hg. cbn [conn_state_eqb bind]. change (1 <=? 0) with false.
           cbv iota. rewrite Hg. cbn [conn_state_eqb].
           intros H. inversion H. subst. split; assumption.
      * assert (Hng : state cfg <> STATE_GOAWAY)
          by (intros E; rewrite E in Hg; discriminate).
        destruct (decode_bucket cfg data) as [[rc c]|f] eqn:Hd; cbn [bind];
          [|discriminate].
        destruct (decode_bucket_inv _ _ _ _ Hinv Hng Hd) as (Hrc & Hm1 & H1).
        destruct Hrc as [Hrc|Hrc]; subst rc.
        -- change (-1 <=? 0) with true. cbv iota.
           intros H. inversion H. subst.
           split; [exact I|]. intros _. cbn. apply Hm1. reflexivity.
        -- change (1 <=? 0) with false. cbv iota.
           destruct (H1 eq_refl) as [Hinv1 Hrel1].
           destruct (conn_state_eqb (state c) STATE_GOAWAY) eqn:Hg1.
           ++ intros H. inversion H. subst. split; assumption.
           ++ apply IH; assumption.
    + intros H. inversion H. subst. split; assumption.
Qed.

(** X1.  The invariant of the connection structure.  After any sequence of
    brigades on a fresh connection the state is never [STATE_READING]; in
    [STATE_START] the structure is still all zero; in [STATE_BUFFER] the
    buffer holds exactly [buf_len] bytes, at least one byte is still
    missing, the record stays within [BUF_LIMIT] (within 252 on the SSLv2
    path), the record type is that of a handshake on the SSLv3+ path, and
    nothing has been decoded. *)
Theorem connection_invariant bs cfg' :
  run_filter cfg_init bs = Ok cfg' -> conn_inv cfg'.
Proof.
  assert (Hgen :
    forall bs cfg cfg',
      conn_inv cfg -> run_filter cfg bs = Ok cfg' -> conn_inv cfg').
  { clear. induction bs as [|b bs IH]; intros cfg cfg' Hinv;
      cbn [run_filter].
    - intros H. inversion H. subst. exact Hinv.
    - destruct (sslhaf_in_filter cfg b) as [c|f] eqn:Hf; cbn [bind];
        [|discriminate].
      apply IH. revert Hf. unfold sslhaf_in_filter.
      destruct (conn_state_eqb (state cfg) STATE_GOAWAY) eqn:Hg.
      + intros H. inversion H. subst. exact Hinv.
      + destruct b as [|bb].
        * intros H. inversion H. exact I.
        * intros H.
          apply (filter_buckets_inv bb cfg c Hinv); [|exact H].
          intros E. rewrite E in Hg. discriminate. }
  apply Hgen. reflexivity.
Qed.

(** X2.  The record buffer is released.  As long as every brigade is
    delivered, a connection that has been given up holds no buffer. *)
Theorem buffer_released bs cfg' :
  Forall delivered bs ->
  run_filter cfg_init bs = Ok cfg' ->
  state cfg' = STATE_GOAWAY ->
  buf cfg' = None.
Proof.
  assert (Hgen :
    forall bs cfg cfg',
      Forall delivered bs ->
      conn_inv cfg -> (state cfg = STATE_GOAWAY -> buf cfg = None) ->
      run_filter cfg bs = Ok cfg' ->
      state cfg' = STATE_GOAWAY -> buf cfg' = None).
  { clear. induction bs as [|b bs IH]; intros cfg cfg' Hall Hinv Hrel;
      cbn [run_filter].
    - intros H. inversion H. subst. exact Hrel.
    - inversion Hall as [|? ? Hb Hbs]; subst.
      destruct (sslhaf_in_filter cfg b) as [c|f] eqn:Hf; cbn [bind];
        [|discriminate].
      assert (Hc : conn_inv c /\ (state c = STATE_GOAWAY -> buf c = None)).
      { revert Hf. unfold sslhaf_in_filter.
        destruct (conn_state_eqb (state cfg) STATE_GOAWAY) eqn:Hg.
        - intros H. inversion H. subst. split; assumption.
        - destruct b as [|bb]; [contradiction|].
          apply filter_buckets_inv; assumption. }
      destruct Hc as [Hinv' Hrel']. apply IH; assumption. }
  intros Hall. apply Hgen; [exact Hall|reflexivity|discriminate].
Qed.

(** X2 on the sample record in two brigades. *)
Lemma buffer_released_witness :
  exists cfg',
    run_filter cfg_init
      [Brigade [DataBucket (firstn 20 sample_record)];
       Brigade [MetadataBucket; DataBucket (skipn 20 sample_record)]] =
      Ok cfg'
    /\ state cfg' = STATE_GOAWAY
    /\ buf cfg' = None.
Proof.
  eexists. split; [vm_compute; reflexivity|]. split; [reflexivity|].
  apply (buffer_released
           [Brigade [DataBucket (firstn 20 sample_record)];
            Brigade [MetadataBucket; DataBucket (skipn 20 sample_record)]]).
  - repeat constructor.
  - vm_compute. reflexivity.
  - reflexivity.
Defined.

(** X1 on the first nine bytes of the sample record. *)
Lemma connection_invariant_witness :
  exists cfg',
    run_filter cfg_init [Brigade [DataBucket (firstn 9 sample_record)]] =
      Ok cfg'
    /\ state cfg' = STATE_BUFFER
    /\ conn_inv cfg'.
Proof.
  eexists. split; [vm_compute; reflexivity|]. split; [reflexivity|].
  apply (connection_invariant
           [Brigade [DataBucket (firstn 9 sample_record)]]).
  vm_compute. reflexivity.
Defined.

(** ** Brigade boundaries *)

Lemma run_filter_single cfg b : run_filter cfg [b] = sslhaf_in_filter cfg b.
Proof.
  cbn [run_filter]. destruct (sslhaf_in_filter cfg b); reflexivity.
Qed.

Lemma filter_buckets_app a :
  forall cfg b,
    Forall readable a ->
    state cfg <> STATE_GOAWAY ->
    filter_buckets cfg (a ++ b) =
      (c <- filter_buckets cfg a ;; sslhaf_in_filter c (Brigade b)).
Proof.
  induction a as [|bk a IH]; intros cfg b Hall Hng.
  - cbn [List.app filter_buckets bind]. unfold sslhaf_in_filter.
    destruct (conn_state_eqb (state cfg) STATE_GOAWAY) eqn:Hg;
      [|reflexivity].
    apply conn_state_eqb_eq in Hg. contradiction.
  - inversion Hall as [|? ? Hbk Ha]; subst.
    destruct bk as [|data|]; [| |contradiction];
      cbn [List.app filter_buckets].
    + apply IH; assumption.
    + destruct (decode_bucket cfg data) as [[rc c]|f]; cbn [bind];
        [|reflexivity].
      destruct (rc <=? 0).
      * cbn [bind]. symmetry. apply sslhaf_in_filter_goaway. reflexivity.
      * destruct (conn_state_eqb (state c) STATE_GOAWAY) eqn:Hg.
        -- cbn [bind]. symmetry. apply sslhaf_in_filter_goaway.
           apply conn_state_eqb_eq. exact Hg.
        -- apply IH; [exact Ha|].
           intros E. rewrite E in Hg. discriminate.
Qed.

Lemma sslhaf_in_filter_app cfg a b :
  Forall readable a ->
  sslhaf_in_filter cfg (Brigade (a ++ b)) =
    (c <- sslhaf_in_filter cfg (Brigade a) ;; sslhaf_in_filter c (Brigade b)).
Proof.
  intros Hall. unfold sslhaf_in_filter at 1 2.
  destruct (conn_state_eqb (state cfg) STATE_GOAWAY) eqn:Hg.
  - cbn [bind]. symmetry. apply sslhaf_in_filter_goaway.
    apply conn_state_eqb_eq. exact Hg.
  - apply filter_buckets_app; [exact Hall|].
    intros E. rewrite E in Hg. discriminate.
Qed.

(** X3.  Brigade boundaries carry no meaning.  When every bucket can be
    read, a sequence of brigades has the same outcome as the single brigade
    of all their buckets. *)
Theorem brigades_concatenate bbs cfg :
  Forall (Forall readable) bbs ->
  run_filter cfg (map Brigade bbs) =
    sslhaf_in_filter cfg (Brigade (List.concat bbs)).
Proof.
  intros Hall. revert cfg.
  induction Hall as [|a bbs Ha Hbbs IH]; intros cfg.
  - cbn [map run_filter List.concat]. unfold sslhaf_in_filter.
    destruct (conn_state_eqb (state cfg) STATE_GOAWAY); reflexivity.
  - cbn [map run_filter List.concat].
    rewrite (sslhaf_in_filter_app cfg a _ Ha).
    apply bind_ext. intros c _. apply IH.
Qed.

(** X3 on the sample record in three buckets over two brigades. *)
Lemma brigades_concatenate_witness :
  run_filter cfg_init
    (map Brigade
       [[DataBucket (firstn 9 sample_record); MetadataBucket];
        [DataBucket (firstn 30 (skipn 9 sample_record));
         DataBucket (skipn 39 sample_record)]]) =
  sslhaf_in_filter cfg_init
    (Brigade
       (List.concat
          [[DataBucket (firstn 9 sample_record); MetadataBucket];
           [DataBucket (firstn 30 (skipn 9 sample_record));
            DataBucket (skipn 39 sample_record)]])).
Proof.
  apply (brigades_concatenate
           [[DataBucket (firstn 9 sample_record); MetadataBucket];
            [DataBucket (firstn 30 (skipn 9 sample_record));
             DataBucket (skipn 39 sample_record)]]).
  repeat constructor.
Defined.

(** ** Hex text *)

Lemma u8_inj (x y : byte) : u8 x = u8 y -> x = y.
Proof.
  unfold u8. intros H. apply N2Z.inj in H.
  pose proof (Byte.of_to_N x) as Hx. pose proof (Byte.of_to_N y) as Hy.
  rewrite H in Hx. rewrite Hx in Hy. inversion Hy. reflexivity.
Qed.

Lemma u8_byte_of_Z (z : Z) : u8 (byte_of_Z z) = z mod 256.
Proof.
  unfold byte_of_Z, u8.
  pose proof (Z.mod_pos_bound z 256 ltac:(lia)) as Hr.
  destruct (Byte.of_N (Z.to_N (z mod 256))) as [b|] eqn:E.
  - apply Byte.to_of_N in E. rewrite E. lia.
  - apply Byte.of_N_None_iff in E. lia.
Qed.

Lemma b2hex_pair (x : byte) :
  String (b2hex_at (Z.shiftr (u8 x) 4))
    (String (b2hex_at (Z.land (u8 x) 15)) EmptyString) = spec_hex x.
Proof. destruct x; reflexivity. Qed.

Lemma spec_hex_value_byte (acc : Z) (x : byte) :
  spec_hex_value_from acc (spec_hex x) = acc * 256 + u8 x.
Proof.
  assert (H : spec_digit (hex_digit (u8 x / 16)) = u8 x / 16
              /\ spec_digit (hex_digit (u8 x mod 16)) = u8 x mod 16)
    by (destruct x; split; reflexivity).
  destruct H as [H1 H2].
  unfold spec_hex. cbn [spec_hex_value_from]. rewrite H1, H2.
  pose proof (Z.div_mod (u8 x) 16 ltac:(lia)). lia.
Qed.

Lemma spec_hex_all_hex (x : byte) : all_hex (spec_hex x) = true.
Proof. destruct x; reflexivity. Qed.

Lemma spec_hex_inj (x y : byte) : spec_hex x = spec_hex y -> x = y.
Proof.
  intros H. apply u8_inj.
  pose proof (spec_hex_value_byte 0 x) as Hx.
  pose proof (spec_hex_value_byte 0 y) as Hy.
  rewrite H in Hx. lia.
Qed.

Lemma all_hex_app (a b : string) :
  all_hex (a ++ b) = all_hex a && all_hex b.
Proof.
  induction a as [|c a IH]; cbn [String.append all_hex]; [reflexivity|].
  rewrite IH. apply andb_assoc.
Qed.

Lemma hex_of_app (a b : list byte) :
  hex_of (a ++ b) = (hex_of a ++ hex_of b)%string.
Proof.
  unfold hex_of. induction a as [|x a IH]; [reflexivity|].
  cbn [List.app map string_cat fold_right].
  fold (string_cat (map spec_hex (a ++ b))).
  fold (string_cat (map spec_hex a)).
  rewrite IH, string_app_assoc. reflexivity.
Qed.

Lemma hex_of_length (bs : list byte) :
  String.length (hex_of bs) = (2 * List.length bs)%nat.
Proof.
  unfold hex_of. induction bs as [|x bs IH]; [reflexivity|].
  cbn [map string_cat fold_right List.length].
  fold (string_cat (map spec_hex bs)).
  rewrite string_length_app, IH. unfold spec_hex. cbn [String.length]. lia.
Qed.

Lemma hex_of_all_hex (bs : list byte) : all_hex (hex_of bs) = true.
Proof.
  unfold hex_of. induction bs as [|x bs IH]; [reflexivity|].
  cbn [map string_cat fold_right].
  fold (string_cat (map spec_hex bs)).
  rewrite all_hex_app, spec_hex_all_hex, IH. reflexivity.
Qed.

Lemma hex_of_inj (a : list byte) :
  forall b, hex_of a = hex_of b -> a = b.
Proof.
  unfold hex_of. induction a as [|x a IH]; intros [|y b] H.
  - reflexivity.
  - cbn in H. discriminate.
  - cbn in H. discriminate.
  - cbn [map string_cat fold_right] in H.
    fold (string_cat (map spec_hex a)) in H.
    fold (string_cat (map spec_hex b)) in H.
    unfold spec_hex in H at 1 3. cbn [String.append] in H.
    injection H as H1 H2 H3.
    assert (Hxy : spec_hex x = spec_hex y)
      by (unfold spec_hex; rewrite H1, H2; reflexivity).
    f_equal; [apply spec_hex_inj; exact Hxy|apply IH; exact H3].
Qed.

Lemma read_nth (data : list byte) k x :
  nth_error data k = Some x -> read data (Z.of_nat k) = Ok (u8 x).
Proof.
  intros Hn. unfold read.
  replace (Z.of_nat k <? 0) with false by (symmetry; apply Z.ltb_ge; lia).
  rewrite Nat2Z.id, Hn. reflexivity.
Qed.

Lemma bytes2hex_loop_spec n :
  forall pre post hex,
    (n <= List.length post)%nat ->
    bytes2hex_loop n (pre ++ post) (Z.of_nat (List.length pre)) hex =
      Ok (hex ++ hex_of (firstn n post))%string.
Proof.
  induction n as [|n IH]; intros pre post hex Hn.
  - cbn. rewrite string_app_nil_r. reflexivity.
  - destruct post as [|x post]; [cbn in Hn; lia|].
    cbn [bytes2hex_loop firstn].
    rewrite (read_nth (pre ++ x :: post) (List.length pre) x)
      by (rewrite nth_error_app2, Nat.sub_diag by lia; reflexivity).
    cbn [bind]. rewrite b2hex_pair.
    replace (Z.of_nat (List.length pre) + 1)
      with (Z.of_nat (List.length (pre ++ [x])))
      by (rewrite length_app; cbn [List.length]; lia).
    replace (pre ++ x :: post) with ((pre ++ [x]) ++ post)
      by (rewrite <- app_assoc; reflexivity).
    rewrite IH by (cbn in Hn; lia).
    change (x :: firstn n post) with ([x] ++ firstn n post).
    rewrite hex_of_app, string_app_assoc.
    unfold hex_of at 2. cbn [map string_cat fold_right].
    rewrite string_app_nil_r. reflexivity.
Qed.

Lemma bytes2hex_loop_short n :
  forall pre post hex,
    (List.length post < n)%nat ->
    bytes2hex_loop n (pre ++ post) (Z.of_nat (List.length pre)) hex =
      Fault OutOfBoundsRead.
Proof.
  induction n as [|n IH]; intros pre post hex Hn; [lia|].
  cbn [bytes2hex_loop]. destruct post as [|x post].
  - unfold read.
    replace (Z.of_nat (List.length pre) <? 0) with false
      by (symmetry; apply Z.ltb_ge; lia).
    rewrite Nat2Z.id, app_nil_r.
    replace (nth_error pre (List.length pre)) with (@None byte)
      by (symmetry; apply nth_error_None; lia).
    reflexivity.
  - rewrite (read_nth (pre ++ x :: post) (List.length pre) x)
      by (rewrite nth_error_app2, Nat.sub_diag by lia; reflexivity).
    cbn [bind].
    replace (Z.of_nat (List.length pre) + 1)
      with (Z.of_nat (List.length (pre ++ [x])))
      by (rewrite length_app; cbn [List.length]; lia).
    replace (pre ++ x :: post) with ((pre ++ [x]) ++ post)
      by (rewrite <- app_assoc; reflexivity).
    apply IH. cbn in Hn. lia.
Qed.

Lemma int_size_test (len : Z) :
  0 <= len -> len * 2 + 1 <= INT_MAX ->
  (len * 2 + 1 >? INT_MAX) || (len * 2 + 1 <? - INT_MAX - 1) = false.
Proof.
  intros H0 H1. apply orb_false_iff. unfold INT_MAX in *. split.
  - rewrite Z.gtb_ltb. apply Z.ltb_ge. lia.
  - apply Z.ltb_ge. lia.
Qed.

(** A byte string converted in full. *)
Lemma bytes2hex_full (data : list byte) :
  Z.of_nat (List.length data) * 2 + 1 <= INT_MAX ->
  bytes2hex true data (Z.of_nat (List.length data)) = Ok (Some (hex_of data)).
Proof.
  intros Hsize. unfold bytes2hex. cbv zeta.
  rewrite int_size_test by lia. cbn [negb]. rewrite Nat2Z.id.
  pose proof (bytes2hex_loop_spec (List.length data) [] data EmptyString
                (Nat.le_refl _)) as H.
  rewrite firstn_all in H. cbn [List.app List.length Z.of_nat] in H.
  rewrite H. reflexivity.
Qed.

(** X4.  [bytes2hex] with a size that fits an [int].  When the block is
    allocated and the length lies within the data, the result has two
    characters per byte, all of them lowercase hex digits, and is the hex
    text of the first [len] bytes; a length beyond the data makes the loop
    read behind it.  When the block is not allocated the result is
    [NULL].  A length whose doubled size does not fit an [int] overflows
    before anything is allocated. *)
Theorem bytes2hex_text data len :
  (0 <= len <= Z.of_nat (List.length data) ->
   len * 2 + 1 <= INT_MAX ->
   exists hex,
     bytes2hex true data len = Ok (Some hex)
     /\ hex = hex_of (firstn (Z.to_nat len) data)
     /\ Z.of_nat (String.length hex) = 2 * len
     /\ all_hex hex = true)
  /\ (Z.of_nat (List.length data) < len ->
      len * 2 + 1 <= INT_MAX ->
      bytes2hex true data len = Fault OutOfBoundsRead)
  /\ (0 <= len -> len * 2 + 1 <= INT_MAX ->
      bytes2hex false data len = Ok None)
  /\ (INT_MAX < len * 2 + 1 ->
      forall allocated,
        bytes2hex allocated data len = Fault IntegerOverflow).
Proof.
  split; [|split; [|split]].
  - intros Hlen Hsize.
    exists (hex_of (firstn (Z.to_nat len) data)).
    split; [|split; [reflexivity|split]].
    + unfold bytes2hex. cbv zeta. rewrite int_size_test by lia.
      cbn [negb].
      pose proof (bytes2hex_loop_spec (Z.to_nat len) [] data EmptyString
                    ltac:(lia)) as H.
      cbn [List.app List.length Z.of_nat] in H. rewrite H. reflexivity.
    + rewrite hex_of_length, length_firstn. lia.
    + apply hex_of_all_hex.
  - intros Hlen Hsize. unfold bytes2hex. cbv zeta.
    pose proof (Zle_0_nat (List.length data)) as Hnn.
    rewrite int_size_test by lia. cbn [negb].
    pose proof (bytes2hex_loop_short (Z.to_nat len) [] data EmptyString
                  ltac:(lia)) as Hloop.
    cbn [List.app List.length Z.of_nat] in Hloop. rewrite Hloop.
    reflexivity.
  - intros H0 Hsize. unfold bytes2hex. cbv zeta.
    rewrite int_size_test by lia. reflexivity.
  - intros Hbig allocated. unfold bytes2hex. cbv zeta.
    replace (len * 2 + 1 >? INT_MAX) with true
      by (symmetry; rewrite Z.gtb_ltb; apply Z.ltb_lt; lia).
    reflexivity.
Qed.

(** X4 on three bytes: two of them asked for, four asked for. *)
Lemma bytes2hex_text_witness :
  (exists hex,
     bytes2hex true (bytes_of [0; 171; 255]) 2 = Ok (Some hex)
     /\ hex = "00ab"%string
     /\ Z.of_nat (String.length hex) = 4
     /\ all_hex hex = true)
  /\ bytes2hex true (bytes_of [0; 171; 255]) 4 = Fault OutOfBoundsRead.
Proof.
  destruct (bytes2hex_text (bytes_of [0; 171; 255]) 2) as [Hin _].
  destruct (bytes2hex_text (bytes_of [0; 171; 255]) 4) as (_ & Hout & _).
  split.
  - destruct (Hin ltac:(vm_compute; split; discriminate)
                ltac:(vm_compute; discriminate))
      as (hex & H1 & H2 & H3 & H4).
    exists hex. repeat split; assumption.
  - apply Hout; vm_compute; [reflexivity|discriminate].
Defined.

(** X5.  [bytes2hex] is one to one.  Two byte strings converted in full,
    the first of a size that fits an [int], have the same hex text only if
    they are the same. *)
Theorem bytes2hex_injective (a b : list byte) :
  Z.of_nat (List.length a) * 2 + 1 <= INT_MAX ->
  bytes2hex true a (Z.of_nat (List.length a)) =
    bytes2hex true b (Z.of_nat (List.length b)) ->
  a = b.
Proof.
  intros Ha. rewrite (bytes2hex_full a Ha).
  destruct (Z_le_gt_dec (Z.of_nat (List.length b) * 2 + 1) INT_MAX) as [Hb|Hb].
  - rewrite (bytes2hex_full b Hb). intros H. inversion H.
    apply hex_of_inj. assumption.
  - unfold bytes2hex. cbv zeta.
    replace (Z.of_nat (List.length b) * 2 + 1 >? INT_MAX) with true
      by (symmetry; rewrite Z.gtb_ltb; apply Z.ltb_lt; lia).
    discriminate.
Qed.

(** X5 on two ways of writing the same two bytes. *)
Lemma bytes2hex_injective_witness :
  bytes_of [1; 2] = bytes_of [257; 258].
Proof.
  apply (bytes2hex_injective (bytes_of [1; 2]) (bytes_of [257; 258])).
  - vm_compute. discriminate.
  - reflexivity.
Defined.
(** ** Decimal text *)

Lemma of_lu_mk_digit r d :
  (r < 10)%N ->
  DecimalPos.Unsigned.of_lu (mk_digit r d) =
    (r + 10 * DecimalPos.Unsigned.of_lu d)%N.
Proof.
  intros Hr.
  assert (H : (r = 0 \/ r = 1 \/ r = 2 \/ r = 3 \/ r = 4 \/ r = 5 \/ r = 6
               \/ r = 7 \/ r = 8 \/ r = 9)%N) by lia.
  repeat (destruct H as [H|H]; [subst r; reflexivity|]).
  subst r. reflexivity.
Qed.

Lemma nb_digits_mk_digit r d :
  Decimal.nb_digits (mk_digit r d) = S (Decimal.nb_digits d).
Proof.
  destruct r as [|p]; [reflexivity|].
  do 4 (destruct p as [p|p|]; try reflexivity).
Qed.

Lemma of_lu_lu_digits k :
  forall n, DecimalPos.Unsigned.of_lu (lu_digits k n) = (n mod 10 ^ N.of_nat k)%N.
Proof.
  induction k as [|k IH]; intros n.
  - cbn. rewrite N.mod_1_r. reflexivity.
  - cbn [lu_digits].
    rewrite of_lu_mk_digit by (apply N.mod_lt; discriminate).
    rewrite IH, Nnat.Nat2N.inj_succ, N.pow_succ_r'.
    rewrite N.Div0.mod_mul_r. reflexivity.
Qed.

Lemma nb_digits_lu_digits k : forall n, Decimal.nb_digits (lu_digits k n) = k.
Proof.
  induction k as [|k IH]; intros n; [reflexivity|].
  cbn [lu_digits]. rewrite nb_digits_mk_digit, IH. reflexivity.
Qed.

Lemma to_uint_digits p k :
  (0 < k)%nat ->
  (N.pos p < 10 ^ N.of_nat k)%N ->
  (Decimal.nb_digits (Pos.to_uint p) <= k)%nat.
Proof.
  intros Hk Hp.
  set (d := Decimal.rev (lu_digits k (N.pos p))).
  assert (Hd : Pos.of_uint d = N.pos p).
  { unfold d. rewrite DecimalPos.Unsigned.of_lu_rev, of_lu_lu_digits.
    apply N.mod_small. exact Hp. }
  pose proof (DecimalPos.Unsigned.to_of d) as Hto.
  rewrite Hd in Hto. cbn [N.to_uint] in Hto. rewrite Hto.
  assert (Hn : Decimal.nb_digits d = k)
    by (unfold d; rewrite DecimalFacts.nb_digits_rev; apply nb_digits_lu_digits).
  etransitivity.
  - apply DecimalFacts.nb_digits_unorm.
    apply DecimalFacts.nb_digits_n0. lia.
  - lia.
Qed.

Lemma string_of_uint_length u :
  String.length (NilEmpty.string_of_uint u) = Decimal.nb_digits u.
Proof.
  induction u; cbn [NilEmpty.string_of_uint String.length Decimal.nb_digits];
    try rewrite IHu; reflexivity.
Qed.

(** What ["%d"] prints for a number below [10 ^ k] has at most [k]
    characters. *)
Lemma fmt_d_length v k :
  (0 < k)%nat ->
  0 <= v < 10 ^ Z.of_nat k ->
  (String.length (fmt_d v) <= k)%nat.
Proof.
  intros Hk Hv. unfold fmt_d. destruct v as [|p|p]; [cbn; lia| |lia].
  cbn [Z.to_int NilZero.string_of_int].
  pose proof (DecimalPos.Unsigned.to_uint_nonnil p) as Hnn.
  unfold NilZero.string_of_uint.
  destruct (Pos.to_uint p) eqn:E; try contradiction; rewrite <- E;
    rewrite string_of_uint_length; apply to_uint_digits; try exact Hk;
    (apply N2Z.inj_lt; rewrite N2Z.inj_pow; rewrite nat_N_Z;
     change (Z.of_N 10) with 10; change (Z.of_N (N.pos p)) with (Z.pos p); lia).
Qed.

Lemma spec_digit_range c : is_hex_char c = true -> 0 <= spec_digit c < 16.
Proof.
  intros H. apply is_hex_char_range in H. unfold spec_digit.
  destruct (char_code c <=? 57) eqn:E.
  - apply Z.leb_le in E. lia.
  - apply Z.leb_gt in E. lia.
Qed.

Lemma spec_hex_value_bound s :
  all_hex s = true ->
  0 <= spec_hex_value_from 0 s < 16 ^ Z.of_nat (String.length s).
Proof.
  induction s as [|c s IH]; intros H.
  - cbn. lia.
  - cbn [all_hex] in H. apply andb_true_iff in H. destruct H as [Hc Hs].
    cbn [spec_hex_value_from String.length].
    rewrite spec_hex_value_from_acc.
    rewrite Nat2Z.inj_succ, Z.pow_succ_r by lia.
    pose proof (spec_digit_range c Hc). specialize (IH Hs).
    assert (0 < 16 ^ Z.of_nat (String.length s))
      by (apply Z.pow_pos_nonneg; lia).
    nia.
Qed.

Lemma spec_hex_value_from_app (a b : string) :
  forall acc,
    spec_hex_value_from acc (a ++ b) =
      spec_hex_value_from (spec_hex_value_from acc a) b.
Proof.
  induction a as [|c a IH]; intros acc; [reflexivity|].
  cbn [String.append spec_hex_value_from]. apply IH.
Qed.

(** A token of at most 6 hex digits is converted in full. *)
Lemma str_to_dec_short t :
  all_hex t = true ->
  (String.length t <= 6)%nat ->
  str_to_dec t = Ok (fmt_d (spec_hex_value t) ++ "-")%string
  /\ 0 <= spec_hex_value t < 16777216.
Proof.
  intros Hhex Hlen.
  pose proof (spec_hex_value_bound t Hhex) as Hb.
  assert (Hp : 16 ^ Z.of_nat (String.length t) <= 16 ^ 6)
    by (apply Z.pow_le_mono_r; lia).
  change (16 ^ 6) with 16777216 in Hp.
  fold (spec_hex_value t) in Hb.
  split; [|lia].
  apply str_to_dec_spec; [exact Hhex|unfold INT_MAX; lia|].
  apply fmt_d_length; [lia|]. change (10 ^ Z.of_nat 8) with 100000000. lia.
Qed.

(** X6.  [str_to_dec] on the tokens the decoders can write.  A token of at
    most 6 lowercase hex digits is converted to the decimal text of its
    value, with the hyphen, inside the 10 bytes of the buffer; seven digits
    can be too many. *)
Theorem str_to_dec_token t :
  (all_hex t = true ->
   (String.length t <= 6)%nat ->
   str_to_dec t = Ok (fmt_d (spec_hex_value t) ++ "-")%string
   /\ 0 <= spec_hex_value t < 16777216)
  /\ str_to_dec "fffffff" = Fault OutOfBoundsWrite.
Proof.
  split; [apply str_to_dec_short|vm_compute; reflexivity].
Qed.

(** X6 on the token of the SSLv2 suite 01 00 80. *)
Lemma str_to_dec_token_witness :
  str_to_dec "010080" = Ok "65664-"%string /\ 0 <= 65664 < 16777216.
Proof.
  destruct (str_to_dec_token "010080") as [H _].
  apply H; [reflexivity|vm_compute; lia].
Defined.

Lemma spec_v3_token_value (hi lo : byte) :
  all_hex (spec_v3_token (hi, lo)) = true
  /\ (String.length (spec_v3_token (hi, lo)) <= 4)%nat
  /\ spec_hex_value (spec_v3_token (hi, lo)) = u8 hi * 256 + u8 lo.
Proof.
  unfold spec_v3_token, spec_hex_value.
  destruct (u8 hi =? 0) eqn:E; cbn [negb].
  - apply Z.eqb_eq in E. rewrite E.
    split; [apply spec_hex_all_hex|]. split; [cbn; lia|].
    rewrite spec_hex_value_byte. lia.
  - split; [rewrite all_hex_app, !spec_hex_all_hex; reflexivity|].
    split; [cbn; lia|].
    rewrite spec_hex_value_from_app, !spec_hex_value_byte. lia.
Qed.

Lemma spec_v2_token_value (b0 b1 b2 : byte) :
  all_hex (spec_v2_token (b0, b1, b2)) = true
  /\ (String.length (spec_v2_token (b0, b1, b2)) <= 6)%nat
  /\ spec_hex_value (spec_v2_token (b0, b1, b2)) =
       u8 b0 * 65536 + u8 b1 * 256 + u8 b2.
Proof.
  unfold spec_v2_token, spec_hex_value.
  destruct (u8 b0 =? 0) eqn:E0; cbn [negb].
  - apply Z.eqb_eq in E0. rewrite E0.
    destruct (u8 b1 =? 0) eqn:E1; cbn [negb].
    + apply Z.eqb_eq in E1. rewrite E1.
      split; [apply spec_hex_all_hex|]. split; [cbn; lia|].
      rewrite spec_hex_value_byte. lia.
    + split; [rewrite all_hex_app, !spec_hex_all_hex; reflexivity|].
      split; [cbn; lia|].
      rewrite spec_hex_value_from_app, !spec_hex_value_byte. lia.
  - split; [rewrite !all_hex_app, !spec_hex_all_hex; reflexivity|].
    split; [cbn; lia|].
    rewrite !spec_hex_value_from_app, !spec_hex_value_byte. lia.
Qed.

(** X7.  Suppressed zero bytes do not change the number.  The decimal that
    [str_to_dec] gives for the text of a suite is the big-endian value of
    the suite's bytes, for the 2-byte suites of SSLv3+ and for the 3-byte
    suites of SSLv2, however many leading zero bytes the text leaves out. *)
Theorem suite_number :
  (forall hi lo,
     str_to_dec (spec_v3_token (hi, lo)) =
       Ok (fmt_d (u8 hi * 256 + u8 lo) ++ "-")%string)
  /\ (forall b0 b1 b2,
        str_to_dec (spec_v2_token (b0, b1, b2)) =
          Ok (fmt_d (u8 b0 * 65536 + u8 b1 * 256 + u8 b2) ++ "-")%string).
Proof.
  split.
  - intros hi lo.
    destruct (spec_v3_token_value hi lo) as (Hhex & Hlen & Hval).
    destruct (str_to_dec_short (spec_v3_token (hi, lo)) Hhex ltac:(lia))
      as [Hs _].
    rewrite Hs, Hval. reflexivity.
  - intros b0 b1 b2.
    destruct (spec_v2_token_value b0 b1 b2) as (Hhex & Hlen & Hval).
    destruct (str_to_dec_short (spec_v2_token (b0, b1, b2)) Hhex Hlen)
      as [Hs _].
    rewrite Hs, Hval. reflexivity.
Qed.

(** ** Decoding well-formed ClientHello messages *)

Lemma len_nonneg {A} (l : list A) : 0 <= len l.
Proof. unfold len. lia. Qed.

Lemma len_app {A} (a b : list A) : len (a ++ b) = len a + len b.
Proof. unfold len. rewrite length_app. lia. Qed.

Lemma len_cons {A} (x : A) (l : list A) : len (x :: l) = 1 + len l.
Proof. unfold len. cbn [List.length]. lia. Qed.

Lemma len_nil {A} : len (@nil A) = 0.
Proof. reflexivity. Qed.

Lemma len_pair_bytes l : len (pair_bytes l) = 2 * len l.
Proof.
  induction l as [|[a b] l IH]; [reflexivity|].
  cbn [pair_bytes flat_map app fst snd]. fold (pair_bytes l).
  rewrite !len_cons, IH. lia.
Qed.

Lemma u8_byte_small z : 0 <= z < 256 -> u8 (byte_of_Z z) = z.
Proof. intros H. rewrite u8_byte_of_Z. apply Z.mod_small. exact H. Qed.

Lemma be16_value z :
  0 <= z < 65536 -> u8 (byte_of_Z (z / 256)) * 256 + u8 (byte_of_Z z) = z.
Proof.
  intros H. rewrite !u8_byte_of_Z.
  rewrite (Z.mod_small (z / 256) 256)
    by (split; [apply Z.div_pos; lia | apply Z.div_lt_upper_bound; lia]).
  pose proof (Z.div_mod z 256 ltac:(lia)). lia.
Qed.

Lemma be24_value z :
  0 <= z < 16777216 ->
  u8 (byte_of_Z (z / 65536)) * 65536 + u8 (byte_of_Z (z / 256)) * 256
  + u8 (byte_of_Z z) = z.
Proof.
  intros H. rewrite !u8_byte_of_Z.
  rewrite (Z.mod_small (z / 65536) 256)
    by (split; [apply Z.div_pos; lia | apply Z.div_lt_upper_bound; lia]).
  pose proof (Z.div_mod z 256 ltac:(lia)).
  pose proof (Z.div_mod (z / 256) 256 ltac:(lia)).
  replace (z / 65536) with (z / 256 / 256)
    by (rewrite Z.div_div by lia; reflexivity).
  lia.
Qed.

Lemma cursor_read cfg p rest k x i :
  at_cursor cfg p rest ->
  nth_error rest k = Some x ->
  i = p + Z.of_nat k ->
  read_buf cfg i = Ok (u8 x).
Proof.
  intros (pre & Hb & ->) Hn ->. apply (read_buf_at cfg pre rest); assumption.
Qed.

Lemma cursor_skip cfg p a rest p' :
  at_cursor cfg p (a ++ rest) ->
  p' = p + len a ->
  at_cursor cfg p' rest.
Proof.
  intros (pre & Hb & ->) ->. exists (pre ++ a). split.
  - rewrite <- app_assoc. exact Hb.
  - unfold len. rewrite length_app. lia.
Qed.

(** Reading a field through the assignments made before. *)
Ltac cfg_fields :=
  cbn [state buf_protocol buf buf_len buf_to_go hello_version
       protocol_high protocol_low slen suites thandshake tprotocol
       tsuites request_counter ipaddress_hash compression_len
       compression_methods extensions_len extensions client_hello
       ec_point curves curve_len set_state set_buf_protocol set_buf
       set_buf_len set_buf_to_go set_hello_version set_protocol_high
       set_protocol_low set_slen set_suites set_thandshake set_tprotocol
       set_tsuites set_request_counter set_ipaddress_hash
       set_compression_len set_compression_methods set_extensions_len
       set_extensions set_client_hello set_ec_point set_curves
       set_curve_len].

Ltac cfg_fields_in H :=
  cbn [state buf_protocol buf buf_len buf_to_go hello_version
       protocol_high protocol_low slen suites thandshake tprotocol
       tsuites request_counter ipaddress_hash compression_len
       compression_methods extensions_len extensions client_hello
       ec_point curves curve_len set_state set_buf_protocol set_buf
       set_buf_len set_buf_to_go set_hello_version set_protocol_high
       set_protocol_low set_slen set_suites set_thandshake set_tprotocol
       set_tsuites set_request_counter set_ipaddress_hash
       set_compression_len set_compression_methods set_extensions_len
       set_extensions set_client_hello set_ec_point set_curves
       set_curve_len] in H.

(** The next read of the buffer, [k] bytes in front of the cursor. *)
Ltac cur_read Hc k :=
  match goal with
  | |- context [bind (read_buf ?c ?i) _] =>
      rewrite (cursor_read c _ _ k _ i Hc eq_refl) by (cbn; lia);
      cbn [bind]
  end.

Lemma v3_suites_loop_wire ss :
  forall cfg p q rest,
    at_cursor cfg p (pair_bytes ss ++ rest) ->
    v3_suites_loop (List.length ss) cfg p q =
      Ok (p + 2 * len ss, join_onto q (map spec_v3_token ss)).
Proof.
  induction ss as [|[hi lo] ss IH]; intros cfg p q rest Hc.
  - cbn. f_equal. f_equal. lia.
  - cbn [List.length v3_suites_loop].
    change (pair_bytes ((hi, lo) :: ss) ++ rest)
      with (hi :: lo :: pair_bytes ss ++ rest) in Hc.
    cur_read Hc 0%nat. cur_read Hc 1%nat.
    rewrite (IH cfg (p + 2) _ rest)
      by (apply (cursor_skip cfg p [hi; lo]); [exact Hc|reflexivity]).
    f_equal. f_equal; [rewrite len_cons; lia|].
    unfold join_onto. cbn [map fold_left]. f_equal.
    unfold spec_v3_token. rewrite !c2x_spec_hex.
    destruct (negb (u8 hi =? 0)); [apply string_app_assoc|reflexivity].
Qed.

Lemma v3_compression_loop_wire ms :
  forall cfg p q rest,
    at_cursor cfg p (ms ++ rest) ->
    v3_compression_loop (List.length ms) cfg p q =
      Ok (p + len ms, join_onto q (map spec_hex ms)).
Proof.
  induction ms as [|m ms IH]; intros cfg p q rest Hc.
  - cbn. f_equal. f_equal. lia.
  - cbn [List.length v3_compression_loop].
    change ((m :: ms) ++ rest) with (m :: ms ++ rest) in Hc.
    cur_read Hc 0%nat.
    rewrite (IH cfg (p + 1) _ rest)
      by (apply (cursor_skip cfg p [m]); [exact Hc|reflexivity]).
    f_equal. f_equal; [rewrite len_cons; lia|].
    unfold join_onto. cbn [map fold_left]. rewrite c2x_spec_hex. reflexivity.
Qed.

Lemma v3_ec_point_loop_wire fs :
  forall cfg p c rest,
    at_cursor cfg p (fs ++ rest) ->
    v3_ec_point_loop (List.length fs) cfg p c =
      Ok (p + len fs, join_onto c (map spec_hex fs)).
Proof.
  induction fs as [|m fs IH]; intros cfg p q rest Hc.
  - cbn. f_equal. f_equal. lia.
  - cbn [List.length v3_ec_point_loop].
    change ((m :: fs) ++ rest) with (m :: fs ++ rest) in Hc.
    cur_read Hc 0%nat.
    rewrite (IH cfg (p + 1) _ rest)
      by (apply (cursor_skip cfg p [m]); [exact Hc|reflexivity]).
    f_equal. f_equal; [rewrite len_cons; lia|].
    unfold join_onto. cbn [map fold_left]. rewrite c2x_spec_hex. reflexivity.
Qed.

Lemma v3_curves_loop_wire gs :
  forall fuel cfg p ec_len e rest,
    at_cursor cfg p (pair_bytes gs ++ rest) ->
    ec_len = 2 * len gs ->
    (List.length gs <= fuel)%nat ->
    v3_curves_loop fuel cfg p ec_len e =
      Ok (p + 2 * len gs, join_onto e (map group_token gs)).
Proof.
  induction gs as [|[a b] gs IH]; intros fuel cfg p ec_len e rest Hc -> Hf.
  - destruct fuel; cbn; f_equal; f_equal; lia.
  - destruct fuel as [|fuel]; [cbn in Hf; lia|].
    cbn [v3_curves_loop].
    replace (2 * len ((a, b) :: gs) >? 0) with true
      by (symmetry; rewrite Z.gtb_ltb; apply Z.ltb_lt;
          rewrite len_cons; pose proof (len_nonneg gs); lia).
    change (pair_bytes ((a, b) :: gs) ++ rest)
      with (a :: b :: pair_bytes gs ++ rest) in Hc.
    cur_read Hc 0%nat. cur_read Hc 1%nat.
    rewrite (IH fuel cfg (p + 2) _ _ rest);
      [ | apply (cursor_skip cfg p [a; b]); [exact Hc|reflexivity]
        | rewrite len_cons; lia
        | cbn in Hf; lia ].
    f_equal. f_equal; [rewrite len_cons; lia|].
    unfold join_onto. cbn [map fold_left]. f_equal.
    unfold group_token. cbn [fst snd]. rewrite !c2x_spec_hex.
    apply string_app_assoc.
Qed.

Lemma spec_hex_nonempty b : spec_hex b <> EmptyString.
Proof. unfold spec_hex. discriminate. Qed.

Lemma join_spec_hex l :
  join_onto EmptyString (map spec_hex l) = String.concat "," (map spec_hex l).
Proof.
  apply join_onto_empty. apply Forall_forall. intros t Ht.
  apply in_map_iff in Ht. destruct Ht as (b & <- & _). apply spec_hex_nonempty.
Qed.

Lemma join_group_token l :
  join_onto EmptyString (map group_token l)
  = String.concat "," (map group_token l).
Proof.
  apply join_onto_empty. apply Forall_forall. intros t Ht.
  apply in_map_iff in Ht. destruct Ht as (b & <- & _).
  unfold group_token, spec_hex. discriminate.
Qed.

Lemma join_spec_v3_token l :
  join_onto EmptyString (map spec_v3_token l)
  = String.concat "," (map spec_v3_token l).
Proof.
  apply join_onto_empty. apply Forall_forall. intros t Ht.
  apply in_map_iff in Ht. destruct Ht as ([hi lo] & <- & _).
  unfold spec_v3_token, spec_hex.
  destruct (negb (u8 hi =? 0)); discriminate.
Qed.

Lemma join_extension_token l :
  join_onto EmptyString (map extension_token l)
  = String.concat "," (map extension_token l).
Proof.
  apply join_onto_empty. apply Forall_forall. intros t Ht.
  apply in_map_iff in Ht. destruct Ht as (e & <- & _).
  destruct e; unfold extension_token, spec_hex; discriminate.
Qed.

Lemma len_wire_extension e :
  len (wire_extension e) =
    match e with
    | ExtGroups gs => 6 + 2 * len gs
    | ExtPoints fs => 5 + len fs
    | ExtOther _ _ data => 4 + len data
    end.
Proof.
  destruct e; cbn [wire_extension be16 app];
    rewrite ?len_cons, ?len_app, ?len_cons, ?len_pair_bytes; try lia.
Qed.

Lemma len_wire_extensions_cons e es :
  len (wire_extensions (e :: es))
  = len (wire_extension e) + len (wire_extensions es).
Proof. cbn [wire_extensions flat_map]. apply len_app. Qed.

Lemma v3_extensions_loop_wire es :
  forall fuel cfg p elen q rest,
    Forall extension_ok es ->
    at_cursor cfg p (wire_extensions es ++ rest) ->
    elen = len (wire_extensions es) ->
    (Z.to_nat elen <= fuel)%nat ->
    v3_extensions_loop fuel cfg p elen q =
      Ok (fold_left extension_effect es cfg,
          join_onto q (map extension_token es)).
Proof.
  induction es as [|e es IH]; intros fuel cfg p elen q rest Hok Hc -> Hf.
  - destruct fuel; reflexivity.
  - inversion Hok as [|? ? He Hes]; subst.
    pose proof (len_nonneg (wire_extensions es)) as Hnn.
    rewrite len_wire_extensions_cons, len_wire_extension in Hf |- *.
    change (wire_extensions (e :: es) ++ rest)
      with ((wire_extension e ++ wire_extensions es) ++ rest) in Hc.
    rewrite <- app_assoc in Hc.
    destruct e as [gs|fs|t1 t2 data]; cbn [extension_ok] in He.
    + pose proof (len_nonneg gs) as Hg.
      destruct fuel as [|fuel]; [lia|].
      cbn [v3_extensions_loop].
      replace (6 + 2 * len gs + len (wire_extensions es) >? 0) with true
        by (symmetry; rewrite Z.gtb_ltb; apply Z.ltb_lt; lia).
      cbn [wire_extension be16 app] in Hc.
      cur_read Hc 0%nat. cur_read Hc 1%nat.
      cur_read Hc 2%nat. cur_read Hc 3%nat.
      change (u8 (byte_of_Z 0) * 256 + u8 (byte_of_Z 10) =? group_id)
        with true. cbv iota.
      cur_read Hc 4%nat. cur_read Hc 5%nat.
      rewrite (be16_value (2 * len gs)) by lia.
      rewrite (be16_value (2 + 2 * len gs)) by lia.
      rewrite (v3_curves_loop_wire gs _ _ _ _ _ (wire_extensions es ++ rest));
        [ | refine (cursor_skip _ p
                      [_; _; _; _; _; _] _ _ Hc _); rewrite !len_cons, len_nil; lia
          | reflexivity
          | unfold len; lia ].
      cbn [bind].
      rewrite (IH fuel _ _ _ _ rest Hes);
        [ | refine (cursor_skip _ p
                      ([_; _; _; _; _; _] ++ pair_bytes gs) _ _ _ _);
            [ rewrite <- app_assoc; exact Hc
            | rewrite len_app, len_pair_bytes, !len_cons, len_nil; lia ]
          | lia
          | lia ].
      cbn [fold_left map join_onto]. f_equal. f_equal.
      * unfold extension_effect. rewrite join_group_token. reflexivity.
      * f_equal. rewrite string_app_assoc. reflexivity.
    + pose proof (len_nonneg fs) as Hg.
      destruct fuel as [|fuel]; [lia|].
      cbn [v3_extensions_loop].
      replace (5 + len fs + len (wire_extensions es) >? 0) with true
        by (symmetry; rewrite Z.gtb_ltb; apply Z.ltb_lt; lia).
      cbn [wire_extension be16 app] in Hc.
      cur_read Hc 0%nat. cur_read Hc 1%nat.
      cur_read Hc 2%nat. cur_read Hc 3%nat.
      change (u8 (byte_of_Z 0) * 256 + u8 (byte_of_Z 11) =? group_id)
        with false.
      change (u8 (byte_of_Z 0) * 256 + u8 (byte_of_Z 11) =? ec_point_ext_id)
        with true. cbv iota.
      cur_read Hc 4%nat.
      rewrite (u8_byte_small (len fs)) by lia.
      rewrite (be16_value (1 + len fs)) by lia.
      replace (Z.to_nat (len fs)) with (List.length fs) by (unfold len; lia).
      rewrite (v3_ec_point_loop_wire fs _ _ _ (wire_extensions es ++ rest));
        [ | refine (cursor_skip _ p [_; _; _; _; _] _ _ Hc _); rewrite !len_cons, len_nil; lia ].
      cbn [bind].
      rewrite (IH fuel _ _ _ _ rest Hes);
        [ | refine (cursor_skip _ p
                      ([_; _; _; _; _] ++ fs) _ _ _ _);
            [ rewrite <- app_assoc; exact Hc
            | rewrite len_app, !len_cons, len_nil; lia ]
          | lia
          | lia ].
      cbn [fold_left map join_onto]. f_equal. f_equal.
      * unfold extension_effect. rewrite join_spec_hex. reflexivity.
      * f_equal. rewrite string_app_assoc. reflexivity.
    + pose proof (len_nonneg data) as Hg.
      destruct He as (Hd & Hng & Hnp).
      destruct fuel as [|fuel]; [lia|].
      cbn [v3_extensions_loop].
      replace (4 + len data + len (wire_extensions es) >? 0) with true
        by (symmetry; rewrite Z.gtb_ltb; apply Z.ltb_lt; lia).
      cbn [wire_extension be16 app] in Hc.
      cur_read Hc 0%nat. cur_read Hc 1%nat.
      cur_read Hc 2%nat. cur_read Hc 3%nat.
      replace (u8 t1 * 256 + u8 t2 =? group_id) with false
        by (symmetry; apply Z.eqb_neq; exact Hng).
      replace (u8 t1 * 256 + u8 t2 =? ec_point_ext_id) with false
        by (symmetry; apply Z.eqb_neq; exact Hnp).
      rewrite (be16_value (len data)) by lia.
      rewrite (IH fuel _ _ _ _ rest Hes);
        [ | refine (cursor_skip _ p
                      ([_; _; _; _] ++ data) _ _ _ _);
            [ rewrite <- app_assoc; exact Hc
            | rewrite len_app, !len_cons, len_nil; lia ]
          | lia
          | lia ].
      unfold join_onto. cbn [fold_left map extension_token].
      rewrite !c2x_spec_hex, string_app_assoc. reflexivity.
Qed.
(** ** The decoder on a well-formed message *)

Lemma c2x_byte_of_Z z : c2x z = spec_hex (byte_of_Z z).
Proof.
  rewrite <- c2x_spec_hex, u8_byte_of_Z. unfold c2x. cbv zeta.
  change 255 with (Z.ones 8). rewrite !Z.land_ones by lia.
  change (2 ^ 8) with 256. rewrite Z.mod_mod by lia. reflexivity.
Qed.

Lemma hex_copy_wire bs :
  forall cfg p q rest,
    at_cursor cfg p (bs ++ rest) ->
    hex_copy (List.length bs) cfg p q = Ok (q ++ hex_of bs)%string.
Proof.
  induction bs as [|b bs IH]; intros cfg p q rest Hc.
  - cbn. rewrite string_app_nil_r. reflexivity.
  - cbn [List.length hex_copy].
    change ((b :: bs) ++ rest) with (b :: bs ++ rest) in Hc.
    cur_read Hc 0%nat.
    rewrite (IH cfg (p + 1) _ rest)
      by (apply (cursor_skip cfg p [b]); [exact Hc|reflexivity]).
    rewrite c2x_spec_hex, string_app_assoc. reflexivity.
Qed.

Lemma v3_extensions_wire cfg p mylen es rest :
  Forall extension_ok es ->
  len (wire_extensions es) < 65536 ->
  at_cursor cfg p (wire_extension_block (Some es) ++ rest) ->
  2 + len (wire_extensions es) <= mylen ->
  v3_extensions cfg p mylen = Ok (1, decoded_extensions cfg (Some es)).
Proof.
  intros Hok Hlt Hc Hm.
  pose proof (len_nonneg (wire_extensions es)) as Hnn.
  unfold v3_extensions. cbv zeta.
  replace (mylen <? 2) with false by (symmetry; apply Z.ltb_ge; lia).
  cbn [wire_extension_block be16 app] in Hc.
  cur_read Hc 0%nat. cur_read Hc 1%nat.
  rewrite (be16_value (len (wire_extensions es))) by lia.
  replace (mylen - 2 <? len (wire_extensions es)) with false
    by (symmetry; apply Z.ltb_ge; lia).
  rewrite (v3_extensions_loop_wire es _ _ _ _ _ rest Hok);
    [ | refine (cursor_skip _ p [_; _] _ _ Hc _);
        rewrite !len_cons, len_nil; lia
      | reflexivity
      | lia ].
  cbn [bind]. rewrite join_extension_token. reflexivity.
Qed.

Lemma len_wire_extension_block exts :
  len (wire_extension_block exts) =
    match exts with
    | None => 0
    | Some es => 2 + len (wire_extensions es)
    end.
Proof.
  destruct exts as [es|]; [|reflexivity].
  cbn [wire_extension_block be16 app]. rewrite !len_cons. lia.
Qed.

Lemma v3_compression_wire cfg p mylen ms exts rest :
  len ms < 256 ->
  match exts with
  | None => True
  | Some es => Forall extension_ok es /\ len (wire_extensions es) < 65536
  end ->
  at_cursor cfg p (byte_of_Z (len ms) :: ms ++ wire_extension_block exts ++ rest) ->
  mylen = 1 + len ms + len (wire_extension_block exts) ->
  v3_compression cfg p mylen = Ok (1, decoded_compression cfg ms exts).
Proof.
  intros Hms Hex Hc ->.
  pose proof (len_nonneg ms) as Hnn.
  pose proof (len_nonneg (wire_extension_block exts)) as Hnb.
  unfold v3_compression. cbv zeta.
  replace (1 + len ms + len (wire_extension_block exts) <? 1) with false
    by (symmetry; apply Z.ltb_ge; lia).
  cur_read Hc 0%nat.
  rewrite (u8_byte_small (len ms)) by lia.
  replace (1 + len ms + len (wire_extension_block exts) - 1 <? len ms)
    with false by (symmetry; apply Z.ltb_ge; lia).
  replace (Z.to_nat (len ms)) with (List.length ms) by (unfold len; lia).
  rewrite (v3_compression_loop_wire ms _ _ _
             (wire_extension_block exts ++ rest))
    by (refine (cursor_skip _ p [_] _ _ Hc _);
        rewrite !len_cons, len_nil; lia).
  cbn [bind]. rewrite join_spec_hex.
  cbn [compression_len set_compression_methods set_compression_len].
  rewrite len_wire_extension_block.
  destruct exts as [es|].
  - pose proof (len_nonneg (wire_extensions es)) as Hne.
    destruct Hex as [Hok Hlt].
    replace (1 + len ms + (2 + len (wire_extensions es)) - 1 - len ms =? 0)
      with false by (symmetry; apply Z.eqb_neq; lia).
    unfold decoded_compression.
    apply (v3_extensions_wire _ _ _ es rest Hok Hlt); [|lia].
    refine (cursor_skip _ p (_ :: ms) _ _ Hc _). rewrite len_cons. lia.
  - replace (1 + len ms + 0 - 1 - len ms =? 0) with true
      by (symmetry; apply Z.eqb_eq; lia).
    reflexivity.
Qed.

Lemma c2x_land x : c2x (Z.land x 255) = c2x x.
Proof.
  unfold c2x. cbv zeta. rewrite <- Z.land_assoc.
  change (Z.land 255 255) with 255. reflexivity.
Qed.

Lemma rebuilt_header_text cfg ml :
  (c2x 22 ++ c2x (protocol_high cfg) ++ c2x (protocol_low cfg)
   ++ c2x (Z.shiftr (ml + 4) 8) ++ c2x (Z.land (ml + 4) 255))%string
  = hex_of (rebuilt_header cfg ml).
Proof.
  rewrite c2x_land, Z.shiftr_div_pow2 by lia. change (2 ^ 8) with 256.
  rewrite !c2x_byte_of_Z. unfold hex_of, rebuilt_header.
  cbn [map string_cat fold_right]. rewrite string_app_nil_r. reflexivity.
Qed.

Lemma len_wire_body h :
  len (wire_body h) =
    2 + len (h_random h) + 1 + len (h_session h) + 2 + 2 * len (h_suites h)
    + 1 + len (h_compression h) + len (wire_extension_block (h_extensions h)).
Proof.
  unfold wire_body, be16.
  repeat (progress rewrite ?len_cons, ?len_app, ?len_pair_bytes).
  rewrite len_nil. lia.
Qed.

Lemma decode_wire_hello cfg h trailing :
  hello_ok h ->
  buf cfg = Some (wire_hello h ++ trailing) ->
  buf_len cfg = len (wire_hello h ++ trailing) ->
  decode_packet_v3_handshake cfg
  = Ok (1, decoded cfg h (wire_hello h ++ trailing)).
Proof.
  intros (Hrnd & Hsid & Hss & Hms & Hex & Hbody) Hb Hl.
  pose proof (len_wire_body h) as Hlb.
  assert (Hc : at_cursor cfg 0 (wire_hello h ++ trailing))
    by (exists []; split; [exact Hb|reflexivity]).
  assert (Hlen : buf_len cfg = 4 + len (wire_body h) + len trailing).
  { rewrite Hl. unfold wire_hello, be24.
    cbn [app]. repeat (progress rewrite ?len_cons, ?len_app).
    rewrite ?len_nil. lia. }
  destruct h as [hi lo rnd sid ss ms exts].
  cbn [h_high h_low h_random h_session h_suites h_compression h_extensions]
    in *.
  pose proof (len_nonneg sid) as Nsid. pose proof (len_nonneg ss) as Nss.
  pose proof (len_nonneg ms) as Nms. pose proof (len_nonneg trailing) as Ntr.
  pose proof (len_nonneg (wire_extension_block exts)) as Nex.
  set (h := mk_hello hi lo rnd sid ss ms exts) in *.
  set (body := len (wire_body h)) in *.
  unfold decode_packet_v3_handshake. cbv zeta.
  replace (buf_len cfg <? 4) with false by (symmetry; apply Z.ltb_ge; lia).
  assert (Hw : wire_hello h ++ trailing
               = byte_of_Z 1 :: byte_of_Z (body / 65536)
                 :: byte_of_Z (body / 256) :: byte_of_Z body
                 :: hi :: lo :: rnd
                 ++ byte_of_Z (len sid) :: sid
                 ++ byte_of_Z (2 * len ss / 256) :: byte_of_Z (2 * len ss)
                 :: pair_bytes ss
                 ++ (byte_of_Z (len ms) :: ms ++ wire_extension_block exts
                     ++ trailing)).
  { unfold wire_hello, be24, wire_body, be16, h, body.
    cbn [h_high h_low h_random h_session h_suites h_compression h_extensions
         app].
    repeat (rewrite <- ?app_assoc; cbn [app]). reflexivity. }
  rewrite Hw in Hc.
  cur_read Hc 0%nat. change (negb (u8 (byte_of_Z 1) =? 1)) with false.
  cbv iota.
  cur_read Hc 1%nat. cur_read Hc 2%nat. cur_read Hc 3%nat.
  rewrite (be24_value body) by (pose proof (len_nonneg (wire_body h)); lia).
  replace (body >? buf_len cfg - 4) with false
    by (symmetry; rewrite Z.gtb_ltb; apply Z.ltb_ge; lia).
  rewrite rebuilt_header_text.
  replace (Z.to_nat (buf_len cfg))
    with (List.length (wire_hello h ++ trailing))
    by (rewrite Hl; unfold len; lia).
  rewrite (hex_copy_wire (wire_hello h ++ trailing) _ 0 _ [])
    by (exists []; split; [rewrite app_nil_r; exact Hb|reflexivity]).
  cbn [bind]. rewrite <- hex_of_app.
  replace (body <? 34) with false by (symmetry; apply Z.ltb_ge; lia).
  cur_read Hc 4%nat. cur_read Hc 5%nat.
  replace (body - 34 <? 1) with false by (symmetry; apply Z.ltb_ge; lia).
  assert (Hc1 : at_cursor cfg (4 + 2 + 32)
                  (byte_of_Z (len sid) :: sid
                   ++ byte_of_Z (2 * len ss / 256) :: byte_of_Z (2 * len ss)
                   :: pair_bytes ss
                   ++ (byte_of_Z (len ms) :: ms ++ wire_extension_block exts
                       ++ trailing))).
  { refine (cursor_skip _ 0 (_ :: _ :: _ :: _ :: _ :: _ :: rnd) _ _ Hc _).
    rewrite !len_cons. lia. }
  cur_read Hc1 0%nat.
  rewrite (u8_byte_small (len sid)) by lia.
  replace (body - 34 - 1 <? len sid) with false
    by (symmetry; apply Z.ltb_ge; lia).
  replace (body - 34 - 1 - len sid <? 2) with false
    by (symmetry; apply Z.ltb_ge; lia).
  assert (Hc2 : at_cursor cfg (4 + 2 + 32 + 1 + len sid)
                  (byte_of_Z (2 * len ss / 256) :: byte_of_Z (2 * len ss)
                   :: pair_bytes ss
                   ++ (byte_of_Z (len ms) :: ms ++ wire_extension_block exts
                       ++ trailing))).
  { refine (cursor_skip _ _ (_ :: sid) _ _ Hc1 _). rewrite len_cons. lia. }
  cur_read Hc2 0%nat. cur_read Hc2 1%nat.
  rewrite (be16_value (2 * len ss)) by lia.
  replace (2 * len ss / 2) with (len ss)
    by (rewrite Z.mul_comm, Z.div_mul by lia; reflexivity).
  replace (body - 34 - 1 - len sid - 2 <? len ss * 2) with false
    by (symmetry; apply Z.ltb_ge; lia).
  replace (Z.to_nat (len ss)) with (List.length ss) by (unfold len; lia).
  rewrite (v3_suites_loop_wire ss _ _ _
             (byte_of_Z (len ms) :: ms ++ wire_extension_block exts
              ++ trailing))
    by (refine (cursor_skip _ _ [_; _] _ _ Hc2 _);
        rewrite !len_cons, len_nil; lia).
  cbn [bind]. rewrite join_spec_v3_token.
  rewrite (v3_compression_wire _ _ _ ms exts trailing Hms Hex).
  - unfold decoded.
    cbn [h h_high h_low h_random h_session h_suites h_compression
         h_extensions].
    replace (4 + 2 + 32 + 1 + len sid + 2) with (41 + len sid) by lia.
    reflexivity.
  - refine (cursor_skip _ _ (_ :: _ :: pair_bytes ss) _ _ Hc2 _).
    rewrite !len_cons, len_pair_bytes. lia.
  - cbn [slen set_tsuites set_tprotocol set_thandshake set_suites set_slen].
    lia.
Qed.
(** ** What is stored of a well-formed message *)

Lemma extension_effect_frame es :
  forall c,
    hello_core (fold_left extension_effect es c) = hello_core c
    /\ compression_len (fold_left extension_effect es c) = compression_len c
    /\ compression_methods (fold_left extension_effect es c)
       = compression_methods c
    /\ extensions (fold_left extension_effect es c) = extensions c.
Proof.
  induction es as [|e es IH]; intros c; [repeat split|].
  cbn [fold_left]. destruct (IH (extension_effect c e)) as (A & B & C & D).
  rewrite A, B, C, D. destruct e; repeat split.
Qed.

Lemma extension_effect_count es :
  forall c,
    extensions_len (fold_left extension_effect es c)
    = extensions_len c + len es.
Proof.
  induction es as [|e es IH]; intros c.
  - cbn. lia.
  - cbn [fold_left]. rewrite IH, len_cons.
    destruct e;
      cbn [extension_effect extensions_len set_extensions_len set_curves
           set_ec_point set_curve_len]; lia.
Qed.

Lemma extension_effect_lists es :
  forall c,
    curves (fold_left extension_effect es c) = last_groups es (curves c)
    /\ ec_point (fold_left extension_effect es c)
       = last_points es (ec_point c)
    /\ curve_len (fold_left extension_effect es c)
       = last_point_count es (curve_len c).
Proof.
  induction es as [|e es IH]; intros c; [repeat split|].
  unfold last_groups, last_points, last_point_count. cbn [fold_left].
  destruct (IH (extension_effect c e)) as (A & B & C).
  rewrite A, B, C. destruct e; repeat split.
Qed.

Lemma decoded_core cfg h bs :
  let cfg' := decoded cfg h bs in
  hello_core cfg'
  = hello_core
      (set_tsuites
         (Some (String.concat "," (map spec_v3_token (h_suites h))))
         (set_tprotocol
            (Some (fmt_d (u8 (h_high h)) ++ "." ++ fmt_d (u8 (h_low h)))%string)
            (set_thandshake (Some (fmt_d (hello_version cfg)))
               (set_suites (Some (41 + len (h_session h)))
                  (set_slen (len (h_suites h))
                     (set_protocol_low (u8 (h_low h))
                        (set_protocol_high (u8 (h_high h))
                           (set_client_hello
                              (Some (hex_of
                                       (rebuilt_header cfg (len (wire_body h))
                                        ++ bs))) cfg))))))))
  /\ compression_len cfg' = len (h_compression h)
  /\ compression_methods cfg'
     = Some (String.concat "," (map spec_hex (h_compression h))).
Proof.
  cbv zeta. unfold decoded, decoded_compression, decoded_extensions.
  cbv zeta. destruct (h_extensions h) as [es|].
  - match goal with
    | |- context [fold_left extension_effect es ?c] =>
        destruct (extension_effect_frame es c) as (A & B & C & _)
    end.
    unfold hello_core in A |- *. cfg_fields_in A. cfg_fields_in B.
    cfg_fields_in C. cfg_fields.
    split; [exact A|]. split; [exact B|exact C].
  - unfold hello_core. cfg_fields. repeat split.
Qed.

(** X8.  A well-formed ClientHello, alone or followed by further bytes in
    the buffer, is decoded to the end without leaving the buffer: the return
    value is 1, the stored version is the one inside the message, the
    handshake and protocol texts are set, the suite text lists the suites in
    order, each in lowercase hex without a leading zero byte, and the
    compression text lists the compression methods, two hex digits each.
    The record fields of the structure are left as they were. *)
Theorem hello_decoded cfg h trailing :
  hello_ok h ->
  buf cfg = Some (wire_hello h ++ trailing) ->
  buf_len cfg = len (wire_hello h ++ trailing) ->
  exists cfg',
    decode_packet_v3_handshake cfg = Ok (1, cfg')
    /\ protocol_high cfg' = u8 (h_high h)
    /\ protocol_low cfg' = u8 (h_low h)
    /\ thandshake cfg' = Some (fmt_d (hello_version cfg))
    /\ tprotocol cfg'
       = Some (fmt_d (u8 (h_high h)) ++ "." ++ fmt_d (u8 (h_low h)))%string
    /\ slen cfg' = len (h_suites h)
    /\ suites cfg' = Some (41 + len (h_session h))
    /\ tsuites cfg'
       = Some (String.concat "," (map spec_v3_token (h_suites h)))
    /\ compression_len cfg' = len (h_compression h)
    /\ compression_methods cfg'
       = Some (String.concat "," (map spec_hex (h_compression h)))
    /\ (state cfg', buf_protocol cfg', buf cfg', buf_len cfg', buf_to_go cfg',
        hello_version cfg', request_counter cfg', ipaddress_hash cfg')
       = (state cfg, buf_protocol cfg, buf cfg, buf_len cfg, buf_to_go cfg,
          hello_version cfg, request_counter cfg, ipaddress_hash cfg).
Proof.
  intros Hok Hb Hl. eexists. split; [apply (decode_wire_hello cfg h trailing); assumption|].
  generalize (decoded_core cfg h (wire_hello h ++ trailing)). cbv zeta.
  generalize (decoded cfg h (wire_hello h ++ trailing)).
  intros c' (A & B & C). unfold hello_core in A. cfg_fields_in A.
  injection A as A1 A2 A3 A4 A5 A6 A7 A8 A9 A10 A11 A12 A13 A14 A15 A16.
  rewrite A1, A2, A3, A4, A5, A6, A7, A8, A9, A10, A11, A12, A13, A14, A15,
    B, C.
  repeat split.
Qed.

Lemma sample_msg_ok : hello_ok sample_msg.
Proof.
  unfold hello_ok, sample_msg.
  cbn [h_random h_session h_suites h_compression h_extensions].
  split; [vm_compute; reflexivity|].
  split; [vm_compute; reflexivity|].
  split; [vm_compute; reflexivity|].
  split; [vm_compute; reflexivity|].
  split; [|vm_compute; reflexivity].
  split; [|vm_compute; reflexivity].
  apply Forall_cons;
    [split; [vm_compute; reflexivity|split; vm_compute; discriminate]|].
  apply Forall_cons; [vm_compute; reflexivity|].
  apply Forall_cons; [vm_compute; reflexivity|].
  apply Forall_nil.
Defined.

Lemma sample_msg_plain_ok : hello_ok sample_msg_plain.
Proof.
  unfold hello_ok, sample_msg_plain.
  cbn [h_random h_session h_suites h_compression h_extensions].
  split; [vm_compute; reflexivity|].
  split; [vm_compute; reflexivity|].
  split; [vm_compute; reflexivity|].
  split; [vm_compute; reflexivity|].
  split; [exact I|vm_compute; reflexivity].
Defined.

(** X8 on the sample message: its suites c02f and 0035 and its compression
    method 0. *)
Lemma hello_decoded_witness :
  exists cfg',
    decode_packet_v3_handshake (holding (wire_hello sample_msg ++ []))
    = Ok (1, cfg')
    /\ tsuites cfg' = Some "c02f,35"%string
    /\ compression_methods cfg' = Some "00"%string
    /\ tprotocol cfg' = Some "3.3"%string.
Proof.
  destruct (hello_decoded (holding (wire_hello sample_msg ++ [])) sample_msg
              [] sample_msg_ok eq_refl eq_refl)
    as (cfg' & Hd & _ & _ & _ & Htp & _ & _ & Hts & _ & Hcm & _).
  exists cfg'. split; [exact Hd|]. split; [|split].
  - rewrite Hts. reflexivity.
  - rewrite Hcm. reflexivity.
  - rewrite Htp. reflexivity.
Defined.

(** X9.  The extension block of a well-formed ClientHello.  Without a block
    the five extension fields stay as they were (on a fresh connection:
    NULL and 0).  With a block, the extension text lists the types of all
    extensions in order, four hex digits each, the count is their number,
    and the group and point-format texts are those of the last
    supported_groups and ec_point_formats extension of the block, if any;
    an empty block gives the empty text and the count 0. *)
Theorem extensions_decoded cfg h trailing :
  hello_ok h ->
  buf cfg = Some (wire_hello h ++ trailing) ->
  buf_len cfg = len (wire_hello h ++ trailing) ->
  exists cfg',
    decode_packet_v3_handshake cfg = Ok (1, cfg')
    /\ match h_extensions h with
       | None =>
           (extensions cfg', extensions_len cfg', curves cfg', ec_point cfg',
            curve_len cfg')
           = (extensions cfg, extensions_len cfg, curves cfg, ec_point cfg,
              curve_len cfg)
       | Some es =>
           extensions cfg'
           = Some (String.concat "," (map extension_token es))
           /\ extensions_len cfg' = len es
           /\ curves cfg' = last_groups es (curves cfg)
           /\ ec_point cfg' = last_points es (ec_point cfg)
           /\ curve_len cfg' = last_point_count es (curve_len cfg)
       end.
Proof.
  intros Hok Hb Hl. eexists. split; [apply (decode_wire_hello cfg h trailing); assumption|].
  unfold decoded, decoded_compression, decoded_extensions. cbv zeta.
  destruct (h_extensions h) as [es|]; [|reflexivity].
  match goal with
  | |- context [fold_left extension_effect es ?c] =>
      pose proof (extension_effect_count es c) as Hn;
      destruct (extension_effect_lists es c) as (A & B & C)
  end.
  split; [reflexivity|]. split; [|split; [|split]].
  - etransitivity; [exact Hn|]. cbn. reflexivity.
  - etransitivity; [exact A|]. reflexivity.
  - etransitivity; [exact B|]. reflexivity.
  - etransitivity; [exact C|]. reflexivity.
Qed.

(** X9 on the two sample messages. *)
Lemma extensions_decoded_witness :
  (exists cfg',
     decode_packet_v3_handshake (holding (wire_hello sample_msg ++ []))
     = Ok (1, cfg')
     /\ extensions cfg' = Some "0000,000a,000b"%string
     /\ extensions_len cfg' = 3
     /\ curves cfg' = Some "001d,0017"%string
     /\ ec_point cfg' = Some "00"%string)
  /\ (exists cfg',
        decode_packet_v3_handshake
          (holding (wire_hello sample_msg_plain ++ []))
        = Ok (1, cfg')
        /\ extensions cfg' = None).
Proof.
  split.
  - destruct (extensions_decoded (holding (wire_hello sample_msg ++ []))
                sample_msg [] sample_msg_ok eq_refl eq_refl)
      as (cfg' & Hd & He & Hn & Hc & Hp & _).
    exists cfg'. split; [exact Hd|].
    split; [rewrite He; reflexivity|].
    split; [rewrite Hn; reflexivity|].
    split; [rewrite Hc; reflexivity|rewrite Hp; reflexivity].
  - destruct (extensions_decoded
                (holding (wire_hello sample_msg_plain ++ []))
                sample_msg_plain [] sample_msg_plain_ok eq_refl eq_refl)
      as (cfg' & Hd & He).
    exists cfg'. split; [exact Hd|].
    cbn [h_extensions sample_msg_plain] in He.
    injection He as He _ _ _ _. rewrite He. reflexivity.
Defined.
(** ** From the record on the wire to the stored fingerprint *)

Lemma byte_of_Z_u8 b : byte_of_Z (u8 b) = b.
Proof.
  apply u8_inj. rewrite u8_byte_of_Z. apply Z.mod_small. apply u8_range.
Qed.

Lemma firstn_len_app {A} (a b : list A) :
  firstn (Z.to_nat (len a)) (a ++ b) = a.
Proof.
  unfold len. rewrite Nat2Z.id.
  rewrite firstn_app, Nat.sub_diag, firstn_all. cbn [firstn].
  apply app_nil_r.
Qed.

(** A record holding exactly one well-formed message, received in one
    bucket by a fresh connection. *)
Lemma hello_record_filtered h vh vl after :
  hello_ok h ->
  len (wire_hello h) <= BUF_LIMIT ->
  sslhaf_in_filter cfg_init
    (Brigade [DataBucket (handshake_record_of vh vl (wire_hello h) ++ after)])
  = Ok (set_state STATE_GOAWAY
          (set_buf None
             (decoded
                (set_buf_to_go 0
                   (set_buf_len (len (wire_hello h))
                      (set_buf (Some (wire_hello h))
                         (set_buf_to_go (len (wire_hello h))
                            (set_buf_len 0
                               (set_state STATE_BUFFER
                                  (set_buf (Some [])
                                     (set_protocol_low (u8 vl)
                                        (set_protocol_high (u8 vh)
                                           (set_hello_version 3
                                              (set_buf_protocol 22
                                                 cfg_init)))))))))))
                h (wire_hello h)))).
Proof.
  intros Hok Hlim.
  assert (Hpos : 4 <= len (wire_hello h)).
  { unfold wire_hello, be24. cbn [app]. rewrite !len_cons.
    pose proof (len_nonneg (wire_body h)). lia. }
  unfold BUF_LIMIT in Hlim.
  unfold sslhaf_in_filter. change (state cfg_init) with STATE_START.
  cbn [conn_state_eqb filter_buckets].
  unfold handshake_record_of, be16. cbn [app].
  rewrite decode_bucket_cons. unfold decode_bucket_round.
  change (state cfg_init) with STATE_START. cbn [conn_state_eqb orb].
  rewrite record_header_v3 by reflexivity. cbv zeta.
  rewrite (be16_value (len (wire_hello h))) by lia.
  unfold BUF_LIMIT. rewrite limit_test_false by lia.
  change (protocol_high cfg_init =? 0) with true. cbv iota.
  cbn [state set_buf_to_go set_buf_len set_state conn_state_eqb].
  unfold buffer_data.
  cbn [buf set_buf_to_go set_buf_len set_state set_buf buf_to_go].
  replace (len (wire_hello h)
           <=? Z.of_nat (List.length (wire_hello h ++ after))) with true
    by (symmetry; apply Z.leb_le; rewrite length_app; unfold len; lia).
  cbv zeta.
  cbn [buf_len buf_to_go set_buf set_buf_len set_buf_to_go hello_version
       set_state set_protocol_low set_protocol_high set_hello_version app].
  rewrite firstn_len_app.
  rewrite to_size_t_small
    by (assert (HM : SIZE_T_MOD = 18446744073709551616) by reflexivity; lia).
  change (3 =? 3) with true. cbv iota.
  unfold decode_packet_v3.
  cbn [buf_protocol set_buf set_buf_len set_buf_to_go
       set_state set_protocol_low set_protocol_high set_hello_version
       set_buf_protocol].
  change (22 =? PROTOCOL_HANDSHAKE) with true. cbv iota.
  change (0 + len (wire_hello h)) with (len (wire_hello h)).
  rewrite <- (app_nil_r (wire_hello h)) at 2 3.
  rewrite (decode_wire_hello _ h [] Hok);
    [ | rewrite app_nil_r; reflexivity | rewrite app_nil_r; reflexivity ].
  cbn [bind]. change (1 <? 0) with false. cbv iota. cbn [bind].
  change (1 <=? 0) with false. cbv iota.
  cbn [state set_state conn_state_eqb]. rewrite app_nil_r. reflexivity.
Qed.

Lemma len_wire_hello h : len (wire_hello h) = len (wire_body h) + 4.
Proof.
  unfold wire_hello, be24. cbn [app]. rewrite !len_cons. lia.
Qed.

(** X10.  A fresh connection that receives, in one bucket, an SSLv3+
    handshake record holding exactly one well-formed ClientHello of at most
    16384 bytes (whatever follows the record in the bucket) stops following
    the connection with the buffer released, and keeps as raw dump the hex
    text of exactly the record as it was received, header included; the
    published protocol is the version inside the message, and the suite
    text is that of the message. *)
Theorem hello_record_dump h vh vl after :
  hello_ok h ->
  len (wire_hello h) <= BUF_LIMIT ->
  exists cfg',
    sslhaf_in_filter cfg_init
      (Brigade [DataBucket (handshake_record_of vh vl (wire_hello h) ++ after)])
    = Ok cfg'
    /\ state cfg' = STATE_GOAWAY
    /\ buf cfg' = None
    /\ client_hello cfg'
       = Some (hex_of (handshake_record_of vh vl (wire_hello h)))
    /\ thandshake cfg' = Some "3"%string
    /\ tprotocol cfg'
       = Some (fmt_d (u8 (h_high h)) ++ "." ++ fmt_d (u8 (h_low h)))%string
    /\ tsuites cfg'
       = Some (String.concat "," (map spec_v3_token (h_suites h))).
Proof.
  intros Hok Hlim. eexists. split; [apply hello_record_filtered; assumption|].
  match goal with
  | |- context [decoded ?c h ?bs] =>
      destruct (decoded_core c h bs) as (A & _); cbv zeta in A;
      unfold hello_core in A; cfg_fields_in A;
      injection A as A1 A2 A3 A4 A5 A6 A7 A8 A9 A10 A11 A12 A13 A14 A15 A16
  end.
  split; [reflexivity|]. split; [reflexivity|].
  cbn [client_hello thandshake tprotocol tsuites set_state set_buf].
  rewrite A16, A11, A12, A13.
  split; [|repeat split].
  f_equal. f_equal. unfold rebuilt_header, handshake_record_of, be16.
  cbn [app]. rewrite !byte_of_Z_u8, len_wire_hello. reflexivity.
Qed.

(** X10 on the sample message in a record that announces TLS 1.0, followed
    by one more byte. *)
Lemma hello_record_dump_witness :
  exists cfg',
    sslhaf_in_filter cfg_init
      (Brigade
         [DataBucket
            (handshake_record_of (byte_of_Z 3) (byte_of_Z 1)
               (wire_hello sample_msg) ++ [byte_of_Z 20])])
    = Ok cfg'
    /\ state cfg' = STATE_GOAWAY
    /\ tprotocol cfg' = Some "3.3"%string
    /\ tsuites cfg' = Some "c02f,35"%string.
Proof.
  destruct (hello_record_dump sample_msg (byte_of_Z 3) (byte_of_Z 1)
              [byte_of_Z 20] sample_msg_ok
              ltac:(vm_compute; discriminate))
    as (cfg' & Hf & Hs & _ & _ & _ & Htp & Hts).
  exists cfg'. split; [exact Hf|]. split; [exact Hs|].
  split; [rewrite Htp; reflexivity|rewrite Hts; reflexivity].
Defined.
(** ** The SSLv2 decoder on any buffer *)

Lemma rebuilt_v2_header_text cfg :
  (let q := (c2x 128 ++ c2x (buf_len cfg + 3) ++ c2x 1)%string in
   if (protocol_high cfg =? 2) && (protocol_low cfg =? 0)
   then (q ++ c2x (protocol_low cfg) ++ c2x (protocol_high cfg))%string
   else (q ++ c2x (protocol_high cfg) ++ c2x (protocol_low cfg))%string)
  = hex_of (rebuilt_v2_header cfg).
Proof.
  cbv zeta. unfold rebuilt_v2_header, hex_of.
  destruct ((protocol_high cfg =? 2) && (protocol_low cfg =? 0));
    cbn [map string_cat fold_right]; rewrite !c2x_byte_of_Z;
    rewrite !string_app_assoc, string_app_nil_r; reflexivity.
Qed.

(** On a buffer whose recorded length is its real length the SSLv2 decoder
    reads nothing outside it. *)
Lemma decode_packet_v2_total cfg bs :
  buf cfg = Some bs ->
  buf_len cfg = len bs ->
  exists rc cfg',
    decode_packet_v2 cfg = Ok (rc, cfg')
    /\ client_hello cfg' = Some (hex_of (rebuilt_v2_header cfg ++ bs))
    /\ (len bs < 6 -> rc = -1)
    /\ (forall l0 l1 rest,
          bs = l0 :: l1 :: rest -> 6 <= len bs ->
          (len bs - 6 < u8 l0 * 256 + u8 l1 -> rc = -2)
          /\ (u8 l0 * 256 + u8 l1 <= len bs - 6 -> rc = 1))
    /\ (rc = 1 \/ rc = -1 \/ rc = -2)
    /\ (rc <> 1 ->
        tsuites cfg' = tsuites cfg /\ thandshake cfg' = thandshake cfg
        /\ tprotocol cfg' = tprotocol cfg).
Proof.
  intros Hb Hl. unfold decode_packet_v2.
  rewrite rebuilt_v2_header_text. cbv zeta.
  replace (Z.to_nat (buf_len cfg)) with (List.length bs)
    by (rewrite Hl; unfold len; lia).
  rewrite (hex_copy_wire bs cfg 0 _ [])
    by (exists []; split; [rewrite app_nil_r; exact Hb|reflexivity]).
  cbn [bind]. rewrite <- hex_of_app.
  cbn [buf_len set_client_hello]. rewrite Hl.
  destruct (len bs <? 6) eqn:H6.
  - apply Z.ltb_lt in H6. exists (-1). eexists. split; [reflexivity|].
    split; [reflexivity|]. split; [reflexivity|].
    split; [intros; lia|]. split; [auto|]. intros _. repeat split.
  - apply Z.ltb_ge in H6.
    destruct bs as [|l0 [|l1 [|s0 [|s1 [|c0 [|c1 region]]]]]];
      try (unfold len in H6; cbn [List.length] in H6; lia).
    assert (Hregion : len (l0 :: l1 :: s0 :: s1 :: c0 :: c1 :: region)
                      = 6 + len region) by (rewrite !len_cons; lia).
    rewrite Hregion.
    pose proof (read_buf_nth cfg _ 0 l0 Hb eq_refl) as R0.
    pose proof (read_buf_nth cfg _ 1 l1 Hb eq_refl) as R1.
    cbn [Z.of_nat Pos.of_succ_nat Pos.succ] in R0, R1.
    match goal with
    | |- context [bind (read_buf ?c 0) _] =>
        change (read_buf c 0) with (read_buf cfg 0);
        change (read_buf c 1) with (read_buf cfg 1)
    end.
    rewrite R0. cbn [bind]. rewrite R1. cbn [bind].
    set (L := u8 l0 * 256 + u8 l1).
    assert (HL0 : 0 <= L)
      by (pose proof (u8_range l0); pose proof (u8_range l1); unfold L; lia).
    destruct (6 + len region - 6 <? L) eqn:HL.
    + apply Z.ltb_lt in HL. exists (-2). eexists. split; [reflexivity|].
      split; [reflexivity|]. split; [intros; lia|].
      split.
      { intros l0' l1' rest' E _. injection E as <- <- _.
        fold L. split; intros; [reflexivity|lia]. }
      split; [auto|]. intros _. repeat split.
    + apply Z.ltb_ge in HL.
      assert (Hcount : (3 * Z.to_nat (L / 3) <= List.length region)%nat).
      { pose proof (Z.mul_div_le L 3 ltac:(lia)).
        pose proof (Z.div_pos L 3 HL0 ltac:(lia)). unfold len in HL. lia. }
      match goal with
      | |- context [v2_suites_loop ?n ?c 6 ?q] =>
          pose proof (v2_suites_loop_spec n c [l0; l1; s0; s1; c0; c1] region
                        q Hb Hcount) as Hloop;
          cbn [List.length Z.of_nat Pos.of_succ_nat Pos.succ] in Hloop;
          rewrite Hloop
      end.
      cbn [bind]. exists 1. eexists. split; [reflexivity|].
      split; [reflexivity|]. split; [intros; lia|].
      split.
      { intros l0' l1' rest' E _. injection E as <- <- _.
        fold L. split; intros; [lia|reflexivity]. }
      split; [auto|]. intros Hne. contradiction.
Qed.

(** X11.  On a buffer whose recorded length is its real length the SSLv2
    decoder never reads outside the buffer and always returns: [-1] when
    fewer than 6 bytes are buffered, [-2] when the declared cipher-spec
    length exceeds what follows the 6 length bytes, and 1 otherwise.  The
    raw dump is stored in every case, errors included: five rebuilt header
    bytes and the whole buffer in hex.  On an error the suite, handshake
    and protocol texts are left as they were. *)
Theorem v2_decoder_safe cfg bs :
  buf cfg = Some bs ->
  buf_len cfg = len bs ->
  exists rc cfg',
    decode_packet_v2 cfg = Ok (rc, cfg')
    /\ client_hello cfg' = Some (hex_of (rebuilt_v2_header cfg ++ bs))
    /\ (len bs < 6 -> rc = -1)
    /\ (forall l0 l1 rest,
          bs = l0 :: l1 :: rest -> 6 <= len bs ->
          (len bs - 6 < u8 l0 * 256 + u8 l1 -> rc = -2)
          /\ (u8 l0 * 256 + u8 l1 <= len bs - 6 -> rc = 1))
    /\ (rc = 1 \/ rc = -1 \/ rc = -2)
    /\ (rc <> 1 ->
        tsuites cfg' = tsuites cfg /\ thandshake cfg' = thandshake cfg
        /\ tprotocol cfg' = tprotocol cfg).
Proof. exact (decode_packet_v2_total cfg bs). Qed.

(** X11 on a buffer of three bytes and on one whose declared length is too
    large. *)
Lemma v2_decoder_safe_witness :
  (exists cfg',
     decode_packet_v2
       (set_buf (Some (bytes_of [0; 3; 0])) (set_buf_len 3 cfg_init))
     = Ok (-1, cfg'))
  /\ (exists cfg',
        decode_packet_v2
          (set_buf (Some (bytes_of [0; 3; 0; 0; 0; 0; 1; 2]))
             (set_buf_len 8 cfg_init))
        = Ok (-2, cfg')).
Proof.
  split.
  - destruct (v2_decoder_safe
                (set_buf (Some (bytes_of [0; 3; 0])) (set_buf_len 3 cfg_init))
                (bytes_of [0; 3; 0]) eq_refl eq_refl)
      as (rc & cfg' & Hd & _ & Hshort & _).
    exists cfg'. rewrite <- (Hshort ltac:(vm_compute; reflexivity)).
    exact Hd.
  - destruct (v2_decoder_safe
                (set_buf (Some (bytes_of [0; 3; 0; 0; 0; 0; 1; 2]))
                   (set_buf_len 8 cfg_init))
                (bytes_of [0; 3; 0; 0; 0; 0; 1; 2]) eq_refl eq_refl)
      as (rc & cfg' & Hd & _ & _ & Hlong & _).
    exists cfg'.
    destruct (Hlong _ _ _ eq_refl ltac:(vm_compute; discriminate))
      as [H2 _].
    rewrite <- (H2 ltac:(vm_compute; reflexivity)). exact Hd.
Defined.

Lemma v2_header_roundtrip cfg l v0 v1 :
  u8 l = buf_len cfg + 3 ->
  (protocol_high cfg, protocol_low cfg)
  = (if (u8 v0 =? 0) && (u8 v1 =? 2) then (u8 v1, u8 v0)
     else (u8 v0, u8 v1)) ->
  rebuilt_v2_header cfg
  = byte_of_Z 128 :: l :: byte_of_Z 1
    :: [fst (v2_dump_version v0 v1); snd (v2_dump_version v0 v1)].
Proof.
  intros Hl Hv. unfold rebuilt_v2_header, v2_dump_version.
  rewrite <- Hl, byte_of_Z_u8.
  destruct (u8 v0 =? 0) eqn:E0; destruct (u8 v1 =? 2) eqn:E2;
    cbn [andb] in Hv; injection Hv as Hh Hlw; rewrite Hh, Hlw;
    rewrite ?E0, ?E2; cbn [andb];
    try apply Z.eqb_eq in E0; try apply Z.eqb_eq in E2.
  - replace ((u8 v0 =? 2) && (u8 v1 =? 0)) with false
      by (rewrite E0; reflexivity).
    cbn [fst snd]. rewrite !byte_of_Z_u8. reflexivity.
  - destruct ((u8 v0 =? 2) && (u8 v1 =? 0)); cbn [fst snd];
      rewrite !byte_of_Z_u8; reflexivity.
  - destruct ((u8 v0 =? 2) && (u8 v1 =? 0)); cbn [fst snd];
      rewrite !byte_of_Z_u8; reflexivity.
  - destruct ((u8 v0 =? 2) && (u8 v1 =? 0)); cbn [fst snd];
      rewrite !byte_of_Z_u8; reflexivity.
Qed.

(** X12.  A fresh connection that receives, in one bucket, an SSLv2
    ClientHello record whose length byte counts the three bytes behind it
    and the body (whatever follows the record in the bucket) stops
    following the connection with the buffer released, whatever the decoder
    makes of the body.  The raw dump it keeps is the hex text of the record
    as received, except that the version bytes 02 00 are shown as 00 02. *)
Theorem v2_record_dump l v0 v1 body after :
  0 < len body ->
  u8 l = len body + 3 ->
  exists cfg',
    sslhaf_in_filter cfg_init
      (Brigade [DataBucket (v2_record_of l v0 v1 body ++ after)])
    = Ok cfg'
    /\ state cfg' = STATE_GOAWAY
    /\ buf cfg' = None
    /\ client_hello cfg'
       = Some (hex_of (v2_record_of l (fst (v2_dump_version v0 v1))
                         (snd (v2_dump_version v0 v1)) body)).
Proof.
  intros Hpos Hl.
  pose proof (u8_range l) as Hr.
  unfold sslhaf_in_filter. change (state cfg_init) with STATE_START.
  cbn [conn_state_eqb filter_buckets].
  unfold v2_record_of. cbn [app].
  rewrite decode_bucket_cons. unfold decode_bucket_round.
  change (state cfg_init) with STATE_START. cbn [conn_state_eqb orb].
  rewrite record_header_v2 by reflexivity. cbv zeta.
  assert (HM : SIZE_T_MOD = 18446744073709551616) by reflexivity.
  rewrite to_size_t_small by lia.
  unfold BUF_LIMIT. rewrite limit_test_false by lia.
  assert (Hin : (u8 l - 3 <=? Z.of_nat (List.length (body ++ after))) = true)
    by (apply Z.leb_le; rewrite length_app; unfold len in *; lia).
  destruct ((u8 v0 =? 0) && (u8 v1 =? 2)) eqn:Hswap;
    cfg_fields; cbn [conn_state_eqb];
    unfold buffer_data; cfg_fields; rewrite Hin; cbv zeta; cfg_fields;
    cbn [app];
    replace (u8 l - 3) with (len body) by lia;
    rewrite firstn_len_app;
    rewrite to_size_t_small by lia;
    change (2 =? 3) with false; cbv iota;
    match goal with
    | |- context [decode_packet_v2 ?c] =>
        destruct (decode_packet_v2_total c body eq_refl eq_refl)
          as (rc & cfg2 & Hd & Hdump & _);
        rewrite Hd;
        rewrite (v2_header_roundtrip c l v0 v1) in Hdump;
        [ | cfg_fields; lia
          | cfg_fields; rewrite Hswap; reflexivity ]
    end;
    cbn [bind];
    (destruct (rc <? 0) eqn:Hneg; cbn [bind];
     [ change (-1 <=? 0) with true
     | change (1 <=? 0) with false; cfg_fields; cbn [conn_state_eqb] ];
     cbv iota; eexists; (split; [reflexivity|]);
     cfg_fields; repeat split; exact Hdump).
Qed.

(** X12 on a record announcing version 02 00. *)
Lemma v2_record_dump_witness :
  exists cfg',
    sslhaf_in_filter cfg_init
      (Brigade
         [DataBucket
            (v2_record_of (byte_of_Z 9) (byte_of_Z 2) (byte_of_Z 0)
               (bytes_of [0; 0; 0; 0; 0; 0]) ++ [])])
    = Ok cfg'
    /\ client_hello cfg' = Some "8009010002000000000000"%string.
Proof.
  destruct (v2_record_dump (byte_of_Z 9) (byte_of_Z 2) (byte_of_Z 0)
              (bytes_of [0; 0; 0; 0; 0; 0]) []
              ltac:(vm_compute; reflexivity) ltac:(vm_compute; reflexivity))
    as (cfg' & Hf & _ & _ & Hd).
  exists cfg'. split; [exact Hf|]. rewrite Hd. reflexivity.
Defined.
(** ** From the decoded lists to the published ones *)

Lemma grease_table_pairs :
  grease_table
  = map (fun g => (spec_hex g ++ spec_hex g)%string)
      (map byte_of_Z
         [10; 26; 42; 58; 74; 90; 106; 122; 138; 154; 170; 186; 202; 218;
          234; 250]).
Proof. reflexivity. Qed.

Lemma grease_bytes (g : byte) :
  In g (map byte_of_Z
          [10; 26; 42; 58; 74; 90; 106; 122; 138; 154; 170; 186; 202; 218;
           234; 250])
  <-> u8 g mod 16 = 10.
Proof.
  split.
  - intros H. cbn [map In] in H.
    repeat (destruct H as [<-|H]; [reflexivity|]). contradiction.
  - intros H.
    assert (E : g = byte_of_Z (u8 g / 16 * 16 + 10)).
    { apply u8_inj. rewrite u8_byte_of_Z.
      pose proof (u8_range g). pose proof (Z.div_mod (u8 g) 16 ltac:(lia)).
      rewrite Z.mod_small by lia. lia. }
    rewrite E. pose proof (u8_range g) as Hr.
    assert (Hq : 0 <= u8 g / 16 < 16)
      by (split; [apply Z.div_pos; lia|apply Z.div_lt_upper_bound; lia]).
    generalize dependent (u8 g / 16). intros q _ Hq.
    assert (Hcases : q = 0 \/ q = 1 \/ q = 2 \/ q = 3 \/ q = 4 \/ q = 5
                     \/ q = 6 \/ q = 7 \/ q = 8 \/ q = 9 \/ q = 10 \/ q = 11
                     \/ q = 12 \/ q = 13 \/ q = 14 \/ q = 15) by lia.
    cbn [map In].
    repeat (destruct Hcases as [->|Hcases]; [tauto|]). subst q. tauto.
Qed.

Lemma spec_hex_pair_inj a b c d :
  (spec_hex a ++ spec_hex b)%string = (spec_hex c ++ spec_hex d)%string ->
  a = c /\ b = d.
Proof.
  unfold spec_hex. cbn [String.append]. intros H.
  injection H as H1 H2 H3 H4. split; apply spec_hex_inj; unfold spec_hex.
  - rewrite H1, H2. reflexivity.
  - rewrite H3, H4. reflexivity.
Qed.

(** A four-digit token is in the GREASE table exactly when its value is a
    GREASE value. *)
Lemma in_grease_table_group_token p :
  in_grease_table (group_token p) = is_grease_pair p.
Proof.
  destruct p as [a b]. unfold is_grease_pair, group_token. cbn [fst snd].
  apply eq_true_iff_eq. unfold in_grease_table.
  rewrite existsb_exists, andb_true_iff, Z.eqb_eq, Z.eqb_eq.
  rewrite grease_table_pairs. split.
  - intros (t & Hin & Heq). apply String.eqb_eq in Heq. subst t.
    apply in_map_iff in Hin. destruct Hin as (g & Hg & Hin).
    apply spec_hex_pair_inj in Hg. destruct Hg as [<- <-].
    split; [reflexivity|]. apply grease_bytes. exact Hin.
  - intros [Hab Hb]. apply u8_inj in Hab. subst b.
    exists (spec_hex a ++ spec_hex a)%string. split.
    + apply in_map_iff. exists a. split; [reflexivity|].
      apply grease_bytes. exact Hb.
    + apply String.eqb_eq. reflexivity.
Qed.

Lemma in_grease_table_length t :
  in_grease_table t = true -> String.length t = 4%nat.
Proof.
  unfold in_grease_table. rewrite existsb_exists.
  intros (g & Hin & Heq). apply String.eqb_eq in Heq. subst g.
  cbn [grease_table In] in Hin.
  repeat (destruct Hin as [<-|Hin]; [reflexivity|]). contradiction.
Qed.

(** The same for a suite token, which drops a leading zero byte. *)
Lemma in_grease_table_v3_token p :
  in_grease_table (spec_v3_token p) = is_grease_pair p.
Proof.
  destruct p as [hi lo]. unfold spec_v3_token.
  destruct (u8 hi =? 0) eqn:E; cbn [negb].
  - apply Z.eqb_eq in E.
    destruct (in_grease_table (spec_hex lo)) eqn:G.
    + apply in_grease_table_length in G. discriminate G.
    + symmetry. unfold is_grease_pair. cbn [fst snd].
      destruct (u8 hi =? u8 lo) eqn:E2; [|reflexivity].
      apply Z.eqb_eq in E2. rewrite <- E2, E. reflexivity.
  - apply (in_grease_table_group_token (hi, lo)).
Qed.

Lemma concat_length_bound (sep : string) (k : nat) (ts : list string) :
  Forall (fun t => (String.length t <= k)%nat) ts ->
  (String.length (String.concat sep ts)
   <= (k + String.length sep) * List.length ts)%nat.
Proof.
  induction 1 as [|t ts Ht Hts IH]; [cbn; lia|].
  destruct ts as [|t' ts].
  - cbn [String.concat List.length]. lia.
  - change (String.concat sep (t :: t' :: ts))
      with (t ++ sep ++ String.concat sep (t' :: ts))%string.
    rewrite !string_length_app.
    change (List.length (t :: t' :: ts)) with (S (List.length (t' :: ts))).
    lia.
Qed.

Lemma filter_map_swap {A B} (f : A -> B) (p : B -> bool) (q : A -> bool)
    (l : list A) :
  (forall x, p (f x) = q x) ->
  filter p (map f l) = map f (filter q l).
Proof.
  intros H. induction l as [|x l IH]; [reflexivity|].
  cbn [map filter]. rewrite H, IH. destruct (q x); reflexivity.
Qed.

Section Pairs.

Variable tok : byte * byte -> string.
Hypothesis tok_hex : forall p, all_hex (tok p) = true.
Hypothesis tok_len : forall p, (1 <= String.length (tok p) <= 4)%nat.
Hypothesis tok_value :
  forall p, spec_hex_value (tok p) = u8 (fst p) * 256 + u8 (snd p).
Hypothesis tok_grease : forall p, in_grease_table (tok p) = is_grease_pair p.

Lemma pair_value_range (p : byte * byte) :
  0 <= u8 (fst p) * 256 + u8 (snd p) < 65536.
Proof. pose proof (u8_range (fst p)). pose proof (u8_range (snd p)). lia. Qed.

Lemma pair_decimal_length p : (String.length (pair_decimal p) <= 5)%nat.
Proof.
  unfold pair_decimal. apply fmt_d_length; [lia|].
  pose proof (pair_value_range p). change (10 ^ Z.of_nat 5) with 100000. lia.
Qed.

Lemma tok_convertible p : convertible (tok p).
Proof.
  pose proof (pair_value_range p) as Hr. pose proof (tok_len p) as Hl.
  unfold convertible. rewrite tok_value. split; [|split].
  - unfold is_hex_token. rewrite tok_hex.
    destruct (tok p); [cbn in Hl; lia|reflexivity].
  - unfold INT_MAX. lia.
  - pose proof (pair_decimal_length p) as Hd. unfold pair_decimal in Hd. lia.
Qed.

Lemma spec_normalize_pairs ps : spec_normalize (map tok ps) = ja3_list ps.
Proof.
  unfold spec_normalize, ja3_list. rewrite <- grease_table_spec.
  change (fun t => negb (existsb (String.eqb t) grease_table))
    with (fun t => negb (in_grease_table t)).
  rewrite (filter_map_swap tok _ (fun p => negb (is_grease_pair p)))
    by (intros x; rewrite tok_grease; reflexivity).
  rewrite map_map. f_equal. apply map_ext. intros p.
  rewrite tok_value. reflexivity.
Qed.

Lemma ja3_list_length ps :
  (String.length (ja3_list ps) <= 6 * List.length ps)%nat.
Proof.
  unfold ja3_list.
  pose proof (concat_length_bound "-" 5
                (map pair_decimal
                   (filter (fun p => negb (is_grease_pair p)) ps))) as H.
  cbn [String.length] in H. rewrite length_map in H.
  pose proof (filter_length_le (fun p => negb (is_grease_pair p)) ps) as Hf.
  assert (Hall : Forall (fun t => (String.length t <= 5)%nat)
                   (map pair_decimal
                      (filter (fun p => negb (is_grease_pair p)) ps))).
  { apply Forall_forall. intros t Ht. apply in_map_iff in Ht.
    destruct Ht as (p & <- & _). apply pair_decimal_length. }
  specialize (H Hall). lia.
Qed.

Lemma pairs_normalised ps :
  (List.length ps <= 16)%nat ->
  filter (fun p => negb (is_grease_pair p)) ps <> [] ->
  normalize (Some (String.concat "," (map tok ps))) = Ok (ja3_list ps).
Proof.
  intros Hn Hkept. rewrite <- spec_normalize_pairs.
  apply normalize_within_buffers.
  - apply Forall_forall. intros t Ht. apply in_map_iff in Ht.
    destruct Ht as (p & <- & _). apply tok_convertible.
  - pose proof (concat_length_bound "," 4 (map tok ps)) as H.
    cbn [String.length] in H. rewrite length_map in H.
    assert (Hall : Forall (fun t => (String.length t <= 4)%nat) (map tok ps)).
    { apply Forall_forall. intros t Ht. apply in_map_iff in Ht.
      destruct Ht as (p & <- & _). apply tok_len. }
    specialize (H Hall). lia.
  - rewrite (filter_map_swap tok _ (fun p => negb (is_grease_pair p)))
      by (intros x; rewrite tok_grease; reflexivity).
    destruct (filter (fun p => negb (is_grease_pair p)) ps);
      [contradiction|discriminate].
  - rewrite spec_normalize_pairs. pose proof (ja3_list_length ps). lia.
Qed.

End Pairs.

Lemma group_token_value p :
  spec_hex_value (group_token p) = u8 (fst p) * 256 + u8 (snd p).
Proof.
  unfold group_token, spec_hex_value.
  rewrite spec_hex_value_from_app, !spec_hex_value_byte. lia.
Qed.

Lemma group_token_hex p : all_hex (group_token p) = true.
Proof.
  unfold group_token. rewrite all_hex_app, !spec_hex_all_hex. reflexivity.
Qed.

Lemma group_token_len p : (1 <= String.length (group_token p) <= 4)%nat.
Proof. unfold group_token, spec_hex. cbn. lia. Qed.

Lemma spec_v3_token_len p : (1 <= String.length (spec_v3_token p) <= 4)%nat.
Proof.
  destruct p as [hi lo]. unfold spec_v3_token, spec_hex.
  destruct (negb (u8 hi =? 0)); cbn; lia.
Qed.

Lemma spec_v3_token_hex p : all_hex (spec_v3_token p) = true.
Proof. destruct p as [hi lo]. apply (spec_v3_token_value hi lo). Qed.

Lemma spec_v3_token_number p :
  spec_hex_value (spec_v3_token p) = u8 (fst p) * 256 + u8 (snd p).
Proof. destruct p as [hi lo]. apply (spec_v3_token_value hi lo). Qed.

(** X13.  The suite list as it is published.  For a decoded suite text of
    at most 16 suites, at least one of them not a GREASE value, the
    normaliser returns the suite numbers in decimal, in order, joined by
    hyphens, with the GREASE values left out; neither the 100-byte copy nor
    the 100-byte output block is overrun. *)
Theorem suites_normalised ss :
  (List.length ss <= 16)%nat ->
  filter (fun p => negb (is_grease_pair p)) ss <> [] ->
  normalize (Some (String.concat "," (map spec_v3_token ss)))
  = Ok (ja3_list ss).
Proof.
  apply (pairs_normalised spec_v3_token spec_v3_token_hex spec_v3_token_len
           spec_v3_token_number in_grease_table_v3_token).
Qed.

(** X13 on the suites 0a0a (GREASE), c02f and 0035. *)
Lemma suites_normalised_witness :
  normalize (Some "0a0a,c02f,35"%string) = Ok "49199-53"%string.
Proof.
  apply (suites_normalised
           [(byte_of_Z 10, byte_of_Z 10); (byte_of_Z 192, byte_of_Z 47);
            (byte_of_Z 0, byte_of_Z 53)]).
  - cbn [List.length]. lia.
  - vm_compute. discriminate.
Defined.

Lemma grease_loop_nothing_kept ts :
  forall out,
    Forall (fun t => in_grease_table t = true) ts ->
    grease_loop ts out = Ok out.
Proof.
  induction ts as [|t ts IH]; intros out Hall; [reflexivity|].
  inversion Hall as [|? ? Ht Hts]; subst.
  cbn [grease_loop]. rewrite Ht. cbn [bind]. apply IH. exact Hts.
Qed.

Lemma normalize_nothing_kept s :
  (String.length s < 100)%nat ->
  Forall (fun t => in_grease_table t = true) (strtok_all s) ->
  normalize (Some s) = Fault OutOfBoundsWrite.
Proof.
  intros Hlen Hall. unfold normalize, strcpy_100.
  replace (100 <? Z.of_nat (String.length s) + 1) with false
    by (symmetry; apply Z.ltb_ge; lia).
  cbn [bind]. rewrite (grease_loop_nothing_kept _ _ Hall). reflexivity.
Qed.

(** X14.  A list that fits the 100-byte copy but has no token outside the
    GREASE table, the empty text included, leaves the output block empty,
    and the normaliser then clears the byte in front of the block: the
    index [strlen - 1] is taken of an empty string. *)
Theorem nothing_kept_underflows s :
  (String.length s < 100)%nat ->
  Forall (fun t => in_grease_table t = true) (strtok_all s) ->
  normalize (Some s) = Fault OutOfBoundsWrite.
Proof. exact (normalize_nothing_kept s). Qed.

(** X14 on the empty text and on a list of two GREASE values. *)
Lemma nothing_kept_underflows_witness :
  normalize (Some ""%string) = Fault OutOfBoundsWrite
  /\ normalize (Some "0a0a,fafa"%string) = Fault OutOfBoundsWrite.
Proof.
  split.
  - apply nothing_kept_underflows; [cbn; lia|]. vm_compute. constructor.
  - apply nothing_kept_underflows; [cbn; lia|]. vm_compute.
    repeat constructor.
Defined.

Lemma spec_hex_convertible b : convertible (spec_hex b).
Proof.
  pose proof (u8_range b) as Hr.
  assert (Hv : spec_hex_value (spec_hex b) = u8 b)
    by (unfold spec_hex_value; rewrite spec_hex_value_byte; lia).
  unfold convertible. rewrite Hv. split; [|split].
  - unfold is_hex_token. rewrite spec_hex_all_hex. reflexivity.
  - unfold INT_MAX. lia.
  - pose proof (fmt_d_length (u8 b) 3 ltac:(lia)
                  ltac:(change (10 ^ Z.of_nat 3) with 1000; lia)).
    lia.
Qed.

Lemma spec_hex_not_grease b : in_grease_table (spec_hex b) = false.
Proof.
  destruct (in_grease_table (spec_hex b)) eqn:G; [|reflexivity].
  apply in_grease_table_length in G. discriminate G.
Qed.

Lemma spec_normalize_bytes fs :
  spec_normalize (map spec_hex fs)
  = String.concat "-" (map (fun b => fmt_d (u8 b)) fs).
Proof.
  unfold spec_normalize. rewrite <- grease_table_spec.
  change (fun t => negb (existsb (String.eqb t) grease_table))
    with (fun t => negb (in_grease_table t)).
  rewrite (filter_map_swap spec_hex _ (fun _ => true))
    by (intros x; rewrite spec_hex_not_grease; reflexivity).
  assert (E : filter (fun _ : byte => true) fs = fs)
    by (induction fs as [|x l IH]; [reflexivity|cbn [filter]; rewrite IH;
        reflexivity]).
  rewrite E, map_map. f_equal. apply map_ext. intros b.
  unfold spec_hex_value. rewrite spec_hex_value_byte. f_equal.
Qed.

Lemma bytes_decimal_length fs :
  (String.length (String.concat "-" (map (fun b => fmt_d (u8 b)) fs))
   <= 4 * List.length fs)%nat.
Proof.
  pose proof (concat_length_bound "-" 3
                (map (fun b => fmt_d (u8 b)) fs)) as H.
  cbn [String.length] in H. rewrite length_map in H.
  assert (Hall : Forall (fun t => (String.length t <= 3)%nat)
                   (map (fun b => fmt_d (u8 b)) fs)).
  { apply Forall_forall. intros t Ht. apply in_map_iff in Ht.
    destruct Ht as (b & <- & _). pose proof (u8_range b).
    apply fmt_d_length; [lia|]. change (10 ^ Z.of_nat 3) with 1000. lia. }
  specialize (H Hall). lia.
Qed.

Lemma string_length_concat_two (a b : string) (l : list string) :
  String.length (String.concat "," (a :: b :: l))
  = (String.length a + 1 + String.length (String.concat "," (b :: l)))%nat.
Proof.
  change (String.concat "," (a :: b :: l))
    with (a ++ "," ++ String.concat "," (b :: l))%string.
  rewrite !string_length_app. cbn [String.length]. lia.
Qed.

Lemma normalize_ec_point_long s :
  (2 < String.length s)%nat ->
  normalize_ec_point (Some s) = normalize (Some s).
Proof.
  intros Hlen. unfold normalize_ec_point, normalize, strcpy_100.
  destruct (100 <? Z.of_nat (String.length s) + 1); [reflexivity|].
  cbn [bind].
  replace (2 <? Z.of_nat (String.length s)) with true
    by (symmetry; apply Z.ltb_lt; lia).
  reflexivity.
Qed.

Lemma point_formats_text fs :
  (List.length fs <= 24)%nat ->
  normalize_ec_point (Some (String.concat "," (map spec_hex fs)))
  = Ok (ja3_points fs).
Proof.
  intros Hn. destruct fs as [|a [|b fs]].
  - reflexivity.
  - cbn [map String.concat ja3_points]. unfold normalize_ec_point, strcpy_100.
    assert (Hl2 : String.length (spec_hex a) = 2%nat) by reflexivity.
    rewrite Hl2. change (100 <? Z.of_nat 2 + 1) with false. cbv iota.
    cbn [bind]. rewrite Hl2. change (2 <? Z.of_nat 2) with false. cbv iota.
    destruct (spec_hex_convertible a) as (Htok & Hmax & Hdig).
    destruct (is_hex_token_parts _ Htok) as [_ Hhex].
    rewrite (str_to_dec_spec _ Hhex Hmax Hdig). cbn [bind].
    assert (Hv : spec_hex_value (spec_hex a) = u8 a)
      by (unfold spec_hex_value; rewrite spec_hex_value_byte; lia).
    rewrite Hv in Hdig |- *. unfold strcat_100. cbv zeta.
    cbn [String.append].
    replace (100 <? Z.of_nat (String.length (fmt_d (u8 a) ++ "-")) + 1)
      with false
      by (symmetry; apply Z.ltb_ge; rewrite string_length_app;
          cbn [String.length]; lia).
    cbn [bind]. unfold chop_last.
    pose proof (drop_last_hyphens [fmt_d (u8 a)]) as Hd.
    cbn [map string_cat fold_right String.concat] in Hd.
    rewrite string_app_nil_r in Hd.
    destruct (fmt_d (u8 a) ++ "-")%string eqn:E.
    + destruct (fmt_d (u8 a)); discriminate E.
    + f_equal. exact Hd.
  - assert (Hlen : (2 < String.length
                          (String.concat "," (map spec_hex (a :: b :: fs))))%nat).
    { cbn [map]. rewrite string_length_concat_two.
      change (String.length (spec_hex a)) with 2%nat. lia. }
    pose proof (normalize_ec_point_long _ Hlen) as Hsame.
    rewrite Hsame.
    change (ja3_points (a :: b :: fs))
      with (String.concat "-" (map (fun x => fmt_d (u8 x)) (a :: b :: fs))).
    rewrite <- spec_normalize_bytes.
    apply normalize_within_buffers.
    + apply Forall_forall. intros t Ht. apply in_map_iff in Ht.
      destruct Ht as (x & <- & _). apply spec_hex_convertible.
    + pose proof (concat_length_bound "," 2 (map spec_hex (a :: b :: fs))) as H.
      cbn [String.length] in H. rewrite length_map in H.
      assert (Hall : Forall (fun t => (String.length t <= 2)%nat)
                       (map spec_hex (a :: b :: fs))).
      { apply Forall_forall. intros t Ht. apply in_map_iff in Ht.
        destruct Ht as (x & <- & _). cbn. lia. }
      specialize (H Hall). lia.
    + cbn [map filter]. rewrite spec_hex_not_grease. discriminate.
    + rewrite spec_normalize_bytes.
      pose proof (bytes_decimal_length (a :: b :: fs)). lia.
Qed.

(** X15.  The point formats as they are published.  For the decoded text
    of at most 24 formats the block for [cfg->ec_point] returns them in
    decimal, in order, joined by hyphens; a single format takes the branch
    without [strtok], and so does an empty list, which is published as
    [0]. *)
Theorem point_formats_normalised fs :
  (List.length fs <= 24)%nat ->
  normalize_ec_point (Some (String.concat "," (map spec_hex fs)))
  = Ok (ja3_points fs).
Proof. exact (point_formats_text fs). Qed.

(** X15 on the formats 0, 1 and 2. *)
Lemma point_formats_normalised_witness :
  normalize_ec_point (Some "00,01,02"%string) = Ok "0-1-2"%string.
Proof.
  apply (point_formats_normalised (bytes_of [0; 1; 2])).
  cbn [List.length bytes_of map]. lia.
Defined.
(** ** What [sslhaf_post_request] publishes *)

Lemma post_request_env cfg ss xs gs fs :
  tsuites cfg = Some (String.concat "," (map spec_v3_token ss)) ->
  extensions cfg = Some (String.concat "," (map group_token xs)) ->
  ec_point cfg = Some (String.concat "," (map spec_hex fs)) ->
  curves cfg = Some (String.concat "," (map group_token gs)) ->
  (List.length ss <= 16)%nat ->
  (List.length xs <= 16)%nat ->
  (List.length fs <= 24)%nat ->
  (List.length gs <= 16)%nat ->
  filter (fun p => negb (is_grease_pair p)) ss <> [] ->
  filter (fun p => negb (is_grease_pair p)) xs <> [] ->
  filter (fun p => negb (is_grease_pair p)) gs <> [] ->
  sslhaf_post_request cfg
  = Ok (set_request_counter (request_counter cfg + 1) (set_buf None cfg),
        published cfg (ja3_list ss) (ja3_list xs) (ja3_points fs)
          (ja3_list gs)).
Proof.
  intros Hts Hex Hpt Hcv Hss Hxs Hfs Hgs Kss Kxs Kgs.
  unfold sslhaf_post_request. rewrite Hts. cbv zeta. cfg_fields.
  rewrite Hts, Hex, Hpt, Hcv.
  rewrite (pairs_normalised spec_v3_token spec_v3_token_hex spec_v3_token_len
             spec_v3_token_number in_grease_table_v3_token ss Hss Kss).
  cbn [bind].
  rewrite (pairs_normalised group_token group_token_hex group_token_len
             group_token_value in_grease_table_group_token xs Hxs Kxs).
  cbn [bind].
  rewrite (point_formats_text fs Hfs). cbn [bind].
  rewrite (pairs_normalised group_token group_token_hex group_token_len
             group_token_value in_grease_table_group_token gs Hgs Kgs).
  cbn [bind]. unfold apr_table_setn. cbn [List.app].
  replace (request_counter cfg + 1 =? 1) with (request_counter cfg =? 0)
    by (destruct (request_counter cfg =? 0) eqn:E;
        [apply Z.eqb_eq in E; rewrite E; reflexivity
        |apply Z.eqb_neq in E; symmetry; apply Z.eqb_neq; lia]).
  unfold published.
  destruct (request_counter cfg =? 0); destruct (client_hello cfg);
    reflexivity.
Qed.

(** X16.  On the first requests of a connection (the counter of an
    [unsigned int] not yet at its last value), for decoded lists of at most
    16 suites, 16 extensions, 16 groups and 24 point formats, each of the
    three two-byte lists with a value that is not GREASE, the hook runs to
    its end inside all its buffers and sets, in this order: the handshake
    and protocol texts, the suites, the compression text, the extension
    count, the extensions, the point formats and the groups, all lists in
    decimal with hyphens and without GREASE values, then [SSLHAF_LOG] on the
    first request only, and the raw dump. *)
Theorem fingerprint_published cfg ss xs gs fs :
  tsuites cfg = Some (String.concat "," (map spec_v3_token ss)) ->
  extensions cfg = Some (String.concat "," (map group_token xs)) ->
  ec_point cfg = Some (String.concat "," (map spec_hex fs)) ->
  curves cfg = Some (String.concat "," (map group_token gs)) ->
  (List.length ss <= 16)%nat ->
  (List.length xs <= 16)%nat ->
  (List.length fs <= 24)%nat ->
  (List.length gs <= 16)%nat ->
  filter (fun p => negb (is_grease_pair p)) ss <> [] ->
  filter (fun p => negb (is_grease_pair p)) xs <> [] ->
  filter (fun p => negb (is_grease_pair p)) gs <> [] ->
  0 <= request_counter cfg < 4294967295 ->
  exists cfg',
    sslhaf_post_request cfg
    = Ok (cfg',
          published cfg (ja3_list ss) (ja3_list xs) (ja3_points fs)
            (ja3_list gs))
    /\ buf cfg' = None
    /\ request_counter cfg' = request_counter cfg + 1
    /\ tsuites cfg' = tsuites cfg.
Proof.
  intros Hts Hex Hpt Hcv Hss Hxs Hfs Hgs Kss Kxs Kgs _.
  eexists. split.
  - apply post_request_env; eassumption.
  - repeat split.
Qed.

(** X16 on the decoded sample message. *)
Lemma fingerprint_published_witness :
  exists cfg',
    sslhaf_post_request
      (decoded (holding (wire_hello sample_msg)) sample_msg
         (wire_hello sample_msg))
    = Ok (cfg',
          [("SSLHAF_HANDSHAKE", Some "3"); ("SSLHAF_PROTOCOL", Some "3.3");
           ("SSLHAF_SUITES", Some "49199-53");
           ("SSLHAF_COMPRESSION", Some "00");
           ("SSLHAF_EXTENSIONS_LEN", Some "3");
           ("SSLHAF_EXTENSIONS", Some "0-10-11");
           ("EC_POINT", Some "0"); ("CURVES", Some "29-23");
           ("SSLHAF_LOG", Some "1");
           ("SSLHAF_RAW",
            client_hello
              (decoded (holding (wire_hello sample_msg)) sample_msg
                 (wire_hello sample_msg)))]%string).
Proof.
  destruct (fingerprint_published
              (decoded (holding (wire_hello sample_msg)) sample_msg
                 (wire_hello sample_msg))
              (h_suites sample_msg)
              [(byte_of_Z 0, byte_of_Z 0); (byte_of_Z 0, byte_of_Z 10);
               (byte_of_Z 0, byte_of_Z 11)]
              [(byte_of_Z 0, byte_of_Z 29); (byte_of_Z 0, byte_of_Z 23)]
              [byte_of_Z 0]
              eq_refl eq_refl eq_refl eq_refl
              ltac:(cbn; lia) ltac:(cbn; lia) ltac:(cbn; lia) ltac:(cbn; lia)
              ltac:(vm_compute; discriminate)
              ltac:(vm_compute; discriminate)
              ltac:(vm_compute; discriminate)
              ltac:(vm_compute; split; [discriminate|reflexivity]))
    as (cfg' & Hp & _).
  exists cfg'. rewrite Hp. vm_compute. reflexivity.
Defined.
(** ** From the record on the wire to the variables of the request *)

Lemma extension_token_type e :
  extension_token e = group_token (extension_type e).
Proof. destruct e; reflexivity. Qed.

Lemma last_groups_of es :
  forall start,
    last_groups es (option_map
                      (fun gs => String.concat "," (map group_token gs))
                      start)
    = option_map (fun gs => String.concat "," (map group_token gs))
        (fold_left
           (fun acc e => match e with ExtGroups gs => Some gs | _ => acc end)
           es start).
Proof.
  unfold last_groups. induction es as [|e es IH]; intros start;
    [reflexivity|].
  cbn [fold_left]. destruct e as [gs| |]; try apply IH.
  apply (IH (Some gs)).
Qed.

Lemma last_points_of es :
  forall start,
    last_points es (option_map
                      (fun fs => String.concat "," (map spec_hex fs))
                      start)
    = option_map (fun fs => String.concat "," (map spec_hex fs))
        (fold_left
           (fun acc e => match e with ExtPoints fs => Some fs | _ => acc end)
           es start).
Proof.
  unfold last_points. induction es as [|e es IH]; intros start;
    [reflexivity|].
  cbn [fold_left]. destruct e as [|fs|]; try apply IH.
  apply (IH (Some fs)).
Qed.

Lemma groups_of_some es :
  forall start gs,
    fold_left
      (fun acc e => match e with ExtGroups gs => Some gs | _ => acc end)
      es start = Some gs ->
    start = Some gs \/ exists gs', In (ExtGroups gs') es.
Proof.
  induction es as [|e es IH]; intros start gs H.
  - left. exact H.
  - cbn [fold_left] in H. apply IH in H. destruct H as [H|[gs' H]].
    + destruct e as [g| |]; try (left; exact H).
      right. exists g. left. reflexivity.
    + right. exists gs'. right. exact H.
Qed.

Lemma extension_types_kept es gs :
  groups_of es = Some gs ->
  filter (fun p => negb (is_grease_pair p)) (map extension_type es) <> [].
Proof.
  intros H. apply groups_of_some in H. destruct H as [H|[gs' H]];
    [discriminate|].
  intros E.
  assert (Hin : In (byte_of_Z 0, byte_of_Z 10)
                  (filter (fun p => negb (is_grease_pair p))
                     (map extension_type es))).
  { apply filter_In. split; [|reflexivity].
    apply in_map_iff. exists (ExtGroups gs'). split; [reflexivity|exact H]. }
  rewrite E in Hin. contradiction.
Qed.

Lemma decoded_extension_fields c h bs es :
  h_extensions h = Some es ->
  extensions (decoded c h bs)
  = Some (String.concat "," (map extension_token es))
  /\ extensions_len (decoded c h bs) = len es
  /\ curves (decoded c h bs) = last_groups es (curves c)
  /\ ec_point (decoded c h bs) = last_points es (ec_point c).
Proof.
  intros He. unfold decoded, decoded_compression, decoded_extensions.
  cbv zeta. rewrite He.
  match goal with
  | |- context [fold_left extension_effect es ?c] =>
      pose proof (extension_effect_count es c) as Hn;
      destruct (extension_effect_lists es c) as (A & B & _)
  end.
  cfg_fields_in Hn. cfg_fields_in A. cfg_fields_in B. cfg_fields.
  split; [reflexivity|]. split; [lia|]. split; assumption.
Qed.

(** X17.  From the wire to the request.  A fresh connection receives, in
    one bucket, an SSLv3+ handshake record holding exactly one well-formed
    ClientHello with at most 16 suites, 16 extensions, among them
    supported_groups with at most 16 groups and ec_point_formats with at
    most 24 formats, the suites and the groups each with a value that is
    not GREASE.  Then the filter stores the fingerprint and the first
    request on the connection publishes: handshake 3, the version inside
    the message, the suites, extension types and groups in decimal joined
    by hyphens without the GREASE values, the compression methods in hex,
    the number of extensions, the point formats in decimal, the log mark,
    and as raw dump the hex text of the record as it was received. *)
Theorem hello_fingerprint h vh vl after es gs fs :
  hello_ok h ->
  len (wire_hello h) <= BUF_LIMIT ->
  h_extensions h = Some es ->
  groups_of es = Some gs ->
  points_of es = Some fs ->
  (List.length (h_suites h) <= 16)%nat ->
  (List.length es <= 16)%nat ->
  (List.length gs <= 16)%nat ->
  (List.length fs <= 24)%nat ->
  filter (fun p => negb (is_grease_pair p)) (h_suites h) <> [] ->
  filter (fun p => negb (is_grease_pair p)) gs <> [] ->
  exists cfg1 cfg2,
    sslhaf_in_filter cfg_init
      (Brigade [DataBucket (handshake_record_of vh vl (wire_hello h) ++ after)])
    = Ok cfg1
    /\ sslhaf_post_request cfg1
       = Ok (cfg2,
             [("SSLHAF_HANDSHAKE", Some "3");
              ("SSLHAF_PROTOCOL",
               Some (fmt_d (u8 (h_high h)) ++ "." ++ fmt_d (u8 (h_low h))));
              ("SSLHAF_SUITES", Some (ja3_list (h_suites h)));
              ("SSLHAF_COMPRESSION",
               Some (String.concat "," (map spec_hex (h_compression h))));
              ("SSLHAF_EXTENSIONS_LEN", Some (fmt_d (len es)));
              ("SSLHAF_EXTENSIONS",
               Some (ja3_list (map extension_type es)));
              ("EC_POINT", Some (ja3_points fs));
              ("CURVES", Some (ja3_list gs));
              ("SSLHAF_LOG", Some "1");
              ("SSLHAF_RAW",
               Some (hex_of (handshake_record_of vh vl (wire_hello h))))]%string).
Proof.
  intros Hok Hlim He Hg Hp Hss Hes Hgs Hfs Kss Kgs.
  eexists. eexists. split; [apply hello_record_filtered; assumption|].
  match goal with
  | |- sslhaf_post_request ?c1 = _ => set (cfg1 := c1)
  end.
  match goal with
  | cfg1 := set_state _ (set_buf _ (decoded ?c h ?bs)) |- _ =>
      pose proof (decoded_core c h bs) as Hcore;
      destruct (decoded_extension_fields c h bs es He) as (Dx & Dn & Dc & Dp);
      set (cfgB := c) in *
  end.
  cbv zeta in Hcore. destruct Hcore as (Hcore & _ & Dm).
  unfold hello_core in Hcore. cfg_fields_in Hcore.
  injection Hcore as _ _ _ _ _ _ _ _ _ _ Dth Dtp Dts Drc _ Dch.
  assert (Fts : tsuites cfg1
                = Some (String.concat "," (map spec_v3_token (h_suites h))))
    by (unfold cfg1; cfg_fields; exact Dts).
  assert (Fex : extensions cfg1
                = Some (String.concat ","
                          (map group_token (map extension_type es)))).
  { unfold cfg1. cfg_fields. rewrite Dx, map_map. f_equal. f_equal.
    apply map_ext. apply extension_token_type. }
  assert (Fpt : ec_point cfg1
                = Some (String.concat "," (map spec_hex fs))).
  { unfold cfg1. cfg_fields. rewrite Dp.
    change (ec_point cfgB) with (@None string).
    pose proof (last_points_of es None) as L. cbn [option_map] in L.
    rewrite L. fold (points_of es). rewrite Hp. reflexivity. }
  assert (Fcv : curves cfg1
                = Some (String.concat "," (map group_token gs))).
  { unfold cfg1. cfg_fields. rewrite Dc.
    change (curves cfgB) with (@None string).
    pose proof (last_groups_of es None) as L. cbn [option_map] in L.
    rewrite L. fold (groups_of es). rewrite Hg. reflexivity. }
  rewrite (post_request_env cfg1 (h_suites h) (map extension_type es) gs fs
             Fts Fex Fpt Fcv Hss
             ltac:(rewrite length_map; exact Hes) Hfs Hgs Kss
             (extension_types_kept es gs Hg) Kgs).
  f_equal. f_equal. unfold published.
  assert (Fth : thandshake cfg1 = Some "3"%string)
    by (unfold cfg1; cfg_fields; rewrite Dth; reflexivity).
  assert (Ftp : tprotocol cfg1
                = Some (fmt_d (u8 (h_high h)) ++ "." ++ fmt_d (u8 (h_low h)))%string)
    by (unfold cfg1; cfg_fields; exact Dtp).
  assert (Fcm : compression_methods cfg1
                = Some (String.concat "," (map spec_hex (h_compression h))))
    by (unfold cfg1; cfg_fields; exact Dm).
  assert (Fn : extensions_len cfg1 = len es)
    by (unfold cfg1; cfg_fields; exact Dn).
  assert (Frc : request_counter cfg1 = 0)
    by (unfold cfg1; cfg_fields; rewrite Drc; reflexivity).
  assert (Fch : client_hello cfg1
                = Some (hex_of (handshake_record_of vh vl (wire_hello h)))).
  { unfold cfg1. cfg_fields. rewrite Dch. f_equal. f_equal.
    unfold rebuilt_header, handshake_record_of, be16, cfgB. cfg_fields.
    cbn [app]. rewrite !byte_of_Z_u8, len_wire_hello. reflexivity. }
  rewrite Fth, Ftp, Fcm, Fn, Frc, Fch. reflexivity.
Qed.

(** X17 on the sample message in a record that announces TLS 1.0. *)
Lemma hello_fingerprint_witness :
  exists cfg1 cfg2,
    sslhaf_in_filter cfg_init
      (Brigade
         [DataBucket
            (handshake_record_of (byte_of_Z 3) (byte_of_Z 1)
               (wire_hello sample_msg) ++ [])])
    = Ok cfg1
    /\ sslhaf_post_request cfg1
       = Ok (cfg2,
             [("SSLHAF_HANDSHAKE", Some "3"); ("SSLHAF_PROTOCOL", Some "3.3");
              ("SSLHAF_SUITES", Some "49199-53");
              ("SSLHAF_COMPRESSION", Some "00");
              ("SSLHAF_EXTENSIONS_LEN", Some "3");
              ("SSLHAF_EXTENSIONS", Some "0-10-11");
              ("EC_POINT", Some "0"); ("CURVES", Some "29-23");
              ("SSLHAF_LOG", Some "1");
              ("SSLHAF_RAW",
               Some (hex_of
                       (handshake_record_of (byte_of_Z 3) (byte_of_Z 1)
                          (wire_hello sample_msg))))]%string).
Proof.
  destruct (hello_fingerprint sample_msg (byte_of_Z 3) (byte_of_Z 1) []
              [ExtOther (byte_of_Z 0) (byte_of_Z 0) [];
               ExtGroups [(byte_of_Z 0, byte_of_Z 29);
                          (byte_of_Z 0, byte_of_Z 23)];
               ExtPoints [byte_of_Z 0]]
              [(byte_of_Z 0, byte_of_Z 29); (byte_of_Z 0, byte_of_Z 23)]
              [byte_of_Z 0]
              sample_msg_ok ltac:(vm_compute; discriminate)
              eq_refl eq_refl eq_refl
              ltac:(cbn; lia) ltac:(cbn; lia) ltac:(cbn; lia) ltac:(cbn; lia)
              ltac:(vm_compute; discriminate)
              ltac:(vm_compute; discriminate))
    as (cfg1 & cfg2 & Hf & Hp).
  exists cfg1, cfg2. split; [exact Hf|]. rewrite Hp. vm_compute. reflexivity.
Defined.

(** The fingerprint a fresh connection holds after a record with exactly
    one well-formed message. *)
Lemma hello_record_state h vh vl after :
  hello_ok h ->
  len (wire_hello h) <= BUF_LIMIT ->
  exists cfg1,
    sslhaf_in_filter cfg_init
      (Brigade [DataBucket (handshake_record_of vh vl (wire_hello h) ++ after)])
    = Ok cfg1
    /\ tsuites cfg1
       = Some (String.concat "," (map spec_v3_token (h_suites h)))
    /\ request_counter cfg1 = 0
    /\ match h_extensions h with
       | None =>
           extensions cfg1 = None /\ ec_point cfg1 = None
           /\ curves cfg1 = None
       | Some es =>
           extensions cfg1
           = Some (String.concat ","
                     (map group_token (map extension_type es)))
           /\ ec_point cfg1
              = option_map (fun fs => String.concat "," (map spec_hex fs))
                  (points_of es)
           /\ curves cfg1
              = option_map (fun gs => String.concat "," (map group_token gs))
                  (groups_of es)
       end.
Proof.
  intros Hok Hlim.
  eexists. split; [apply hello_record_filtered; assumption|].
  match goal with
  | |- tsuites ?c1 = _ /\ _ => set (cfg1 := c1)
  end.
  match goal with
  | cfg1 := set_state _ (set_buf _ (decoded ?c h ?bs)) |- _ =>
      pose proof (decoded_core c h bs) as Hcore;
      pose proof (decoded_extension_fields c h bs) as Hext;
      set (cfgB := c) in *
  end.
  cbv zeta in Hcore. destruct Hcore as (Hcore & _ & _).
  unfold hello_core in Hcore. cfg_fields_in Hcore.
  injection Hcore as _ _ _ _ _ _ _ _ _ _ _ _ Dts Drc _ _.
  split; [unfold cfg1; cfg_fields; exact Dts|].
  split; [unfold cfg1; cfg_fields; rewrite Drc; reflexivity|].
  destruct (h_extensions h) as [es|] eqn:He.
  - destruct (Hext es eq_refl) as (Dx & _ & Dc & Dp).
    split; [|split]; unfold cfg1; cfg_fields.
    + rewrite Dx, map_map. f_equal. f_equal.
      apply map_ext. apply extension_token_type.
    + rewrite Dp. apply (last_points_of es None).
    + rewrite Dc. apply (last_groups_of es None).
  - unfold cfg1, decoded, decoded_compression, decoded_extensions.
    rewrite He. cbv zeta. cfg_fields. repeat split.
Qed.

Lemma post_request_stages cfg ss :
  tsuites cfg = Some (String.concat "," (map spec_v3_token ss)) ->
  (List.length ss <= 16)%nat ->
  filter (fun p => negb (is_grease_pair p)) ss <> [] ->
  sslhaf_post_request cfg
  = (ext <- normalize (extensions cfg) ;;
     ec_pt <- normalize_ec_point (ec_point cfg) ;;
     cv <- normalize (curves cfg) ;;
     Ok (set_request_counter (request_counter cfg + 1) (set_buf None cfg),
         published cfg (ja3_list ss) ext ec_pt cv)).
Proof.
  intros Hts Hss Kss.
  unfold sslhaf_post_request. rewrite Hts. cbv zeta. cfg_fields.
  rewrite Hts.
  rewrite (pairs_normalised spec_v3_token spec_v3_token_hex spec_v3_token_len
             spec_v3_token_number in_grease_table_v3_token ss Hss Kss).
  cbn [bind].
  destruct (normalize (extensions cfg)) as [ext|]; cbn [bind];
    [|reflexivity].
  destruct (normalize_ec_point (ec_point cfg)) as [ec|]; cbn [bind];
    [|reflexivity].
  destruct (normalize (curves cfg)) as [cv|]; cbn [bind]; [|reflexivity].
  unfold apr_table_setn, published. cbn [List.app].
  replace (request_counter cfg + 1 =? 1) with (request_counter cfg =? 0)
    by (destruct (request_counter cfg =? 0) eqn:E;
        [apply Z.eqb_eq in E; rewrite E; reflexivity
        |apply Z.eqb_neq in E; symmetry; apply Z.eqb_neq; lia]).
  destruct (request_counter cfg =? 0); destruct (client_hello cfg);
    reflexivity.
Qed.

(** X18.  What the hook needs of the extension block.  A fresh connection
    receives a record with exactly one well-formed ClientHello of at most
    16 suites, one of them not GREASE.  Without an extension block, with a
    block that has no ec_point_formats extension, or with one that has
    point formats but no supported_groups extension, the first request
    hands a NULL pointer to [strcpy]; with an empty block it clears the
    byte in front of the empty extension text.  Nothing is published in
    these cases. *)
Theorem fingerprint_needs_extensions h vh vl after :
  hello_ok h ->
  len (wire_hello h) <= BUF_LIMIT ->
  (List.length (h_suites h) <= 16)%nat ->
  filter (fun p => negb (is_grease_pair p)) (h_suites h) <> [] ->
  exists cfg1,
    sslhaf_in_filter cfg_init
      (Brigade [DataBucket (handshake_record_of vh vl (wire_hello h) ++ after)])
    = Ok cfg1
    /\ (h_extensions h = None ->
        sslhaf_post_request cfg1 = Fault NullDereference)
    /\ (h_extensions h = Some [] ->
        sslhaf_post_request cfg1 = Fault OutOfBoundsWrite)
    /\ (forall es,
          h_extensions h = Some es ->
          (List.length es <= 16)%nat ->
          filter (fun p => negb (is_grease_pair p)) (map extension_type es)
          <> [] ->
          points_of es = None ->
          sslhaf_post_request cfg1 = Fault NullDereference)
    /\ (forall es fs,
          h_extensions h = Some es ->
          (List.length es <= 16)%nat ->
          points_of es = Some fs ->
          (List.length fs <= 24)%nat ->
          groups_of es = None ->
          filter (fun p => negb (is_grease_pair p)) (map extension_type es)
          <> [] ->
          sslhaf_post_request cfg1 = Fault NullDereference).
Proof.
  intros Hok Hlim Hss Kss.
  destruct (hello_record_state h vh vl after Hok Hlim)
    as (cfg1 & Hf & Hts & _ & Hext).
  exists cfg1. split; [exact Hf|].
  rewrite (post_request_stages cfg1 (h_suites h) Hts Hss Kss).
  split; [|split; [|split]].
  - intros He. rewrite He in Hext. destruct Hext as (Hx & _ & _).
    rewrite Hx. reflexivity.
  - intros He. rewrite He in Hext. destruct Hext as (Hx & _ & _).
    rewrite Hx. reflexivity.
  - intros es He Hes Kes Hp. rewrite He in Hext.
    destruct Hext as (Hx & Hpt & _). rewrite Hx, Hpt, Hp.
    rewrite (pairs_normalised group_token group_token_hex group_token_len
               group_token_value in_grease_table_group_token
               (map extension_type es)
               ltac:(rewrite length_map; exact Hes) Kes).
    reflexivity.
  - intros es fs He Hes Hp Hfs Hg Kes. rewrite He in Hext.
    destruct Hext as (Hx & Hpt & Hcv). rewrite Hx, Hpt, Hcv, Hp, Hg.
    rewrite (pairs_normalised group_token group_token_hex group_token_len
               group_token_value in_grease_table_group_token
               (map extension_type es)
               ltac:(rewrite length_map; exact Hes) Kes).
    cbn [bind option_map]. rewrite (point_formats_text fs Hfs).
    reflexivity.
Qed.

(** X18 on the sample message without an extension block. *)
Lemma fingerprint_needs_extensions_witness :
  exists cfg1,
    sslhaf_in_filter cfg_init
      (Brigade
         [DataBucket
            (handshake_record_of (byte_of_Z 3) (byte_of_Z 1)
               (wire_hello sample_msg_plain) ++ [])])
    = Ok cfg1
    /\ sslhaf_post_request cfg1 = Fault NullDereference.
Proof.
  destruct (fingerprint_needs_extensions sample_msg_plain (byte_of_Z 3)
              (byte_of_Z 1) [] sample_msg_plain_ok
              ltac:(vm_compute; discriminate) ltac:(cbn; lia)
              ltac:(vm_compute; discriminate))
    as (cfg1 & Hf & Hnone & _).
  exists cfg1. split; [exact Hf|]. apply Hnone. reflexivity.
Defined.
(** ** Records that are not a ClientHello *)

(** X19.  A fresh connection that receives, in one bucket, a whole
    handshake record of 1 to 16384 bytes that is shorter than a message
    header, or does not start with the message type 1, or announces a
    message longer than what the record holds behind the message header,
    stops following the connection with the buffer released and nothing
    stored; the requests on the connection then get no variable at all. *)
Theorem other_handshake_ignored vh vl body after :
  0 < len body <= BUF_LIMIT ->
  len body < 4
  \/ (exists b0 rest, body = b0 :: rest /\ u8 b0 <> 1)
  \/ (exists b0 b1 b2 b3 rest,
        body = b0 :: b1 :: b2 :: b3 :: rest
        /\ len rest < u8 b1 * 65536 + u8 b2 * 256 + u8 b3) ->
  exists cfg1,
    sslhaf_in_filter cfg_init
      (Brigade [DataBucket (handshake_record_of vh vl body ++ after)])
    = Ok cfg1
    /\ state cfg1 = STATE_GOAWAY
    /\ buf cfg1 = None
    /\ tsuites cfg1 = None
    /\ client_hello cfg1 = None
    /\ sslhaf_post_request cfg1 = Ok (cfg1, []).
Proof.
  intros Hlim Hother. unfold BUF_LIMIT in Hlim.
  assert (HM : SIZE_T_MOD = 18446744073709551616) by reflexivity.
  unfold sslhaf_in_filter. change (state cfg_init) with STATE_START.
  cbn [conn_state_eqb filter_buckets].
  unfold handshake_record_of, be16. cbn [app].
  rewrite decode_bucket_cons. unfold decode_bucket_round.
  change (state cfg_init) with STATE_START. cbn [conn_state_eqb orb].
  rewrite record_header_v3 by reflexivity. cbv zeta.
  rewrite (be16_value (len body)) by lia.
  unfold BUF_LIMIT. rewrite limit_test_false by lia.
  change (protocol_high cfg_init =? 0) with true. cbv iota.
  cfg_fields. cbn [conn_state_eqb].
  unfold buffer_data. cfg_fields.
  replace (len body <=? Z.of_nat (List.length (body ++ after))) with true
    by (symmetry; apply Z.leb_le; rewrite length_app; unfold len; lia).
  cbv zeta. cfg_fields. cbn [app].
  rewrite firstn_len_app.
  rewrite to_size_t_small by lia.
  change (3 =? 3) with true. cbv iota.
  unfold decode_packet_v3. cfg_fields.
  change (22 =? PROTOCOL_HANDSHAKE) with true. cbv iota.
  change (0 + len body) with (len body).
  match goal with
  | |- context [decode_packet_v3_handshake ?c] =>
      assert (Hd : decode_packet_v3_handshake c = Ok (1, c)
                   \/ decode_packet_v3_handshake c = Ok (-1, c)
                   \/ decode_packet_v3_handshake c = Ok (-2, c))
  end.
  { unfold decode_packet_v3_handshake. cbv zeta. cfg_fields.
    destruct (len body <? 4) eqn:H4; [right; left; reflexivity|].
    apply Z.ltb_ge in H4.
    destruct Hother as [Hshort|[(b0 & rest & -> & Hb0)|Hcut]]; [lia| |].
    - left.
      match goal with
      | |- context [bind (read_buf ?c 0) _] =>
          change (read_buf c 0) with (@Ok Z (u8 b0))
      end.
      cbn [bind].
      replace (u8 b0 =? 1) with false
        by (symmetry; apply Z.eqb_neq; exact Hb0).
      reflexivity.
    - destruct Hcut as (b0 & b1 & b2 & b3 & rest & -> & Hml).
      match goal with
      | |- context [bind (read_buf ?c 0) _] =>
          change (read_buf c 0) with (@Ok Z (u8 b0));
          change (read_buf c 1) with (@Ok Z (u8 b1));
          change (read_buf c 2) with (@Ok Z (u8 b2));
          change (read_buf c 3) with (@Ok Z (u8 b3))
      end.
      cbn [bind].
      destruct (u8 b0 =? 1); cbn [negb]; [|left; reflexivity].
      right. right.
      replace (u8 b1 * 65536 + u8 b2 * 256 + u8 b3
               >? len (b0 :: b1 :: b2 :: b3 :: rest) - 4) with true
        by (symmetry; rewrite Z.gtb_ltb; apply Z.ltb_lt;
            rewrite !len_cons; lia).
      reflexivity. }
  destruct Hd as [Hd|[Hd|Hd]]; rewrite Hd; cbn [bind].
  - change (1 <? 0) with false. cbv iota. cbn [bind].
    change (1 <=? 0) with false. cbv iota. cfg_fields.
    cbn [conn_state_eqb].
    eexists. split; [reflexivity|].
    unfold sslhaf_post_request. cfg_fields.
    change (tsuites cfg_init) with (@None string).
    change (client_hello cfg_init) with (@None string).
    cbv iota. repeat split.
  - change (-1 <? 0) with true. cbv iota. cbn [bind].
    change (-1 <=? 0) with true. cbv iota.
    eexists. split; [reflexivity|].
    unfold sslhaf_post_request. cfg_fields.
    change (tsuites cfg_init) with (@None string).
    change (client_hello cfg_init) with (@None string).
    cbv iota. repeat split.
  - change (-2 <? 0) with true. cbv iota. cbn [bind].
    change (-1 <=? 0) with true. cbv iota.
    eexists. split; [reflexivity|].
    unfold sslhaf_post_request. cfg_fields.
    change (tsuites cfg_init) with (@None string).
    change (client_hello cfg_init) with (@None string).
    cbv iota. repeat split.
Qed.

(** X19 on a record holding a ServerHello-like message of type 2. *)
Lemma other_handshake_ignored_witness :
  exists cfg1,
    sslhaf_in_filter cfg_init
      (Brigade
         [DataBucket
            (handshake_record_of (byte_of_Z 3) (byte_of_Z 1)
               (bytes_of [2; 0; 0; 1; 0]) ++ [])])
    = Ok cfg1
    /\ sslhaf_post_request cfg1 = Ok (cfg1, []).
Proof.
  destruct (other_handshake_ignored (byte_of_Z 3) (byte_of_Z 1)
              (bytes_of [2; 0; 0; 1; 0]) []
              ltac:(vm_compute; split; [reflexivity|discriminate])
              ltac:(right; left;
                    exists (byte_of_Z 2), (bytes_of [0; 0; 1; 0]);
                    split; [reflexivity|vm_compute; discriminate]))
    as (cfg1 & Hf & _ & _ & _ & _ & Hp).
  exists cfg1. split; [exact Hf|exact Hp].
Defined.
(** ** Return codes of the SSLv3+ decoder and what is stored with them *)

Lemma v3_extensions_loop_core fuel :
  forall cfg p elen q cfg' q',
    v3_extensions_loop fuel cfg p elen q = Ok (cfg', q') ->
    hello_core cfg' = hello_core cfg
    /\ compression_methods cfg' = compression_methods cfg
    /\ extensions cfg' = extensions cfg.
Proof.
  induction fuel as [|fuel IH]; intros cfg p elen q cfg' q';
    cbn [v3_extensions_loop]; destruct (elen >? 0).
  - discriminate.
  - intros H. inversion H. subst. repeat split.
  - cbv zeta. walk_ok; intros H; apply IH in H; exact H.
  - intros H. inversion H. subst. repeat split.
Qed.

Lemma v3_extensions_core cfg p mylen rc cfg' :
  v3_extensions cfg p mylen = Ok (rc, cfg') ->
  hello_core cfg' = hello_core cfg
  /\ compression_methods cfg' = compression_methods cfg
  /\ (rc = 1 \/ rc = -10 \/ rc = -11)
  /\ (rc <> 1 -> cfg' = cfg).
Proof.
  unfold v3_extensions. cbv zeta. walk_ok.
  - intros H; inversion H; subst. repeat split; auto.
  - intros H; inversion H; subst. repeat split; auto.
  - apply v3_extensions_loop_core in E1. destruct E1 as (A & B & _).
    intros H; inversion H; subst.
    split; [exact A|]. split; [exact B|]. split; [auto|].
    intros Hne. contradiction.
Qed.

Lemma v3_compression_core cfg p mylen rc cfg' :
  v3_compression cfg p mylen = Ok (rc, cfg') ->
  hello_core cfg' = hello_core cfg
  /\ (rc = 1 \/ -11 <= rc <= -8)
  /\ (rc = -8 \/ rc = -9 -> cfg' = cfg)
  /\ (rc = -10 \/ rc = -11 ->
      extensions cfg' = extensions cfg /\ compression_methods cfg' <> None).
Proof.
  unfold v3_compression. cbv zeta. walk_ok.
  - intros H; inversion H; subst.
    repeat split; auto; try lia; intros [?|?]; discriminate.
  - intros H; inversion H; subst.
    repeat split; auto; try lia; intros [?|?]; discriminate.
  - intros H; inversion H; subst.
    split; [reflexivity|]. split; [auto|].
    split; intros [?|?]; discriminate.
  - intros H. apply v3_extensions_core in H.
    destruct H as (A & B & C & D).
    split; [exact A|]. split; [lia|].
    split; [intros [?|?]; lia|].
    intros Hrc. rewrite (D ltac:(lia)). split; [reflexivity|discriminate].
Qed.

Lemma decode_packet_v3_handshake_stages cfg rc cfg' :
  decode_packet_v3_handshake cfg = Ok (rc, cfg') ->
  (rc = 1 \/ -11 <= rc <= -1)
  /\ (rc = -1 \/ rc = -2 -> cfg' = cfg)
  /\ (-7 <= rc <= -3 ->
      client_hello cfg' <> None
      /\ tsuites cfg' = tsuites cfg
      /\ thandshake cfg' = thandshake cfg
      /\ tprotocol cfg' = tprotocol cfg)
  /\ (-11 <= rc <= -8 ->
      client_hello cfg' <> None
      /\ tsuites cfg' <> None
      /\ thandshake cfg' <> None
      /\ tprotocol cfg' <> None
      /\ extensions cfg' = extensions cfg).
Proof.
  unfold decode_packet_v3_handshake. cbv zeta.
  walk_ok;
    try (intros H; inversion H; subst;
         split; [lia|];
         split; [intros _; reflexivity|];
         split; intros Hrc; lia);
    try (intros H; inversion H; subst;
         split; [lia|];
         split; [intros [?|?]; discriminate|];
         split; [intros _; cfg_fields; repeat split; discriminate|];
         intros Hrc; lia).
  intros H. apply v3_compression_core in H.
  destruct H as (A & B & C & D).
  unfold hello_core in A. cfg_fields_in A.
  injection A as _ _ _ _ _ _ _ _ _ _ Dth Dtp Dts _ _ Dch.
  split; [lia|]. split; [intros [?|?]; lia|]. split; [intros Hrc; lia|].
  intros Hrc. rewrite Dch, Dts, Dth, Dtp.
  split; [discriminate|]. split; [discriminate|].
  split; [discriminate|]. split; [discriminate|].
  assert (Hcase : rc = -8 \/ rc = -9 \/ rc = -10 \/ rc = -11) by lia.
  destruct Hcase as [Hc|[Hc|[Hc|Hc]]].
  - rewrite (C (or_introl Hc)). reflexivity.
  - rewrite (C (or_intror Hc)). reflexivity.
  - destruct (D (or_introl Hc)) as [Dx _]. rewrite Dx. reflexivity.
  - destruct (D (or_intror Hc)) as [Dx _]. rewrite Dx. reflexivity.
Qed.

(** X20.  The return codes of the SSLv3+ decoder and what is stored with
    each.  A return is 1 or one of [-1] to [-11].  With [-1] and [-2] the
    structure is untouched.  With [-3] to [-7] the raw dump is stored but
    the suite, handshake and protocol texts are as before.  With [-8] to
    [-11], the errors of the compression and extension parts, the dump and
    all three texts are stored although the message is turned down, and
    the extension text is as before. *)
Theorem decode_error_stages cfg rc cfg' :
  decode_packet_v3_handshake cfg = Ok (rc, cfg') ->
  (rc = 1 \/ -11 <= rc <= -1)
  /\ (rc = -1 \/ rc = -2 -> cfg' = cfg)
  /\ (-7 <= rc <= -3 ->
      client_hello cfg' <> None
      /\ tsuites cfg' = tsuites cfg
      /\ thandshake cfg' = thandshake cfg
      /\ tprotocol cfg' = tprotocol cfg)
  /\ (-11 <= rc <= -8 ->
      client_hello cfg' <> None
      /\ tsuites cfg' <> None
      /\ thandshake cfg' <> None
      /\ tprotocol cfg' <> None
      /\ extensions cfg' = extensions cfg).
Proof. exact (decode_packet_v3_handshake_stages cfg rc cfg'). Qed.

(** X20 on a message that ends behind its suites: it is turned down with
    [-8], and the suite text is stored. *)
Lemma decode_error_stages_witness :
  exists cfg',
    decode_packet_v3_handshake (buffered no_compression_hello)
    = Ok (-8, cfg')
    /\ tsuites cfg' <> None.
Proof.
  eexists. split; [vm_compute; reflexivity|].
  refine (proj1 (proj2 (proj2 (proj2 (proj2
            (decode_error_stages (buffered no_compression_hello) (-8) _ _)))
            _))).
  - vm_compute. reflexivity.
  - lia.
Defined.


(** ** What a successful [sslhaf_post_request] presupposes *)

(** X22.  When the hook returns, either no suite text was stored, and then
    it has changed nothing and set no variable, or all four lists (suites,
    extensions, point formats, groups) were stored, the packet buffer is
    released, and the variables set are exactly the eight fingerprint
    variables, [SSLHAF_LOG] if and only if the request counter was 0, and
    [SSLHAF_RAW], in this order. *)
Theorem post_request_needs_lists cfg cfg' e :
  sslhaf_post_request cfg = Ok (cfg', e) ->
  (tsuites cfg = None /\ cfg' = cfg /\ e = [])
  \/ (tsuites cfg <> None
      /\ extensions cfg <> None
      /\ ec_point cfg <> None
      /\ curves cfg <> None
      /\ buf cfg' = None
      /\ map fst e = published_names (request_counter cfg =? 0)).
Proof.
  unfold sslhaf_post_request.
  destruct (tsuites cfg) as [ts|] eqn:Hts.
  - cbv zeta. cfg_fields. rewrite Hts.
    destruct (normalize (Some ts)) as [s1|]; cbn [bind]; [|discriminate].
    destruct (extensions cfg) as [x|]; [|discriminate].
    destruct (normalize (Some x)) as [s2|]; cbn [bind]; [|discriminate].
    destruct (ec_point cfg) as [pt|]; [|discriminate].
    destruct (normalize_ec_point (Some pt)) as [s3|]; cbn [bind];
      [|discriminate].
    destruct (curves cfg) as [cv|]; [|discriminate].
    destruct (normalize (Some cv)) as [s4|]; cbn [bind]; [|discriminate].
    intros H. injection H as <- <-. right.
    split; [discriminate|]. split; [discriminate|].
    split; [discriminate|]. split; [discriminate|].
    split; [reflexivity|].
    replace (request_counter cfg + 1 =? 1) with (request_counter cfg =? 0)
      by (destruct (request_counter cfg =? 0) eqn:E;
          [apply Z.eqb_eq in E; rewrite E; reflexivity
          |apply Z.eqb_neq in E; symmetry; apply Z.eqb_neq; lia]).
    unfold apr_table_setn.
    destruct (request_counter cfg =? 0); destruct (client_hello cfg);
      reflexivity.
  - intros H. injection H as <- <-. left. repeat split.
Qed.

(** X22 on the decoded sample message. *)
Lemma post_request_needs_lists_witness :
  exists cfg' e,
    sslhaf_post_request
      (decoded (holding (wire_hello sample_msg)) sample_msg
         (wire_hello sample_msg)) = Ok (cfg', e)
    /\ map fst e = published_names true.
Proof.
  destruct (sslhaf_post_request
              (decoded (holding (wire_hello sample_msg)) sample_msg
                 (wire_hello sample_msg))) as [[cfg' e]|f] eqn:E.
  - exists cfg', e. split; [reflexivity|].
    destruct (post_request_needs_lists _ _ _ E)
      as [(Hnone & _)|(_ & _ & _ & _ & _ & Hnames)].
    + vm_compute in Hnone. discriminate Hnone.
    + exact Hnames.
  - vm_compute in E. discriminate E.
Defined.

Lemma decode_packet_v2_frame cfg rc cfg' :
  decode_packet_v2 cfg = Ok (rc, cfg') ->
  extensions cfg' = extensions cfg
  /\ (rc = 1 -> tsuites cfg' <> None)
  /\ (rc <> 1 -> tsuites cfg' = tsuites cfg).
Proof.
  unfold decode_packet_v2. cbv zeta. walk_ok;
    intros H; inversion H; subst; cfg_fields;
    (split; [reflexivity|]);
    (split; [intros; discriminate|intros Hne]);
    try reflexivity; contradiction.
Qed.

(** X23.  An SSLv2 ClientHello never gets its variables.  On a fresh
    connection that receives the record in one bucket, either the decoder
    turns the body down and the requests get no variable, or it stores the
    suite text and, the extension text never being set on this path, the
    first request fails: at the latest [strcpy] is handed a NULL
    pointer. *)
Theorem v2_hello_never_published l v0 v1 body after :
  0 < len body ->
  u8 l = len body + 3 ->
  exists cfg1,
    sslhaf_in_filter cfg_init
      (Brigade [DataBucket (v2_record_of l v0 v1 body ++ after)])
    = Ok cfg1
    /\ extensions cfg1 = None
    /\ (sslhaf_post_request cfg1 = Ok (cfg1, [])
        \/ exists f, sslhaf_post_request cfg1 = Fault f)
    /\ (forall l0 l1 rest,
          body = l0 :: l1 :: rest -> 6 <= len body ->
          u8 l0 * 256 + u8 l1 <= len body - 6 ->
          exists f, sslhaf_post_request cfg1 = Fault f).
Proof.
  intros Hpos Hl.
  pose proof (u8_range l) as Hr.
  unfold sslhaf_in_filter. change (state cfg_init) with STATE_START.
  cbn [conn_state_eqb filter_buckets].
  unfold v2_record_of. cbn [app].
  rewrite decode_bucket_cons. unfold decode_bucket_round.
  change (state cfg_init) with STATE_START. cbn [conn_state_eqb orb].
  rewrite record_header_v2 by reflexivity. cbv zeta.
  assert (HM : SIZE_T_MOD = 18446744073709551616) by reflexivity.
  rewrite to_size_t_small by lia.
  unfold BUF_LIMIT. rewrite limit_test_false by lia.
  assert (Hin : (u8 l - 3 <=? Z.of_nat (List.length (body ++ after))) = true)
    by (apply Z.leb_le; rewrite length_app; unfold len in *; lia).
  assert (Hpost : forall c,
            extensions c = None ->
            (tsuites c = None -> sslhaf_post_request c = Ok (c, []))
            /\ (tsuites c <> None ->
                exists f, sslhaf_post_request c = Fault f)).
  { intros c Hx. unfold sslhaf_post_request. split.
    - intros ->. reflexivity.
    - destruct (tsuites c) as [ts|] eqn:Hts; [|contradiction]. intros _.
      cbv zeta. cfg_fields. rewrite Hts, Hx.
      destruct (normalize (Some ts)) as [s1|f1]; cbn [bind];
        eexists; reflexivity. }
  destruct ((u8 v0 =? 0) && (u8 v1 =? 2)) eqn:Hswap;
    cfg_fields; cbn [conn_state_eqb];
    unfold buffer_data; cfg_fields; rewrite Hin; cbv zeta; cfg_fields;
    cbn [app];
    replace (u8 l - 3) with (len body) by lia;
    rewrite firstn_len_app;
    rewrite to_size_t_small by lia;
    change (2 =? 3) with false; cbv iota;
    match goal with
    | |- context [decode_packet_v2 ?c] =>
        destruct (decode_packet_v2_total c body eq_refl eq_refl)
          as (rc & cfg2 & Hd & _ & _ & Hcodes & _);
        destruct (decode_packet_v2_frame c rc cfg2 Hd) as (Fx & Fs & Fn);
        cfg_fields_in Fx; cfg_fields_in Fn;
        change (extensions cfg_init) with (@None string) in Fx;
        change (tsuites cfg_init) with (@None string) in Fn;
        rewrite Hd
    end;
    cbn [bind];
    (destruct (rc <? 0) eqn:Hneg; cbn [bind];
     [ change (-1 <=? 0) with true
     | change (1 <=? 0) with false; cfg_fields; cbn [conn_state_eqb] ];
     cbv iota; eexists; (split; [reflexivity|]);
     match goal with
     | |- extensions ?c1 = None /\ _ =>
         assert (Hx1 : extensions c1 = None) by (cfg_fields; exact Fx);
         destruct (Hpost c1 Hx1) as [Pnone Psome];
         assert (Ht1 : tsuites c1 = tsuites cfg2) by (cfg_fields; reflexivity)
     end;
     (split; [exact Hx1|]);
     (split;
      [ destruct (Z.eq_dec rc 1) as [E1|E1];
        [ right; apply Psome; rewrite Ht1; apply Fs; exact E1
        | left; apply Pnone; rewrite Ht1; apply Fn; exact E1 ]
      | intros l0 l1 rest Hbody H6 Hfit;
        apply Psome; rewrite Ht1; apply Fs;
        apply (Hcodes l0 l1 rest Hbody H6); exact Hfit ])).
Qed.

(** X23 on the Google-bot-like hello of the module's documentation. *)
Lemma v2_hello_never_published_witness :
  exists cfg1,
    sslhaf_in_filter cfg_init (Brigade [DataBucket (google_hello ++ [])])
    = Ok cfg1
    /\ exists f, sslhaf_post_request cfg1 = Fault f.
Proof.
  destruct (v2_hello_never_published (byte_of_Z 37) (byte_of_Z 3)
              (byte_of_Z 1) (skipn 5 google_hello) []
              ltac:(vm_compute; reflexivity) ltac:(vm_compute; reflexivity))
    as (cfg1 & Hf & _ & _ & Hfault).
  exists cfg1. split; [exact Hf|].
  apply (Hfault _ _ _ eq_refl); vm_compute; discriminate.
Defined.
(** ** [c2x] *)

(** X24.  [c2x] writes exactly two lowercase hex digits, and read back as a
    hex number they give the low 8 bits of the argument, whatever the rest
    of the argument is; [str_to_dec] turns them into that number in
    decimal followed by a hyphen. *)
Theorem c2x_digits (z : Z) :
  String.length (c2x z) = 2%nat
  /\ all_hex (c2x z) = true
  /\ spec_hex_value (c2x z) = z mod 256
  /\ str_to_dec (c2x z) = Ok (fmt_d (z mod 256) ++ "-")%string.
Proof.
  rewrite c2x_byte_of_Z.
  assert (Hv : spec_hex_value (spec_hex (byte_of_Z z)) = z mod 256)
    by (unfold spec_hex_value; rewrite spec_hex_value_byte, u8_byte_of_Z;
        lia).
  split; [reflexivity|]. split; [apply spec_hex_all_hex|].
  split; [exact Hv|].
  destruct (str_to_dec_short (spec_hex (byte_of_Z z))
              (spec_hex_all_hex _) ltac:(cbn; lia)) as [Hs _].
  rewrite Hs, Hv. reflexivity.
Qed.
